(** * A shallow embedding of the sparse rail generator of flatland1
    (envs/step_utils/rail_generators_sparse_watch.py) and of
    [ParamMalfunctionGen.generate] (envs/malfunction_generators.py).

    Python integers are [Z]; list indices and lengths are [nat] where the
    source only counts.  Python exceptions are the [Raise] branch of
    [result]; a [while] loop is run on explicit fuel, [None] meaning that
    the fuel ran out.  numpy's [RandomState] and the flatland library
    functions called by the generator (grid drawing, transition fixing)
    are opaque Section variables: the generator only threads them. *)

From Stdlib Require Import String ZArith QArith List Lia Bool Permutation Sorted.
Import ListNotations.
Open Scope Z_scope.

(** ** Python runtime fragments *)

Inductive exn : Type :=
| ValueError (msg : string)
| IndexError
| ZeroDivisionError
| UnboundLocalError.

Inductive result (A : Type) : Type :=
| Ok (a : A)
| Raise (e : exn).
Arguments Ok {A} a.
Arguments Raise {A} e.

Definition bind {A B} (m : result A) (k : A -> result B) : result B :=
  match m with Ok a => k a | Raise e => Raise e end.

Notation "x <- m ;; k" := (bind m (fun x => k))
  (at level 61, m at next level, right associativity).
Notation "' p <- m ;; k" := (bind m (fun x => match x with p => k end))
  (at level 61, p pattern, m at next level, right associativity).

(** [l[i]] on a Python list or a 1-d numpy array: negative indices wrap,
    anything else out of range raises [IndexError]. *)
Definition py_index {A} (l : list A) (i : Z) : result A :=
  let n := Z.of_nat (length l) in
  let j := if i <? 0 then i + n else i in
  if (0 <=? j) && (j <? n) then
    match nth_error l (Z.to_nat j) with Some a => Ok a | None => Raise IndexError end
  else Raise IndexError.

(** [l[i] = v] on a Python list or numpy array *)
Definition py_setitem {A} (l : list A) (i : Z) (v : A) : result (list A) :=
  let n := Z.of_nat (length l) in
  let j := if i <? 0 then i + n else i in
  if (0 <=? j) && (j <? n) then
    Ok (firstn (Z.to_nat j) l ++ v :: skipn (S (Z.to_nat j)) l)
  else Raise IndexError.

(** [range(a, b)] *)
Definition zrange (a b : Z) : list Z :=
  map (fun k => a + Z.of_nat k) (seq 0 (Z.to_nat (b - a))).

(** [math.ceil(a / b)] for integers, [b <> 0] *)
Definition ceil_div (a b : Z) : Z := - ((- a) / b).

Definition cell := (Z * Z)%type.

Definition cell_eqb (a b : cell) : bool := (fst a =? fst b) && (snd a =? snd b).

(** Diagnostics emitted with [warnings.warn]. *)
Inductive warning : Type :=
| W_not_all_cities (created requested : Z)  (* "Could not set all required cities!" *)
| W_grid_mode                               (* "Changing to Grid mode ..." *)
| W_no_line                                 (* "No line added between stations" *)
| W_unable_to_connect.                      (* "Unable to connect requested stations" *)

(** ** flatland grid helpers used by the generator *)

(** [Vec2dOperations.get_manhattan_distance] *)
Definition get_manhattan_distance (a b : cell) : Z :=
  Z.abs (fst a - fst b) + Z.abs (snd a - snd b).

(** [grid4_utils.direction_to_point]: N=0, E=1, S=2, W=3.  [np.argmax]
    returns the first maximal axis. *)
Definition direction_to_point (pos1 pos2 : cell) : Z :=
  let dr := fst pos1 - fst pos2 in
  let dc := snd pos1 - snd pos2 in
  if dc * dc <=? dr * dr then (if 0 <? dr then 0 else 2)
  else (if 0 <? dc then 3 else 1).

(** [SparseRailGen.argsort] ([sorted(range(len(seq)), key=seq.__getitem__)])
    and [np.argsort] on the short distance rows (an insertion sort there):
    both are stable sorts of the indices by key. *)
Fixpoint insert_by (key : nat -> Z) (i : nat) (l : list nat) : list nat :=
  match l with
  | [] => [i]
  | j :: l' => if key i <? key j then i :: l else j :: insert_by key i l'
  end.

Definition argsort (seq_ : list Z) : list nat :=
  fold_left (fun acc i => insert_by (fun k => nth k seq_ 0) i acc)
            (seq 0 (length seq_)) [].

(** [sorted(...)] on a list of indices *)
Fixpoint insert_nat (i : nat) (l : list nat) : list nat :=
  match l with
  | [] => [i]
  | j :: l' => if Nat.leb i j then i :: l else j :: insert_nat i l'
  end.

Definition sort_nat (l : list nat) : list nat := fold_right insert_nat [] l.

Fixpoint nat_list_eqb (a b : list nat) : bool :=
  match a, b with
  | [], [] => true
  | x :: a', y :: b' => Nat.eqb x y && nat_list_eqb a' b'
  | _, _ => false
  end.

(** [list(dict.fromkeys(l))]: first occurrences, in order *)
Definition dict_fromkeys (l : list nat) : list nat :=
  rev (fold_left (fun acc x => if existsb (Nat.eqb x) acc then acc else x :: acc) l []).

(** ** The generator's configuration *)

Record SparseRailGen : Type := mkSparseRailGen {
  max_num_cities : Z;
  grid_mode : bool;
  max_rails_between_cities : Z;
  max_rail_pairs_in_city : Z;
  seed : option Z
}.

(** ** Clique detection ([build_clique3], [contains_cliques]) *)

Definition build_clique3 (index_array : list (list nat)) (index : nat) : result (list nat) :=
  row <- py_index index_array (Z.of_nat index) ;;
  closest_index1 <- py_index row 0 ;;
  closest_index2 <- py_index row 1 ;;
  closest_index3 <- py_index row 2 ;;
  Ok (sort_nat [closest_index1; closest_index2; closest_index3]).

(** [list(set(cluster) - set(clique3))]; only its element [0] is read,
    and it is read when the difference is a singleton. *)
Definition set_difference (a b : list nat) : list nat :=
  filter (fun x => negb (existsb (Nat.eqb x) b)) a.

Fixpoint cliques_loop (sort_index : list (list nat)) (idxs : list nat) : result bool :=
  match idxs with
  | [] => Ok false
  | i :: rest =>
      clique3 <- build_clique3 sort_index i ;;
      i1 <- py_index clique3 1 ;;
      clique31 <- build_clique3 sort_index i1 ;;
      i2 <- py_index clique3 2 ;;
      clique32 <- build_clique3 sort_index i2 ;;
      if nat_list_eqb clique3 clique31 && nat_list_eqb clique3 clique32 then Ok true
      else
        let cluster := dict_fromkeys (clique3 ++ clique31 ++ clique32) in
        if Nat.eqb (length cluster) 4 then
          additional_element <- py_index (set_difference cluster clique3) 0 ;;
          clique33 <- build_clique3 sort_index additional_element ;;
          if nat_list_eqb cluster (dict_fromkeys (cluster ++ clique33)) then Ok true
          else cliques_loop sort_index rest
        else cliques_loop sort_index rest
  end.

Definition contains_cliques (city_positions : list cell) : result bool :=
  let n := length city_positions in
  let distance_row i :=
    map (fun q => get_manhattan_distance (nth i city_positions (0, 0)) q) city_positions in
  let sort_index := map (fun i => argsort (distance_row i)) (seq 0 n) in
  cliques_loop sort_index (seq 0 n).

(** ** Neighbour lookups ([get_closest_neighbour_for_direction],
    [_closest_neighbour_in_grid4_directions]) *)

(** entries of [closest_neighbour] are city indices or [None] *)
Definition get_closest_neighbour_for_direction (closest_neighbours : list (option nat))
           (out_direction : Z) : result (option nat) :=
  neighbour_idx <- py_index closest_neighbours out_direction ;;
  match neighbour_idx with
  | Some _ => Ok neighbour_idx
  | None =>
      neighbour_idx <- py_index closest_neighbours ((out_direction - 1) mod 4) ;;
      match neighbour_idx with
      | Some _ => Ok neighbour_idx
      | None =>
          neighbour_idx <- py_index closest_neighbours ((out_direction + 1) mod 4) ;;
          match neighbour_idx with
          | Some _ => Ok neighbour_idx
          | None => py_index closest_neighbours ((out_direction + 2) mod 4)
          end
      end
  end.

Definition is_some {A} (o : option A) : bool := match o with Some _ => true | None => false end.

(** [for neighbour in sorted_neighbours[1:]: ...], with its early return *)
Fixpoint closest_neighbour_loop (current_position : cell) (city_positions : list cell)
         (sorted_neighbours : list nat) (closest_neighbour : list (option nat))
  : result (list (option nat)) :=
  match sorted_neighbours with
  | [] => Ok closest_neighbour
  | neighbour :: rest =>
      neighbour_position <- py_index city_positions (Z.of_nat neighbour) ;;
      let direction_to_neighbour := direction_to_point current_position neighbour_position in
      entry <- py_index closest_neighbour direction_to_neighbour ;;
      closest_neighbour' <-
        (match entry with
         | None => py_setitem closest_neighbour direction_to_neighbour (Some neighbour)
         | Some _ => Ok closest_neighbour
         end) ;;
      if forallb is_some closest_neighbour' then Ok closest_neighbour'
      else closest_neighbour_loop current_position city_positions rest closest_neighbour'
  end.

Definition closest_neighbour_in_grid4_directions (current_city_idx : Z) (city_positions : list cell)
  : result (list (option nat)) :=
  city_distances <-
    fold_left
      (fun acc city_idx =>
         ds <- acc ;;
         p <- py_index city_positions current_city_idx ;;
         q <- py_index city_positions city_idx ;;
         Ok (ds ++ [get_manhattan_distance p q]))
      (zrange 0 (Z.of_nat (length city_positions))) (Ok []) ;;
  let sorted_neighbours := argsort city_distances in
  match sorted_neighbours with
  | [] => Ok [None; None; None; None]
  | _ :: tail =>
      current_position <- py_index city_positions current_city_idx ;;
      closest_neighbour_loop current_position city_positions tail [None; None; None; None]
  end.

(** ** Evenly spaced placement *)

(** [int(np.ceil(np.sqrt(a / b)))] for [a >= 0], [b > 0], computed exactly *)
Definition ceil_sqrt_ratio (a b : Z) : Z :=
  let s := Z.sqrt (a / b) in
  if s * s * b =? a then s else s + 1.

(** [np.linspace(start, stop, num, dtype=int)]: the samples
    [start + k * (stop - start) / (num - 1)], truncated toward zero,
    computed exactly. *)
Definition linspace_int (start stop num : Z) : result (list Z) :=
  if num <? 0 then Raise (ValueError "Number of samples must be non-negative"%string)
  else if num =? 1 then Ok [start]
  else
    let div := num - 1 in
    Ok (map (fun k => Z.quot (start * div + k * (stop - start)) div) (zrange 0 num)).

Definition generate_evenly_distr_city_positions (num_cities city_radius width height : Z)
  : result (list cell) :=
  if width =? 0 then Raise ZeroDivisionError else
  (* aspect_ratio = height / width; a negative ratio gives a NaN that
     [int] refuses *)
  if num_cities * height * width <? 0 then Raise (ValueError "cannot convert float NaN to integer"%string) else
  let padding := 2 in
  let city_size := 2 * (city_radius + 1) in
  let max_cities_per_row := (height - padding) / city_size in
  let max_cities_per_col := (width - padding) / city_size in
  let cities_per_row :=
    Z.min (ceil_sqrt_ratio (Z.abs (num_cities * height)) (Z.abs width)) max_cities_per_row in
  if cities_per_row =? 0 then Raise ZeroDivisionError else
  let cities_per_col := Z.min (ceil_div num_cities cities_per_row) max_cities_per_col in
  let num_build_cities := Z.min num_cities (cities_per_col * cities_per_row) in
  row_positions <- linspace_int (city_radius + 2) (height - (city_radius + 2)) cities_per_row ;;
  col_positions <- linspace_int (city_radius + 2) (width - (city_radius + 2)) cities_per_col ;;
  fold_left
    (fun acc city_idx =>
       city_positions <- acc ;;
       row <- py_index row_positions (city_idx mod cities_per_row) ;;
       col <- py_index col_positions (city_idx / cities_per_row) ;;
       Ok (city_positions ++ [(row, col)]))
    (zrange 0 num_build_cities) (Ok []).

Section SparseRailGenModel.

(** numpy's [RandomState]: an opaque state, [randint(low, high)] on it, and
    the seeding constructor. *)
Context {RS : Type}.
Variable rs_randint : RS -> Z -> Z -> Z * RS.
Variable RandomState : Z -> RS.

(** [np_random.randint(low, high)] *)
Definition randint (st : RS) (low high : Z) : result (Z * RS) :=
  if high <=? low then Raise (ValueError "low >= high"%string) else Ok (rs_randint st low high).

(** ** Random placement ([_generate_random_city_positions]) *)

(** [allowed_grid] as its indicator: [allowed_grid[r][c] == 1]. *)
Definition grid := Z -> Z -> bool.

(** a slice bound [i] of Python on an axis of length [n]: a negative bound
    counts from the end, and both are clamped to [[0, n]] *)
Definition py_slice_bound (n i : Z) : Z :=
  if i <? 0 then Z.max 0 (i + n) else Z.min i n.

(** index [k] of an axis of length [n] lies in the slice [[start:stop]] *)
Definition in_slice (n start stop k : Z) : bool :=
  (py_slice_bound n start <=? k) && (k <? py_slice_bound n stop).

(** [allowed_grid[p:-p, p:-p] = 1] on a zero grid *)
Definition init_allowed_grid (height width p : Z) : grid :=
  fun r c => in_slice height p (- p) r && in_slice width p (- p) c.

(** [allowed_grid[row_start:row_end, col_start:col_end] = 0] *)
Definition block_city (height width : Z) (g : grid) (row col city_radius_pad1 : Z) : grid :=
  let row_start := Z.max 0 (row - 2 * city_radius_pad1) in
  let col_start := Z.max 0 (col - 2 * city_radius_pad1) in
  let row_end := row + 2 * city_radius_pad1 + 1 in
  let col_end := col + 2 * city_radius_pad1 + 1 in
  fun r c =>
    g r c && negb (in_slice height row_start row_end r && in_slice width col_start col_end c).

(** [np.where(allowed_grid == 1)], read as the row-major list of pairs *)
Definition np_where (height width : Z) (g : grid) : list cell :=
  flat_map (fun r => map (fun c => (r, c)) (filter (fun c => g r c) (zrange 0 width)))
           (zrange 0 height).

Fixpoint random_city_loop (height width city_radius_pad1 : Z) (k : nat) (g : grid)
         (city_positions : list cell) (st : RS) : result (list cell * RS) :=
  match k with
  | O => Ok (city_positions, st)
  | S k' =>
      let allowed_indexes := np_where height width g in
      let num_allowed_points := Z.of_nat (length allowed_indexes) in
      if num_allowed_points =? 0 then Ok (city_positions, st)   (* break *)
      else
        '(point_index, st') <- randint st 0 num_allowed_points ;;
        '(row, col) <- py_index allowed_indexes point_index ;;
        random_city_loop height width city_radius_pad1 k'
          (block_city height width g row col city_radius_pad1) (city_positions ++ [(row, col)]) st'
  end.

Definition generate_random_city_positions (num_cities city_radius width height : Z) (st : RS)
  : result (list cell * list warning * RS) :=
  (* [np.zeros((height, width), dtype=np.uint8)] *)
  if (height <? 0) || (width <? 0) then Raise (ValueError "negative dimensions are not allowed"%string)
  else
  let city_radius_pad1 := city_radius + 1 in
  '(city_positions, st') <-
    random_city_loop height width city_radius_pad1 (Z.to_nat num_cities)
      (init_allowed_grid height width city_radius_pad1) [] st ;;
  let created_cites := Z.of_nat (length city_positions) in
  let ws := if created_cites <? num_cities then [W_not_all_cities created_cites num_cities] else [] in
  Ok (city_positions, ws, st').

(** ** City placement in [generate] (source lines 145-168) *)

(** [while contains_cliques: city_positions = ...; contains_cliques = ...];
    the fuel bounds the number of [contains_cliques] evaluations. *)
Fixpoint clique_retry (fuel : nat) (num_cities city_radius width height : Z)
         (city_positions : list cell) (ws : list warning) (st : RS)
  : option (result (list cell * list warning * RS)) :=
  match fuel with
  | O => None
  | S fuel' =>
      match contains_cliques city_positions with
      | Raise e => Some (Raise e)
      | Ok false => Some (Ok (city_positions, ws, st))
      | Ok true =>
          match generate_random_city_positions num_cities city_radius width height st with
          | Raise e => Some (Raise e)
          | Ok (cp, ws', st') => clique_retry fuel' num_cities city_radius width height cp (ws ++ ws') st'
          end
      end
  end.

Definition place_cities (g : SparseRailGen) (max_feasible_cities city_radius width height : Z)
           (fuel : nat) (st : RS) : option (result (list cell * list warning * RS)) :=
  let placed :=
    if grid_mode g then
      Some (cp <- generate_evenly_distr_city_positions max_feasible_cities city_radius width height ;;
            Ok (cp, [], st))
    else
      match generate_random_city_positions max_feasible_cities city_radius width height st with
      | Raise e => Some (Raise e)
      | Ok (cp, ws, st') =>
          if 4 <? max_num_cities g
          then clique_retry fuel max_feasible_cities city_radius width height cp ws st'
          else Some (Ok (cp, ws, st'))
      end in
  match placed with
  | None => None
  | Some (Raise e) => Some (Raise e)
  | Some (Ok (cp, ws, st')) =>
      if Z.of_nat (length cp) <? 2 then
        Some (cp' <- generate_evenly_distr_city_positions max_feasible_cities city_radius width height ;;
              Ok (cp', ws ++ [W_grid_mode], st'))
      else Some (Ok (cp, ws, st'))
  end.


(** ** City connection points ([_generate_city_connection_points]) *)

(** The float array [vector_field] of shape [(height, width)], as its
    entries; [vector_field[cell]] wraps negative indices and raises
    [IndexError] out of range. *)
Definition vfield := Z -> Z -> Z.

Definition np_axis_index (n i : Z) : option Z :=
  let j := if i <? 0 then i + n else i in
  if (0 <=? j) && (j <? n) then Some j else None.

Definition vf_get (height width : Z) (vf : vfield) (c : cell) : result Z :=
  match np_axis_index height (fst c), np_axis_index width (snd c) with
  | Some r, Some k => Ok (vf r k)
  | _, _ => Raise IndexError
  end.

Definition vf_set (height width : Z) (vf : vfield) (c : cell) (v : Z) : result vfield :=
  match np_axis_index height (fst c), np_axis_index width (snd c) with
  | Some r, Some k => Ok (fun r' k' => if (r' =? r) && (k' =? k) then v else vf r' k')
  | _, _ => Raise IndexError
  end.

(** flatland's [align_cell_to_city] (grid4_generators_utils) *)
Variable align_cell_to_city : cell -> Z -> cell -> Z.

(** [_get_cells_in_city] *)
Definition get_cells_in_city (height width : Z) (center : cell) (radius city_orientation : Z)
           (vector_field : vfield) : result (list cell * vfield) :=
  let x_range := zrange (fst center - radius) (fst center + radius + 1) in
  let y_range := zrange (snd center - radius) (snd center + radius + 1) in
  let city_cells := flat_map (fun x => map (fun y => (x, y)) y_range) x_range in
  vf' <- fold_left
           (fun acc c => vf <- acc ;;
                         vf_set height width vf c (align_cell_to_city center city_orientation c))
           city_cells (Ok vector_field) ;;
  Ok (city_cells, vf').

(** [np.clip(x, 0, 1)] *)
Definition np_clip01 (x : Z) : Z := Z.min (Z.max x 0) 1.

(** [inner_point_offset] for [nr_of_connection_points] slots *)
Definition inner_point_offsets (nr_of_connection_points : Z) : list Z :=
  map (fun k => let offset_distance := k - Z.quot nr_of_connection_points 2 in
                Z.abs offset_distance + np_clip01 offset_distance + 1)
      (zrange 0 nr_of_connection_points).

(** the inner and outer coordinates of one slot on side [direction] *)
Definition slot_coordinates (direction : Z) (city_position : cell) (city_radius slot offset : Z)
  : cell * cell :=
  let '(r, c) := city_position in
  if direction =? 0 then ((r - city_radius + offset, c + slot), (r - city_radius, c + slot))
  else if direction =? 1 then ((r + slot, c + city_radius - offset), (r + slot, c + city_radius))
  else if direction =? 2 then ((r + city_radius - offset, c + slot), (r + city_radius, c + slot))
  else ((r + slot, c - city_radius + offset), (r + slot, c - city_radius)).

(** the loop [for direction in range(4)] of one city *)
Definition city_sides (city_position : cell) (city_radius nr_of_connection_points : Z)
           (connections_per_direction : list Z) : result (list (list cell) * list (list cell)) :=
  let number_of_out_rails := 2 in
  let start_idx := Z.quot (nr_of_connection_points - number_of_out_rails) 2 in
  let connection_slots := map (fun k => k - start_idx) (zrange 0 nr_of_connection_points) in
  let inner_point_offset := inner_point_offsets nr_of_connection_points in
  fold_left
    (fun acc direction =>
       '(inner, outer) <- acc ;;
       count <- py_index connections_per_direction direction ;;
       '(si, so) <-
         fold_left
           (fun acc2 connection_idx =>
              '(si, so) <- acc2 ;;
              offset <- py_index inner_point_offset connection_idx ;;
              slot <- py_index connection_slots connection_idx ;;
              let '(tmp_coordinates, out_tmp_coordinates) :=
                slot_coordinates direction city_position city_radius slot offset in
              Ok (si ++ [tmp_coordinates],
                  if (start_idx <=? connection_idx) && (connection_idx <? start_idx + number_of_out_rails)
                  then so ++ [out_tmp_coordinates] else so))
           (zrange 0 count) (Ok ([], [])) ;;
       Ok (inner ++ [si], outer ++ [so]))
    (zrange 0 4) (Ok ([], [])).

Definition conn_acc : Type :=
  (list (list (list cell)) * list (list (list cell)) * list Z * list cell * vfield * RS)%type.

Definition city_connection_step (gm : bool) (height width : Z) (city_positions : list cell)
           (city_radius rail_pairs_in_city : Z) (acc : result conn_acc) (city_position : cell)
  : result conn_acc :=
  '(inner_connection_points, outer_connection_points, city_orientations, city_cells, vf, st) <- acc ;;
  let neighb_dist := map (get_manhattan_distance city_position) city_positions in
  let closest_neighb_idx := argsort neighb_dist in
  '(current_closest_direction, st1) <-
    (if gm then randint st 0 4
     else nb <- py_index closest_neighb_idx 1 ;;
          q <- py_index city_positions (Z.of_nat nb) ;;
          Ok (direction_to_point city_position q, st)) ;;
  let connection_sides_idx := [current_closest_direction; (current_closest_direction + 2) mod 4] in
  '(cells, vf1) <- get_cells_in_city height width city_position city_radius current_closest_direction vf ;;
  '(r, st2) <- randint st1 1 (rail_pairs_in_city + 1) ;;
  let nr_of_connection_points := r * 2 in
  connections_per_direction <-
    fold_left (fun acc2 idx => cpd <- acc2 ;; py_setitem cpd idx nr_of_connection_points)
              connection_sides_idx (Ok [0; 0; 0; 0]) ;;
  '(inner, outer) <- city_sides city_position city_radius nr_of_connection_points connections_per_direction ;;
  Ok (inner_connection_points ++ [inner], outer_connection_points ++ [outer],
      city_orientations ++ [current_closest_direction], city_cells ++ cells, vf1, st2).

Definition generate_city_connection_points (gm : bool) (height width : Z) (city_positions : list cell)
           (city_radius : Z) (vector_field : vfield) (rail_pairs_in_city : Z) (st : RS)
  : result conn_acc :=
  fold_left (city_connection_step gm height width city_positions city_radius rail_pairs_in_city)
            city_positions (Ok ([], [], [], [], vector_field, st)).

(** ** Train stations ([_set_trainstation_positions]) *)

Definition set_trainstation_positions (city_positions : list cell) (city_radius : Z)
           (free_rails : list (list (list cell))) : result (list (list (cell * Z))) :=
  fold_left
    (fun acc current_city =>
       train_stations <- acc ;;
       rails <- py_index free_rails current_city ;;
       stations <-
         fold_left
           (fun acc2 track_nbr =>
              s <- acc2 ;;
              track <- py_index rails track_nbr ;;
              possible_location <- py_index track (Z.quot (Z.of_nat (length track)) 2) ;;
              Ok (s ++ [(possible_location, track_nbr)]))
           (zrange 0 (Z.of_nat (length rails))) (Ok []) ;;
       Ok (train_stations ++ [stations]))
    (zrange 0 (Z.of_nat (length city_positions))) (Ok []).

(** ** flatland grid operations used to draw the rails *)

Context {GridMap : Type}.
Variable GridTransitionMap : Z -> Z -> GridMap.
Variable connect_rail_in_grid_map : GridMap -> cell -> cell -> list cell -> list cell * GridMap.
Variable connect_straight_line_in_grid_map : GridMap -> cell -> cell -> list cell * GridMap.
Variable fix_inner_nodes : GridMap -> cell -> GridMap.
Variable cell_neighbours_valid : GridMap -> cell -> bool.
Variable fix_transitions : GridMap -> cell -> Z -> GridMap.

(** ** Inner city tracks ([_build_inner_cities]) *)

(** a local that may still be unbound *)
Definition get_local {A} (x : option A) : result A :=
  match x with Some a => Ok a | None => Raise UnboundLocalError end.

(** [for i in range(4): if len(points[i]) > 0: boarder = i; break] *)
Fixpoint first_nonempty_side (sides : list (list cell)) (idxs : list Z) : result (option Z) :=
  match idxs with
  | [] => Ok None
  | i :: rest =>
      side <- py_index sides i ;;
      if 0 <? Z.of_nat (length side) then Ok (Some i) else first_nonempty_side sides rest
  end.

Definition build_inner_city (inner_connection_points outer_connection_points : list (list (list cell)))
           (acc : result (list (list (list cell)) * GridMap * option Z)) (current_city : Z)
  : result (list (list (list cell)) * GridMap * option Z) :=
  '(free_rails, grid_map, boarder_prev) <- acc ;;
  inner <- py_index inner_connection_points current_city ;;
  found <- first_nonempty_side inner (zrange 0 4) ;;
  let boarder_var := match found with Some b => Some b | None => boarder_prev end in
  boarder <- get_local boarder_var ;;
  let opposite_boarder := (boarder + 2) mod 4 in
  inner_b <- py_index inner boarder ;;
  outer <- py_index outer_connection_points current_city ;;
  outer_b <- py_index outer boarder ;;
  let nr_of_connection_points := Z.of_nat (length inner_b) in
  let number_of_out_rails := Z.of_nat (length outer_b) in
  let start_idx := Z.quot (nr_of_connection_points - number_of_out_rails) 2 in
  '(tracks, grid_map1) <-
    fold_left
      (fun acc2 track_id =>
         '(tracks, gm) <- acc2 ;;
         source <- py_index inner_b track_id ;;
         inner_o <- py_index inner opposite_boarder ;;
         target <- py_index inner_o track_id ;;
         let '(current_track, gm') := connect_straight_line_in_grid_map gm source target in
         Ok (tracks ++ [current_track], gm'))
      (zrange 0 nr_of_connection_points) (Ok ([], grid_map)) ;;
  grid_map2 <-
    fold_left
      (fun acc2 track_id =>
         gm <- acc2 ;;
         source <- py_index inner_b track_id ;;
         inner_o <- py_index inner opposite_boarder ;;
         target <- py_index inner_o track_id ;;
         let gm1 := fix_inner_nodes (fix_inner_nodes gm source) target in
         if (start_idx <=? track_id) && (track_id <? start_idx + number_of_out_rails) then
           source_outer <- py_index outer_b (track_id - start_idx) ;;
           outer_o <- py_index outer opposite_boarder ;;
           target_outer <- py_index outer_o (track_id - start_idx) ;;
           let gm2 := snd (connect_straight_line_in_grid_map gm1 source source_outer) in
           Ok (snd (connect_straight_line_in_grid_map gm2 target target_outer))
         else Ok gm1)
      (zrange 0 nr_of_connection_points) (Ok grid_map1) ;;
  Ok (free_rails ++ [tracks], grid_map2, boarder_var).

Definition build_inner_cities (city_positions : list cell)
           (inner_connection_points outer_connection_points : list (list (list cell)))
           (grid_map : GridMap) : result (list (list (list cell)) * GridMap) :=
  '(free_rails, gm, _) <-
    fold_left (build_inner_city inner_connection_points outer_connection_points)
              (zrange 0 (Z.of_nat (length city_positions))) (Ok ([], grid_map, None)) ;;
  Ok (free_rails, gm).

(** ** Transition repair ([_fix_transitions]) *)

Definition fix_all_transitions (height width : Z) (city_cells inter_city_lines : list cell)
           (grid_map : GridMap) (vector_field : vfield) : result GridMap :=
  let size := 3 * height * width * 2 in
  let cells_to_fix := city_cells ++ inter_city_lines in
  rails_to_fix <-
    fold_left
      (fun acc c =>
         rails <- acc ;;
         if cell_neighbours_valid grid_map c then Ok rails
         else if size <=? 3 * Z.of_nat (length rails) + 2 then Raise IndexError
         else v <- vf_get height width vector_field c ;;
              Ok (rails ++ [(c, v)]))
      cells_to_fix (Ok []) ;;
  Ok (fold_left (fun gm '(c, v) => fix_transitions gm c v) rails_to_fix grid_map).


(** ** Inter-city rails ([_connect_cities]) *)

(** The locals of [_connect_cities] that survive from one loop iteration
    (and one city) to the next; [None] is a local not yet bound. *)
Record cc_locals : Type := mk_cc_locals {
  all_paths : list cell;
  set_of_connections : list (Z * Z);
  loop_i : Z;
  neighbour_connection_point : option cell;
  current_direction : option Z;
  neighbour_index_for_connection : option Z;
  possible_connection : option (Z * Z);
  city_direction : option Z;
  next_neighbour_connection_point : option cell;
  last_city_out_connection_point : option cell;
  cc_grid_map : GridMap;
  cc_warnings : list warning
}.

Definition set_i (L : cc_locals) (i : Z) : cc_locals :=
  mk_cc_locals (all_paths L) (set_of_connections L) i (neighbour_connection_point L)
    (current_direction L) (neighbour_index_for_connection L) (possible_connection L)
    (city_direction L) (next_neighbour_connection_point L) (last_city_out_connection_point L)
    (cc_grid_map L) (cc_warnings L).

(** the check after each [connect_rail_in_grid_map] call: warn on an empty
    path or on a path whose ends are not the requested ones, then
    [all_paths.extend(new_line)] *)
Definition line_warnings (start goal : cell) (new_line : list cell) : list warning :=
  match new_line with
  | [] => [W_no_line]
  | first :: _ =>
      if negb (cell_eqb (last new_line first) goal) || negb (cell_eqb first start)
      then [W_unable_to_connect] else []
  end.

Definition add_line (router : GridMap -> cell -> cell -> list cell -> list cell * GridMap)
           (city_cells : list cell) (L : cc_locals) (start goal : cell) : cc_locals :=
  let '(new_line, gm) := router (cc_grid_map L) start goal city_cells in
  mk_cc_locals (all_paths L ++ new_line) (set_of_connections L) (loop_i L)
    (neighbour_connection_point L) (current_direction L) (neighbour_index_for_connection L)
    (possible_connection L) (city_direction L) (next_neighbour_connection_point L)
    (last_city_out_connection_point L) gm (cc_warnings L ++ line_warnings start goal new_line).

Definition append_connection (L : cc_locals) (pc : Z * Z) : cc_locals :=
  mk_cc_locals (all_paths L) (set_of_connections L ++ [pc]) (loop_i L)
    (neighbour_connection_point L) (current_direction L) (neighbour_index_for_connection L)
    (possible_connection L) (city_direction L) (next_neighbour_connection_point L)
    (last_city_out_connection_point L) (cc_grid_map L) (cc_warnings L).

Definition pair_eqb (a b : Z * Z) : bool := (fst a =? fst b) && (snd a =? snd b).

(** [list.remove(x)] *)
Fixpoint list_remove (l : list cell) (x : cell) : result (list cell) :=
  match l with
  | [] => Raise (ValueError "list.remove(x): x not in list"%string)
  | y :: l' => if cell_eqb y x then Ok l' else (r <- list_remove l' x ;; Ok (y :: r))
  end.

(** the search for the closest connection point of the neighbour:
    state [(min_connection_dist, neighbour_connection_point,
    current_direction, neighbour_index_for_connection)], [None] for an
    infinite distance or an unbound local *)
Definition closest_point_search (nb_points : list (list cell)) (nb : Z) (out_point : cell)
           (init : option Z * option cell * option Z * option Z)
  : result (option Z * option cell * option Z * option Z) :=
  fold_left
    (fun acc direction =>
       s <- acc ;;
       current_points <- py_index nb_points direction ;;
       Ok (fold_left
             (fun '(md, ncp, cd, nifc) tmp =>
                let tmp_dist := get_manhattan_distance out_point tmp in
                let closer := match md with None => true | Some m => tmp_dist <? m end in
                if closer then (Some tmp_dist, Some tmp, Some direction, Some nb)
                else (md, ncp, cd, nifc))
             current_points s))
    (zrange 0 4) (Ok init).

(** the [i % 2 == 0] branch, towards neighbour [closest_neighb_idx[k]] *)
Definition even_step (current_city_idx : Z) (city_position : cell) (city_positions : list cell)
           (closest_neighb_idx : list nat) (k : Z) (cp_copy : list (list (list cell)))
           (out_point : cell) (L : cc_locals) : result (cc_locals * list (list (list cell))) :=
  nbn <- py_index closest_neighb_idx k ;;
  let nb := Z.of_nat nbn in
  nb_points <- py_index cp_copy nb ;;
  '(_, ncp_var, cd_var, nifc_var) <-
    closest_point_search nb_points nb out_point
      (None, neighbour_connection_point L, current_direction L, neighbour_index_for_connection L) ;;
  nifc <- get_local nifc_var ;;
  let pc := (current_city_idx, nifc) in
  let reversed_possible_connection := (nifc, current_city_idx) in
  let cdir := direction_to_point city_position out_point in
  nb_position <- py_index city_positions nb ;;
  ncp <- get_local ncp_var ;;
  let ndir := direction_to_point nb_position ncp in
  if existsb (pair_eqb reversed_possible_connection) (set_of_connections L) then
    Ok (mk_cc_locals (all_paths L) (set_of_connections L) (loop_i L + 1) ncp_var cd_var nifc_var
          (Some pc) (Some cdir) (next_neighbour_connection_point L)
          (last_city_out_connection_point L) (cc_grid_map L) (cc_warnings L), cp_copy)
  else
    cur <- get_local cd_var ;;
    side <- py_index nb_points cur ;;
    '(ncp', nncp') <-
      (if (cdir + ndir =? 1) || (cdir + ndir =? 5) || (cdir =? ndir) then
         a <- py_index side 1 ;; b <- py_index side 0 ;; Ok (a, b)
       else
         a <- py_index side 0 ;; b <- py_index side 1 ;; Ok (a, b)) ;;
    side' <- list_remove side ncp' ;;
    nb_points' <- py_setitem nb_points cur side' ;;
    cp_copy' <- py_setitem cp_copy nb nb_points' ;;
    Ok (mk_cc_locals (all_paths L) (set_of_connections L) (loop_i L) (Some ncp') cd_var nifc_var
          (Some pc) (Some cdir) (Some nncp') (Some out_point) (cc_grid_map L) (cc_warnings L),
        cp_copy').

(** the [i % 2 == 1] branch: draw the two rails of the pair *)
Definition odd_step (router : GridMap -> cell -> cell -> list cell -> list cell * GridMap)
           (city_cells : list cell) (out_point : cell) (L : cc_locals) : result cc_locals :=
  cd <- get_local (city_direction L) ;;
  ncp <- get_local (neighbour_connection_point L) ;;
  last_out <- get_local (last_city_out_connection_point L) ;;
  nncp <- get_local (next_neighbour_connection_point L) ;;
  pc <- get_local (possible_connection L) ;;
  let '(n0, n1) := ncp in
  let '(l0, l1) := last_out in
  let crossing :=
    ((cd =? 0) || (cd =? 1)) && (((n0 <? l0) && (l1 <? n1)) || ((l0 <? n0) && (n1 <? l1)))
    || ((cd =? 2) || (cd =? 3)) && (((n0 <? l0) && (n1 <? l1)) || ((l0 <? n0) && (l1 <? n1))) in
  if crossing then
    let L1 := add_line router city_cells L out_point nncp in
    let L2 := add_line router city_cells L1 last_out ncp in
    Ok (append_connection L2 pc)
  else
    let L1 := add_line router city_cells L last_out ncp in
    let L2 := append_connection L1 pc in
    Ok (add_line router city_cells L2 out_point nncp).

(** one pass [for city_out_connection_point in connection_points[...][out_direction]] *)
Fixpoint connection_pass (router : GridMap -> cell -> cell -> list cell -> list cell * GridMap)
         (city_cells : list cell) (current_city_idx : Z) (city_position : cell)
         (city_positions : list cell) (closest_neighb_idx : list nat) (k : Z)
         (points : list cell) (cp_copy : list (list (list cell))) (L : cc_locals)
  : result cc_locals :=
  match points with
  | [] => Ok L
  | out_point :: rest =>
      if loop_i L mod 2 =? 0 then
        '(L', cp_copy') <- even_step current_city_idx city_position city_positions
                             closest_neighb_idx k cp_copy out_point L ;;
        connection_pass router city_cells current_city_idx city_position city_positions
          closest_neighb_idx k rest cp_copy' (set_i L' (loop_i L' + 1))
      else
        L' <- odd_step router city_cells out_point L ;;
        connection_pass router city_cells current_city_idx city_position city_positions
          closest_neighb_idx k rest cp_copy (set_i L' (loop_i L' + 1))
  end.

(** the body of [for current_city_idx in np.arange(len(city_positions))];
    [_closest_neighbour_in_grid4_directions] is called there but its result
    is never read and it raises nothing, so it is left out. *)
Definition connect_city (router : GridMap -> cell -> cell -> list cell -> list cell * GridMap)
           (city_positions : list cell) (connection_points : list (list (list cell)))
           (city_cells : list cell) (acc : result cc_locals) (current_city_idx : Z)
  : result cc_locals :=
  L <- acc ;;
  city_position <- py_index city_positions current_city_idx ;;
  let neighb_dist := map (get_manhattan_distance city_position) city_positions in
  let closest_neighb_idx := argsort neighb_dist in
  nb1 <- py_index closest_neighb_idx 1 ;;
  nb1_position <- py_index city_positions (Z.of_nat nb1) ;;
  let closest_direction0 := direction_to_point city_position nb1_position in
  own <- py_index connection_points current_city_idx ;;
  side0 <- py_index own closest_direction0 ;;
  '(closest_direction, second_closest_direction) <-
    (match side0 with
     | [] => let cd := (closest_direction0 + 1) mod 4 in Ok (cd, (cd + 2) mod 4)
     | _ :: _ =>
         nb2 <- py_index closest_neighb_idx 2 ;;
         nb2_position <- py_index city_positions (Z.of_nat nb2) ;;
         let scd := direction_to_point city_position nb2_position in
         side2 <- py_index own scd ;;
         match side2 with
         | [] => Ok (closest_direction0, (closest_direction0 + 2) mod 4)
         | _ :: _ => Ok (closest_direction0, scd)
         end
     end) ;;
  out_points <- py_index own closest_direction ;;
  L1 <- connection_pass router city_cells current_city_idx city_position city_positions
          closest_neighb_idx 1 out_points connection_points (set_i L 0) ;;
  if negb (closest_direction =? second_closest_direction) then
    out_points2 <- py_index own second_closest_direction ;;
    connection_pass router city_cells current_city_idx city_position city_positions
      closest_neighb_idx 2 out_points2 connection_points L1
  else Ok L1.

(** [_connect_cities]: the drawn cells, the grid and the warnings *)
Definition connect_cities (router : GridMap -> cell -> cell -> list cell -> list cell * GridMap)
           (city_positions : list cell) (connection_points : list (list (list cell)))
           (city_cells : list cell) (grid_map : GridMap)
  : result (list cell * GridMap * list warning) :=
  L <- fold_left (connect_city router city_positions connection_points city_cells)
         (zrange 0 (Z.of_nat (length city_positions)))
         (Ok (mk_cc_locals [] [] 0 None None None None None None None grid_map [])) ;;
  Ok (all_paths L, cc_grid_map L, cc_warnings L).


(** ** [SparseRailGen.generate] *)

Definition infeasible_msg : string :=
  "ERROR: Cannot fit more than one city in this map, no feasible environment possible!"%string.

(** [rail_pairs_in_city], clamped to at least one pair *)
Definition rail_pairs_in_city (g : SparseRailGen) : Z :=
  let min_nr_rail_pairs_in_city := 1 in
  if max_rail_pairs_in_city g <? min_nr_rail_pairs_in_city then min_nr_rail_pairs_in_city
  else max_rail_pairs_in_city g.

Definition rails_between_cities (g : SparseRailGen) : Z :=
  if rail_pairs_in_city g * 2 <? max_rails_between_cities g then rail_pairs_in_city g * 2
  else max_rails_between_cities g.

(** [city_radius = int(np.ceil((rail_pairs_in_city*2) / 2)) + city_padding] *)
Definition city_radius (g : SparseRailGen) : Z :=
  let city_padding := 2 in
  ceil_div (rail_pairs_in_city g * 2) 2 + city_padding.

Definition max_feasible_cities (g : SparseRailGen) (width height : Z) : Z :=
  Z.min (max_num_cities g)
        (((height - 2) / (2 * (city_radius g + 1))) * ((width - 2) / (2 * (city_radius g + 1)))).

(** the metadata: [city_positions], [train_stations], [city_orientations] *)
Definition agents_hints : Type := (list cell * list (list (cell * Z)) * list Z)%type.

(** numpy's [RandomState(seed)] accepts an integer seed in [[0, 2**32)] only *)
Definition seed_error_msg : string := "Seed must be between 0 and 2**32 - 1"%string.

Definition seed_in_range (s : Z) : bool := (0 <=? s) && (s <? 2 ^ 32).

(** the seed of [g] is accepted by [RandomState] (or there is none) *)
Definition valid_seed (g : SparseRailGen) : bool :=
  match seed g with
  | Some s => seed_in_range s
  | None => true
  end.

(** The generator used by [generate]: [RandomState(self.seed)] when a seed
    was given, else the caller's [np_random], else one seeded from numpy's
    global generator ([np.random.randint(2**32)] is always a valid seed). *)
Definition init_np_random (g : SparseRailGen) (np_random : option RS) (global_rs : RS) : result RS :=
  match seed g with
  | Some s => if seed_in_range s then Ok (RandomState s) else Raise (ValueError seed_error_msg)
  | None =>
      match np_random with
      | Some r => Ok r
      | None => Ok (RandomState (fst (rs_randint global_rs 0 (2 ^ 32))))
      end
  end.

(** The map drawn once the cities are placed (source lines 168-194). *)
Definition build_map (g : SparseRailGen) (width height : Z) (grid_map : GridMap)
           (city_positions : list cell) (ws : list warning) (st : RS)
  : result (GridMap * agents_hints * list warning) :=
  let vector_field : vfield := fun _ _ => -1 in
  '(inner_connection_points, outer_connection_points, city_orientations, city_cells, vf, _) <-
    generate_city_connection_points (grid_mode g) height width city_positions (city_radius g)
      vector_field (rail_pairs_in_city g) st ;;
  '(inter_city_lines, gm1, ws2) <-
    connect_cities connect_rail_in_grid_map city_positions outer_connection_points city_cells grid_map ;;
  '(free_rails, gm2) <-
    build_inner_cities city_positions inner_connection_points outer_connection_points gm1 ;;
  train_stations <- set_trainstation_positions city_positions (city_radius g) free_rails ;;
  gm3 <- fix_all_transitions height width city_cells inter_city_lines gm2 vf ;;
  Ok (gm3, (city_positions, train_stations, city_orientations), ws ++ ws2).

Definition generate (g : SparseRailGen) (width height num_agents num_resets : Z)
           (np_random : option RS) (global_rs : RS) (fuel : nat)
  : option (result (GridMap * agents_hints * list warning)) :=
  match init_np_random g np_random global_rs with
  | Raise e => Some (Raise e)
  | Ok np_random0 =>
  let grid_map := GridTransitionMap width height in
  (* [GridTransitionMap(...)] and [np.zeros(shape=(height, width))] *)
  if (height <? 0) || (width <? 0) then
    Some (Raise (ValueError "negative dimensions are not allowed"%string))
  else if max_feasible_cities g width height <? 2 then Some (Raise (ValueError infeasible_msg))
  else
    match place_cities g (max_feasible_cities g width height) (city_radius g) width height fuel np_random0 with
    | None => None
    | Some (Raise e) => Some (Raise e)
    | Some (Ok (city_positions, ws, st)) => Some (build_map g width height grid_map city_positions ws st)
    end
  end.

End SparseRailGenModel.

(** * [ParamMalfunctionGen.generate] (malfunction_generators.py)

    The floats of the source are rationals here; [np.exp] is opaque.  The
    agent's [get_travel_time_on_shortest_path] is flatland's
    [int(np.ceil(len(path) / speed))], a natural number. *)
Module Malfunction.

Record EnvAgent : Type := mkEnvAgent {
  position : option cell;
  initial_position : option cell
}.

Definition option_cell_eqb (a b : option cell) : bool :=
  match a, b with
  | None, None => true
  | Some x, Some y => cell_eqb x y
  | _, _ => false
  end.

Section ParamMalfunctionGen.

Context {RS : Type}.
(** [np_random.random_sample(3)] *)
Variable random_sample3 : RS -> (Q * Q * Q) * RS.
Variable np_exp : Q -> Q.
Context {DistanceMap : Type}.
Variable get_travel_time_on_shortest_path : EnvAgent -> DistanceMap -> nat.

Local Open Scope Q_scope.

(** [a < b] on floats *)
Definition Qlt_bool (a b : Q) : bool := negb (Qle_bool b a).

Definition cum_prob (param : Q) (i : Z) : Q :=
  (1 - np_exp (- param * inject_Z (i + 1))) / (1 - np_exp (- param * inject_Z 50)).

(** [num_broken_steps = 2; for i in range(49): if cum[i] < r < cum[i+1]:
    num_broken_steps = i + 2; break] *)
Fixpoint delay_search (param r : Q) (idxs : list Z) : Z :=
  match idxs with
  | [] => 2
  | i :: rest =>
      if Qlt_bool (cum_prob param i) r && Qlt_bool r (cum_prob param (i + 1)) then (i + 2)%Z
      else delay_search param r rest
  end.

(** [Malfunction(num_broken_steps)] with the generator state after the draw *)
Definition generate (distance_map : DistanceMap) (np_random : RS) (agent : EnvAgent) : Z * RS :=
  let '((r0, r1, r2), st) := random_sample3 np_random in
  let '(malfunction_prob, expected_delay) :=
    if option_cell_eqb (position agent) (initial_position agent) then
      if Qle_bool 0 r0 && Qle_bool r0 (48 # 100) then (5 # 100, 2 # 10)
      else if Qlt_bool (48 # 100) r0 && Qle_bool r0 (8 # 10) then (5 # 100, 5 # 10)
      else (5 # 100, 1)
    else
      let tt := inject_Z (Z.of_nat (get_travel_time_on_shortest_path agent distance_map) + 1) in
      if Qle_bool 0 r0 && Qle_bool r0 (48 # 100) then ((2 # 10) / tt, 13 # 10)
      else if Qlt_bool (48 # 100) r0 && Qle_bool r0 (8 # 10) then ((5 # 10) / tt, 2)
      else ((5 # 10) / tt, 5) in
  let num_broken_steps :=
    match position agent with
    | None => 0%Z
    | Some _ =>
        if Qlt_bool r1 malfunction_prob then
          let param := 1 / (10 * expected_delay) in
          delay_search param r2 (zrange 0 49)
        else 0%Z
    end in
  (num_broken_steps, st).

End ParamMalfunctionGen.
End Malfunction.

(** * The other malfunction generators (malfunction_generators.py) *)
Module MalfunctionGenerators.
Import Malfunction.

(** [MalfunctionParameters] / [MalfunctionProcessData] *)
Record MalfunctionParameters : Type := mkMalfunctionParameters {
  malfunction_rate : Q;
  min_duration : Z;
  max_duration : Z
}.

(** flatland's [TrainState] *)
Inductive TrainState : Type :=
| WAITING | READY_TO_DEPART | MALFUNCTION_OFF_MAP | MOVING | STOPPED | MALFUNCTION | DONE.

Definition is_moving_or_stopped (s : TrainState) : bool :=
  match s with MOVING | STOPPED => true | _ => false end.

(** [ParamMalfunctionGen(parameters)]: the object keeps [self.MFP] *)
Record ParamMalfunctionGen : Type := mkParamMalfunctionGen { MFP : MalfunctionParameters }.

(** [get_process_data]: [MalfunctionProcessData( *self.MFP)] *)
Definition get_process_data (self : ParamMalfunctionGen) : MalfunctionParameters := MFP self.

(** [NoMalfunctionGen()]: [ParamMalfunctionGen(MalfunctionParameters(0, 0, 0))] *)
Definition NoMalfunctionGen : ParamMalfunctionGen :=
  mkParamMalfunctionGen (mkMalfunctionParameters 0 0 0).

(** [FileMalfunctionGen(env_dict)], given [env_dict.get('malfunction')] *)
Definition FileMalfunctionGen (malfunction_entry : option MalfunctionParameters) : ParamMalfunctionGen :=
  match malfunction_entry with
  | Some m => mkParamMalfunctionGen m
  | None => mkParamMalfunctionGen (mkMalfunctionParameters 0 0 0)
  end.

(** the agent of [single_malfunction_generator]: its handle and state *)
Record SAgent : Type := mkSAgent { handle : Z; train_state : TrainState }.

(** the closure's [nonlocal] variables; the dict [malfunction_calls] as its
    lookup function *)
Record SState : Type := mkSState {
  global_nr_malfunctions : Z;
  malfunction_calls : Z -> option Z
}.

Definition SState_init : SState := mkSState 0 (fun _ => None).

(** one call [generator(agent, np_random, reset)] of
    [single_malfunction_generator(earlierst_malfunction, malfunction_duration)] *)
Definition single_malfunction_step (earlierst_malfunction malfunction_duration : Z)
           (s : SState) (agent : SAgent) (reset : bool) : Z * SState :=
  if reset then (0, SState_init)
  else if 0 <? global_nr_malfunctions s then (0, s)
  else
    let calls := match malfunction_calls s (handle agent) with Some n => n + 1 | None => 1 end in
    let malfunction_calls' :=
      fun h => if h =? handle agent then Some calls else malfunction_calls s h in
    if is_moving_or_stopped (train_state agent) && (earlierst_malfunction <=? calls) then
      (malfunction_duration, mkSState (global_nr_malfunctions s + 1) malfunction_calls')
    else (0, mkSState (global_nr_malfunctions s) malfunction_calls').

(** a sequence of calls on one generator: the returned durations *)
Fixpoint single_malfunction_run (earlierst_malfunction malfunction_duration : Z) (s : SState)
         (calls : list (SAgent * bool)) : list Z :=
  match calls with
  | [] => []
  | (agent, reset) :: rest =>
      let '(n, s') := single_malfunction_step earlierst_malfunction malfunction_duration s agent reset in
      n :: single_malfunction_run earlierst_malfunction malfunction_duration s' rest
  end.

Section Generators.

Context {RS : Type}.
Variable random_sample3 : RS -> (Q * Q * Q) * RS.
(** [np_random.rand()] *)
Variable rand : RS -> Q * RS.
Variable rs_randint : RS -> Z -> Z -> Z * RS.
Variable np_exp : Q -> Q.
Context {DistanceMap : Type}.
Variable get_travel_time_on_shortest_path : EnvAgent -> DistanceMap -> nat.

Local Open Scope Q_scope.

(** [ParamMalfunctionGen.generate]: [self] is not read *)
Definition ParamMalfunctionGen_generate (self : ParamMalfunctionGen) (distance_map : DistanceMap)
           (np_random : RS) (agent : EnvAgent) : Z * RS :=
  generate random_sample3 np_exp get_travel_time_on_shortest_path distance_map np_random agent.

(** [TestMalfunctionGen.generate] *)
Definition TestMalfunctionGen_generate (distance_map : DistanceMap) (np_random : RS)
           (agent : EnvAgent) : Z * RS :=
  let malfunction_prob := (2 # 10) / 15 in
  let expected_delay := 2 in
  match position agent with
  | None => (0%Z, np_random)
  | Some _ =>
      let '(x, st1) := rand np_random in
      if Qlt_bool x malfunction_prob then
        let param := 1 / (10 * expected_delay) in
        let '(random_number, st2) := rand st1 in
        (delay_search np_exp param random_number (zrange 0 49), st2)
      else (0%Z, st1)
  end.

(** [_malfunction_prob(rate)] *)
Definition malfunction_prob (rate : Q) : Q :=
  if Qle_bool rate 0 then 0 else 1 - np_exp (- rate).

(** the generator of [malfunction_from_params(parameters)] *)
Definition from_params_generator (parameters : MalfunctionParameters) (np_random : RS) (reset : bool)
  : result (Z * RS) :=
  if reset then Ok (0%Z, np_random)
  else
    let '(x, st1) := rand np_random in
    if Qlt_bool x (malfunction_prob (malfunction_rate parameters)) then
      randint rs_randint st1 (min_duration parameters) (max_duration parameters + 1)
    else Ok (0%Z, st1).

(** the generator of [malfunction_from_file(filename)], given the file's
    [env_dict.get('malfunction')] and the agent's
    [malfunction_handler.malfunction_down_counter] *)
Definition from_file_generator (malfunction_entry : option MalfunctionParameters)
           (malfunction_down_counter : Z) (np_random : RS) (reset : bool) : result (Z * RS) :=
  let '(mean_malfunction_rate, min_number_of_steps_broken, max_number_of_steps_broken) :=
    match malfunction_entry with
    | Some m => (malfunction_rate m, min_duration m, max_duration m)
    | None => (0, 0%Z, 0%Z)
    end in
  if reset then Ok (0%Z, np_random)
  else if (malfunction_down_counter <? 1)%Z then
    let '(x, st1) := rand np_random in
    if Qlt_bool x (malfunction_prob mean_malfunction_rate) then
      '(n, st2) <- randint rs_randint st1 min_number_of_steps_broken (max_number_of_steps_broken + 1) ;;
      Ok ((n + 1)%Z, st2)
    else Ok (0%Z, st1)
  else Ok (0%Z, np_random).

End Generators.
End MalfunctionGenerators.

(** * The line generators (line_generators.py)

    They turn the hints of the rail generator ([city_positions],
    [train_stations], [city_orientations]) into the agents' start cells,
    directions, targets and speeds. *)
Module LineGenerators.

(** [Line(agent_positions, agent_directions, agent_targets, agent_speeds)];
    a direction is an [int] in [SparseLineGen] and may be [None] in the
    other two generators. *)
Record Line (D : Type) : Type := mkLine {
  agent_positions : list cell;
  agent_directions : list D;
  agent_targets : list cell;
  agent_speeds : list Q }.
Arguments mkLine {D}.
Arguments agent_positions {D}.
Arguments agent_directions {D}.
Arguments agent_targets {D}.
Arguments agent_speeds {D}.

(** [BaseLineGen(speed_ratio_map, seed)]; the map as the list of its items,
    in order, [None] for [speed_ratio_map=None]. *)
Record BaseLineGen : Type := mkBaseLineGen {
  speed_ratio_map : option (list (Q * Q));
  seed : Z }.

(** [if self.speed_ratio_map:]: [None] and the empty dict are false *)
Definition truthy_map (m : option (list (Q * Q))) : bool :=
  match m with Some (_ :: _) => true | _ => false end.

(** [list(map(lambda index: l[index], idxs))] *)
Fixpoint map_py_index {A} (l : list A) (idxs : list Z) : result (list A) :=
  match idxs with
  | [] => Ok []
  | i :: rest => x <- py_index l i ;; xs <- map_py_index l rest ;; Ok (x :: xs)
  end.

(** [city_orientation[c] == 0 or city_orientation[c] == 2] *)
Definition orient_0_or_2 (o : Z) : bool := (o =? 0) || (o =? 2).
(** [city_orientation[c] == 1 or city_orientation[c] == 3] *)
Definition orient_1_or_3 (o : Z) : bool := (o =? 1) || (o =? 3).

(** the [city_radius] of [SparseLineGen.generate] *)
Definition line_city_radius (nb_cities : Z) : Z :=
  if (0 <=? nb_cities) && (nb_cities <? 5) then 4
  else if (5 <=? nb_cities) && (nb_cities <? 9) then 5
  else 6.

(** the locals of the loop of [SparseLineGen.generate]; an index local is
    [None] while unbound *)
Record sl_locals : Type := mk_sl_locals {
  city1 : option Z;
  city2 : option Z;
  city1_possible_orientations : option (list Z);
  city2_possible_orientations : option (list Z);
  agent_start_idx : option Z;
  next_agent_target_idx : option Z;
  agent_target_idx : option Z;
  next_agent_start_idx : option Z;
  agents_position : list cell;
  agents_target : list cell;
  agents_direction : list Z }.

Definition sl_locals_init : sl_locals :=
  mk_sl_locals None None None None None None None None [] [] [].

(** [CustomLineGen.decide_orientation]: it reads neither [rail],
    [possible_orientations] nor [np_random], and falls through to [None]. *)
Definition CustomLineGen_decide_orientation (start target : cell * Z) : option Z :=
  if snd (fst start) <? 23 then Some 1
  else if 102 <? snd (fst start) then Some 3
  else if fst (fst start) =? 7 then Some 3
  else if snd (fst target) <? 23 then Some 3
  else if 102 <? snd (fst target) then Some 1
  else None.

Definition in_range (x a b : Z) : bool := (a <=? x) && (x <? b).

(** [agent_start, agent_target] of agent [agent_idx] in
    [CustomLineGen.generate]; Python's [%] puts [agent_idx % 50] in
    [[0, 50)], so the last test [in range(48, 50)] holds in the last branch. *)
Definition custom_agent_trip (agent_idx : Z) : (cell * Z) * (cell * Z) :=
  let r := agent_idx mod 50 in
  let even := agent_idx mod 2 =? 0 in
  if in_range r 0 16 then
    if even then (((12, 61), 3), ((7, 109), 0)) else (((7, 109), 0), ((12, 61), 3))
  else if in_range r 16 24 then
    if even then (((7, 61), 0), ((13, 13), 3)) else (((13, 13), 3), ((7, 61), 0))
  else if in_range r 24 28 then
    if even then (((9, 15), 1), ((7, 61), 0)) else (((7, 61), 0), ((8, 15), 0))
  else if in_range r 28 36 then
    if even then (((9, 67), 2), ((9, 109), 2)) else (((8, 109), 1), ((8, 67), 1))
  else if in_range r 36 40 then
    if even then (((13, 13), 3), ((9, 109), 2)) else (((8, 109), 1), ((13, 13), 3))
  else if in_range r 40 46 then
    if even then (((9, 15), 1), ((9, 109), 2)) else (((8, 109), 1), ((8, 15), 0))
  else if in_range r 46 48 then
    if even then (((13, 13), 3), ((9, 109), 2)) else (((8, 109), 1), ((13, 13), 3))
  else
    if even then (((9, 15), 1), ((9, 109), 2)) else (((8, 109), 1), ((8, 15), 0)).

(** [TestLineGen.decide_orientation]: it falls through to [None]. *)
Definition TestLineGen_decide_orientation (start target : cell * Z) : option Z :=
  if snd (fst start) =? 1 then Some 1
  else if snd (fst start) =? 16 then Some 3
  else None.

(** [agent_start, agent_target] of agent [agent_idx] in [TestLineGen.generate] *)
Definition test_agent_trip (agent_idx : Z) : (cell * Z) * (cell * Z) :=
  if agent_idx mod 2 =? 1 then (((5, 1), 0), ((5, 16), 0))
  else (((4, 16), 0), ((4, 1), 0)).

Section LineGen.

(** numpy's [RandomState] and the grid, opaque as in the rail generator *)
Context {RS : Type} {Rail : Type}.
Variable rs_randint : RS -> Z -> Z -> Z * RS.
(** [np_random.choice(n, 2, replace=False)] for [n >= 2] *)
Variable rs_choice2 : RS -> Z -> (Z * Z) * RS.
(** [np_random.choice(l)] for a non-empty list [l] *)
Variable rs_choice_list : RS -> list Z -> Z * RS.
(** [np_random.choice(nb_classes, nb_agents, p=speed_ratios)]: numpy checks
    [p] and may raise *)
Variable rs_choice_p : RS -> Z -> Z -> list Q -> result (list Z * RS).
(** [rail.check_path_exists(start, direction, target)] *)
Variable check_path_exists : Rail -> cell -> Z -> cell -> bool.

(** [speed_initialization_helper(nb_agents, speed_ratio_map, seed, np_random)];
    [seed] is not read. *)
Definition speed_initialization_helper (nb_agents : Z) (speed_ratio_map : option (list (Q * Q)))
           (np_random : RS) : result (list Q * RS) :=
  match speed_ratio_map with
  | None => Ok (repeat 1%Q (Z.to_nat nb_agents), np_random)
  | Some m =>
      let nb_classes := Z.of_nat (length m) in
      let speed_ratios := map snd m in
      let speeds := map fst m in
      '(idxs, st) <- rs_choice_p np_random nb_classes nb_agents speed_ratios ;;
      l <- map_py_index speeds idxs ;;
      Ok (l, st)
  end.

(** The lines after the agent loop, the same in the three generators: the
    speeds, and [max_episode_steps], whose [num_agents / len(city_positions)]
    raises on a map without cities (the value itself is not returned). *)
Definition line_tail {D} (self : BaseLineGen) (num_agents : Z) (city_positions : list cell)
           (agents_position agents_target : list cell) (agents_direction : list D) (np_random : RS)
  : result (Line D * RS) :=
  '(speeds, st) <-
    (if truthy_map (speed_ratio_map self)
     then speed_initialization_helper num_agents (speed_ratio_map self) np_random
     else Ok (repeat 1%Q (length agents_position), np_random)) ;;
  if (length city_positions =? 0)%nat then Raise ZeroDivisionError
  else Ok (mkLine agents_position agents_direction agents_target speeds, st).

(** [SparseLineGen.decide_orientation] *)
Definition decide_orientation (rail : Rail) (start target : cell * Z) (possible_orientations : list Z)
           (np_random : RS) : Z * RS :=
  let feasible_orientations :=
    filter (fun orientation => check_path_exists rail (fst start) orientation (fst target))
      possible_orientations in
  if (0 <? length feasible_orientations)%nat then rs_choice_list np_random feasible_orientations
  else (0, np_random).

(** [np_random.choice(n, 2, replace=False)] with numpy's checks *)
Definition choice_two (np_random : RS) (n : Z) : result ((Z * Z) * RS) :=
  if n <=? 0 then Raise (ValueError "a must be greater than 0 unless no samples are taken"%string)
  else if n <? 2 then
    Raise (ValueError "Cannot take a larger sample than population when 'replace=False'"%string)
  else Ok (rs_choice2 np_random n).

(** two station indices drawn one after the other, each
    [np_random.randint(0, half)], the upper half adding [half]; numpy's
    [randint] truncates the float bound [city2_num_stations/2] to
    [city2_num_stations//2]. *)
Definition draw_pair (st : RS) (half : Z) (first_upper second_upper : bool) : result (Z * Z * RS) :=
  '(a, st1) <- randint rs_randint st 0 half ;;
  '(b, st2) <- randint rs_randint st1 0 half ;;
  Ok (if first_upper then a + half else a, if second_upper then b + half else b, st2).

(** the branches of [SparseLineGen.generate] (source lines 125-186) that set
    [agent_start_idx], [next_agent_target_idx], [agent_target_idx] and
    [next_agent_start_idx]; [h1], [h2] are [city1_num_stations//2] and
    [city2_num_stations//2], [p1], [p2] the two city centres.  A local no
    branch assigns keeps its value. *)
Definition station_indices (city_radius o1 o2 : Z) (p1 p2 : cell) (h1 h2 : Z)
           (asi nati ati nasi : option Z) (st : RS)
  : result (option Z * option Z * option Z * option Z * RS) :=
  if orient_0_or_2 o1 then
    '(asi, nati, ati, nasi, st) <-
      (if fst p2 - fst p1 >? 0 then
         '(a, b, st) <- draw_pair st h1 false true ;;
         if orient_0_or_2 o2 then
           if fst p2 - fst p1 >? city_radius + 1 then
             '(c, d, st) <- draw_pair st h2 false true ;; Ok (Some a, Some b, Some c, Some d, st)
           else
             '(c, d, st) <- draw_pair st h2 true false ;; Ok (Some a, Some b, Some c, Some d, st)
         else Ok (Some a, Some b, ati, nasi, st)
       else
         '(a, b, st) <- draw_pair st h1 true false ;;
         if orient_0_or_2 o2 then
           if fst p2 - fst p1 <? - city_radius - 1 then
             '(c, d, st) <- draw_pair st h2 true false ;; Ok (Some a, Some b, Some c, Some d, st)
           else
             '(c, d, st) <- draw_pair st h2 false true ;; Ok (Some a, Some b, Some c, Some d, st)
         else Ok (Some a, Some b, ati, nasi, st)) ;;
    if orient_1_or_3 o2 then
      if snd p2 - snd p1 >? 0 then
        '(c, d, st) <- draw_pair st h2 true false ;; Ok (asi, nati, Some c, Some d, st)
      else
        '(c, d, st) <- draw_pair st h2 false true ;; Ok (asi, nati, Some c, Some d, st)
    else Ok (asi, nati, ati, nasi, st)
  else
    '(asi, nati, ati, nasi, st) <-
      (if snd p2 - snd p1 >? 0 then
         '(a, b, st) <- draw_pair st h1 true false ;;
         if orient_1_or_3 o2 then
           if snd p2 - snd p1 >? city_radius + 1 then
             '(c, d, st) <- draw_pair st h2 true false ;; Ok (Some a, Some b, Some c, Some d, st)
           else
             '(c, d, st) <- draw_pair st h2 false true ;; Ok (Some a, Some b, Some c, Some d, st)
         else Ok (Some a, Some b, ati, nasi, st)
       else
         '(a, b, st) <- draw_pair st h1 false true ;;
         if orient_1_or_3 o2 then
           if snd p2 - snd p1 <? - city_radius - 1 then
             '(c, d, st) <- draw_pair st h2 false true ;; Ok (Some a, Some b, Some c, Some d, st)
           else
             '(c, d, st) <- draw_pair st h2 true false ;; Ok (Some a, Some b, Some c, Some d, st)
         else Ok (Some a, Some b, ati, nasi, st)) ;;
    if orient_0_or_2 o2 then
      if fst p2 - fst p1 >? 0 then
        '(c, d, st) <- draw_pair st h2 false true ;; Ok (asi, nati, Some c, Some d, st)
      else
        '(c, d, st) <- draw_pair st h2 true false ;; Ok (asi, nati, Some c, Some d, st)
    else Ok (asi, nati, ati, nasi, st).

(** an even [agent_idx]: two cities drawn, agent from [city1] to [city2].
    The lookups [city_positions[city2]], [city_positions[city1]] come first
    in every branch, before any draw. *)
Definition sparse_even_step (rail : Rail) (hints : agents_hints) (city_radius : Z)
           (L : sl_locals) (st : RS) : result (sl_locals * RS) :=
  let '(city_positions, train_stations, city_orientation) := hints in
  '((c1, c2), st) <- choice_two st (Z.of_nat (length city_positions)) ;;
  ts1 <- py_index train_stations c1 ;;
  ts2 <- py_index train_stations c2 ;;
  let city1_num_stations := Z.of_nat (length ts1) in
  let city2_num_stations := Z.of_nat (length ts2) in
  o1 <- py_index city_orientation c1 ;;
  o2 <- py_index city_orientation c2 ;;
  let ors1 := [o1; (o1 + 2) mod 4] in
  let ors2 := [o2; (o2 + 2) mod 4] in
  p2 <- py_index city_positions c2 ;;
  p1 <- py_index city_positions c1 ;;
  '(asi, nati, ati, nasi, st) <-
    station_indices city_radius o1 o2 p1 p2 (city1_num_stations / 2) (city2_num_stations / 2)
      (agent_start_idx L) (next_agent_target_idx L) (agent_target_idx L) (next_agent_start_idx L) st ;;
  i <- get_local asi ;;
  agent_start <- py_index ts1 i ;;
  j <- get_local ati ;;
  agent_target <- py_index ts2 j ;;
  let '(agent_orientation, st) := decide_orientation rail agent_start agent_target ors1 st in
  Ok (mk_sl_locals (Some c1) (Some c2) (Some ors1) (Some ors2) asi nati ati nasi
        (agents_position L ++ [fst agent_start]) (agents_target L ++ [fst agent_target])
        (agents_direction L ++ [agent_orientation]), st).

(** an odd [agent_idx]: the way back, from [city2] to [city1].  [city1],
    [city2] and [city2_possible_orientations] start as [None] and are set by
    the even step that always comes before. *)
Definition sparse_odd_step (rail : Rail) (hints : agents_hints) (L : sl_locals) (st : RS)
  : result (sl_locals * RS) :=
  let '(city_positions, train_stations, city_orientation) := hints in
  i <- get_local (next_agent_start_idx L) ;;
  j <- get_local (next_agent_target_idx L) ;;
  c1 <- get_local (city1 L) ;;
  c2 <- get_local (city2 L) ;;
  ors2 <- get_local (city2_possible_orientations L) ;;
  ts2 <- py_index train_stations c2 ;;
  agent_start <- py_index ts2 i ;;
  ts1 <- py_index train_stations c1 ;;
  agent_target <- py_index ts1 j ;;
  let '(agent_orientation, st) := decide_orientation rail agent_start agent_target ors2 st in
  Ok (mk_sl_locals (city1 L) (city2 L) (city1_possible_orientations L) (city2_possible_orientations L)
        (Some i) (next_agent_target_idx L) (Some j) (next_agent_start_idx L)
        (agents_position L ++ [fst agent_start]) (agents_target L ++ [fst agent_target])
        (agents_direction L ++ [agent_orientation]), st).

(** [for agent_idx in range(num_agents): ...] *)
Fixpoint sparse_line_loop (rail : Rail) (hints : agents_hints) (city_radius : Z) (idxs : list Z)
         (L : sl_locals) (st : RS) : result (sl_locals * RS) :=
  match idxs with
  | [] => Ok (L, st)
  | agent_idx :: rest =>
      '(L, st) <-
        (if agent_idx mod 2 =? 0 then sparse_even_step rail hints city_radius L st
         else sparse_odd_step rail hints L st) ;;
      sparse_line_loop rail hints city_radius rest L st
  end.

(** [SparseLineGen.generate]; [_runtime_seed] only reaches
    [speed_initialization_helper], which does not read it.  The generator
    is returned with the result: the caller's [np_random] is advanced. *)
Definition SparseLineGen_generate (self : BaseLineGen) (rail : Rail) (num_agents : Z)
           (hints : agents_hints) (num_resets : Z) (np_random : RS) : result (Line Z * RS) :=
  let '(city_positions, train_stations, city_orientation) := hints in
  let city_radius := line_city_radius (Z.of_nat (length city_positions)) in
  '(L, st) <- sparse_line_loop rail hints city_radius (zrange 0 num_agents) sl_locals_init np_random ;;
  line_tail self num_agents city_positions (agents_position L) (agents_target L) (agents_direction L) st.

(** [CustomLineGen.generate]: the loop draws nothing, it is a [map] over
    [range(num_agents)]. *)
Definition CustomLineGen_generate (self : BaseLineGen) (rail : Rail) (num_agents : Z)
           (hints : agents_hints) (num_resets : Z) (np_random : RS) : result (Line (option Z) * RS) :=
  let '(city_positions, train_stations, city_orientation) := hints in
  let trips := map custom_agent_trip (zrange 0 num_agents) in
  line_tail self num_agents city_positions
    (map (fun t => fst (fst t)) trips) (map (fun t => fst (snd t)) trips)
    (map (fun t => CustomLineGen_decide_orientation (fst t) (snd t)) trips) np_random.

(** [TestLineGen.generate] *)
Definition TestLineGen_generate (self : BaseLineGen) (rail : Rail) (num_agents : Z)
           (hints : agents_hints) (num_resets : Z) (np_random : RS) : result (Line (option Z) * RS) :=
  let '(city_positions, train_stations, city_orientation) := hints in
  let trips := map test_agent_trip (zrange 0 num_agents) in
  line_tail self num_agents city_positions
    (map (fun t => fst (fst t)) trips) (map (fun t => fst (snd t)) trips)
    (map (fun t => TestLineGen_decide_orientation (fst t) (snd t)) trips) np_random.

End LineGen.

(** ** Reading the results *)

(** the cells of the stations of city [c] *)
Definition station_cells (train_stations : list (list (cell * Z))) (c : Z) : list cell :=
  map fst (nth (Z.to_nat c) train_stations []).

(** a direction of an agent that starts in city [c]: the city's orientation,
    its opposite, or the [0] of [decide_orientation] when neither has a path *)
Definition start_direction_ok (city_orientation : list Z) (c dir : Z) : Prop :=
  dir = 0 \/
  exists o, nth_error city_orientation (Z.to_nat c) = Some o /\ (dir = o \/ dir = (o + 2) mod 4).

(** an agent that starts at a station of city [a] and targets a station of
    city [b] *)
Definition trip (hints : agents_hints) (a b : Z) (start target : cell) (dir : Z) : Prop :=
  let '(_, train_stations, city_orientation) := hints in
  In start (station_cells train_stations a) /\ In target (station_cells train_stations b) /\
  start_direction_ok city_orientation a dir.

(** agents [2k] and [2k + 1] of a line of [n] agents: the first goes from
    city [c1] to another city [c2], the second, if there is one, goes back *)
Definition paired_agents (hints : agents_hints) (n k : nat) (pos tgt : list cell) (dirs : list Z)
  : Prop :=
  let '(city_positions, _, _) := hints in
  exists c1 c2,
    c1 <> c2 /\ 0 <= c1 < Z.of_nat (length city_positions) /\
    0 <= c2 < Z.of_nat (length city_positions) /\
    trip hints c1 c2 (nth (2 * k) pos (0, 0)) (nth (2 * k) tgt (0, 0)) (nth (2 * k) dirs 0) /\
    ((2 * k + 1 < n)%nat ->
     trip hints c2 c1 (nth (2 * k + 1) pos (0, 0)) (nth (2 * k + 1) tgt (0, 0))
       (nth (2 * k + 1) dirs 0)).

(** the state of the loop of [SparseLineGen.generate] after [m] agents:
    the pairs so far, and for odd [m] the open pair with its cities *)
Definition sparse_loop_inv (hints : agents_hints) (m : nat) (L : sl_locals) : Prop :=
  let '(city_positions, _, city_orientation) := hints in
  length (agents_position L) = m /\ length (agents_target L) = m /\
  length (agents_direction L) = m /\
  (forall k, (2 * k + 1 < m)%nat ->
     paired_agents hints m k (agents_position L) (agents_target L) (agents_direction L)) /\
  (Z.of_nat m mod 2 = 1 ->
   exists c1 c2 o2,
     city1 L = Some c1 /\ city2 L = Some c2 /\
     city2_possible_orientations L = Some [o2; (o2 + 2) mod 4] /\
     nth_error city_orientation (Z.to_nat c2) = Some o2 /\
     c1 <> c2 /\ 0 <= c1 < Z.of_nat (length city_positions) /\
     0 <= c2 < Z.of_nat (length city_positions) /\
     trip hints c1 c2 (nth (m - 1) (agents_position L) (0, 0)) (nth (m - 1) (agents_target L) (0, 0))
       (nth (m - 1) (agents_direction L) 0)).

(** what the odd step needs after an even one: the cities and the drawn
    indices of the way back, inside the station lists *)
Definition sparse_loop_ready (hints : agents_hints) (m : nat) (L : sl_locals) : Prop :=
  let '(_, train_stations, _) := hints in
  length (agents_position L) = m /\ length (agents_target L) = m /\
  length (agents_direction L) = m /\
  (Z.of_nat m mod 2 = 1 ->
   exists c1 c2 ors2 i j,
     city1 L = Some c1 /\ city2 L = Some c2 /\ city2_possible_orientations L = Some ors2 /\
     next_agent_start_idx L = Some i /\ next_agent_target_idx L = Some j /\
     0 <= c1 < Z.of_nat (length train_stations) /\ 0 <= c2 < Z.of_nat (length train_stations) /\
     0 <= i < Z.of_nat (length (nth (Z.to_nat c2) train_stations [])) /\
     0 <= j < Z.of_nat (length (nth (Z.to_nat c1) train_stations []))).

End LineGenerators.

(** * Reading the results *)

(** the station that [_set_trainstation_positions] picks on track [k] of [rails] *)
Definition track_station (rails : list (list cell)) (track_nbr : Z) : cell * Z :=
  let track := nth (Z.to_nat track_nbr) rails [] in
  (nth (length track / 2) track (0, 0), track_nbr).

(** a result that is not the error [generate] raises for an infeasible
    configuration *)
Definition not_infeasible {A} (r : result A) : Prop :=
  match r with Raise (ValueError m) => m <> infeasible_msg | _ => True end.

Definition not_infeasible_opt {A} (o : option (result A)) : Prop :=
  match o with Some r => not_infeasible r | None => True end.

(** the sides of one city as [_generate_city_connection_points] leaves them *)
Definition sides_ok (rp d : Z) (sides : list (list cell)) : Prop :=
  0 <= d < 4 /\ length sides = 4%nat /\
  exists nr, 2 <= nr <= 2 * rp /\ Z.even nr = true /\
    forall s, 0 <= s < 4 ->
      Z.of_nat (length (nth (Z.to_nat s) sides [])) =
        (if (s =? d) || (s =? (d + 2) mod 4) then nr else 0).

(** the locals of [_connect_cities] that decide its control flow: all but
    the drawn paths, the grid and the warnings *)
Definition cc_skeleton {G : Type} (L : @cc_locals G) :=
  (set_of_connections L, loop_i L, neighbour_connection_point L, current_direction L,
   neighbour_index_for_connection L, possible_connection L, city_direction L,
   next_neighbour_connection_point L, last_city_out_connection_point L).

(** two computations that raise the same exception, or both succeed with
    related values *)
Definition same_outcome {A B} (R : A -> B -> Prop) (r1 : result A) (r2 : result B) : Prop :=
  match r1, r2 with
  | Ok a, Ok b => R a b
  | Raise e1, Raise e2 => e1 = e2
  | _, _ => False
  end.

(** the Chebyshev distance [max(|row1 - row2|, |col1 - col2|)] of two cells *)
Definition chebyshev (a b : cell) : Z :=
  Z.max (Z.abs (fst a - fst b)) (Z.abs (snd a - snd b)).

(** every two distinct entries of a list of city centres are at least [d]
    apart in the Chebyshev distance *)
Definition separated (d : Z) (l : list cell) : Prop :=
  forall i j a b, i <> j -> nth_error l i = Some a -> nth_error l j = Some b -> d <= chebyshev a b.

(** the rows of [contains_cliques]'s [sort_index] for four cities, up to the
    order of the three nearest: [far k] is the city farthest from city [k] *)
Definition clique_rows (far : nat -> nat) : list (list nat) :=
  map (fun k => filter (fun j => negb (Nat.eqb j (far k))) (seq 0 4) ++ [far k]) (seq 0 4).

(** * A concrete instance

    A linear congruential generator in place of numpy's [RandomState], and a
    grid that only counts the routed lines; the examples below run the model
    on them. *)
Module Examples.

Definition lcg_randint (s low high : Z) : Z * Z :=
  (low + s mod (high - low), (s * 1103515245 + 12345) mod 2147483648).

Definition lcg_RandomState (s : Z) : Z := s.

Definition ex_align_cell_to_city (_ : cell) (_ : Z) (_ : cell) : Z := 0.

Definition ex_GridTransitionMap (_ _ : Z) : nat := 0%nat.

(** a router that draws the straight segment from start to goal *)
Definition ex_connect_rail (gm : nat) (start goal : cell) (_ : list cell) : list cell * nat :=
  ([start; goal], S gm).

Definition ex_connect_straight_line (gm : nat) (start goal : cell) : list cell * nat :=
  ([start; goal], gm).

Definition ex_fix_inner_nodes (gm : nat) (_ : cell) : nat := gm.

Definition ex_cell_neighbours_valid (_ : nat) (_ : cell) : bool := true.

Definition ex_fix_transitions (gm : nat) (_ : cell) (_ : Z) : nat := gm.

Definition ex_generate (g : SparseRailGen) (width height : Z) (fuel : nat) :=
  generate lcg_randint lcg_RandomState ex_align_cell_to_city ex_GridTransitionMap ex_connect_rail
    ex_connect_straight_line ex_fix_inner_nodes ex_cell_neighbours_valid ex_fix_transitions
    g width height 3 0 None 0 fuel.

(** a seeded configuration in random mode *)
Definition ex_config : SparseRailGen := mkSparseRailGen 4 false 2 2 (Some 1).

(** numpy's [choice] for the line generators: the cities [1] and [0], the
    first feasible orientation, the first speed class *)
Definition ex_choice2 (s n : Z) : (Z * Z) * Z := ((1, 0), s + 1).

Definition ex_choice_list (s : Z) (l : list Z) : Z * Z := (hd 0 l, s + 1).

Definition ex_choice_p (s nb_classes nb_agents : Z) (_ : list Q) : result (list Z * Z) :=
  Ok (repeat 0 (Z.to_nat nb_agents), s).

(** a rail on which only the orientation [3] leads to the target *)
Definition ex_check_path (_ : unit) (_ : cell) (o : Z) (_ : cell) : bool := o =? 3.

(** two cities, with two and four stations *)
Definition ex_line_hints : agents_hints :=
  ([(10, 10); (10, 30)],
   [[((8, 10), 0); ((12, 10), 1)]; [((8, 30), 0); ((9, 30), 1); ((11, 30), 2); ((12, 30), 3)]],
   [1; 3]).

Definition ex_line_gen : LineGenerators.BaseLineGen := LineGenerators.mkBaseLineGen None 1.

Definition ex_sparse_line (num_agents : Z) :=
  LineGenerators.SparseLineGen_generate lcg_randint ex_choice2 ex_choice_list ex_choice_p
    ex_check_path ex_line_gen tt num_agents ex_line_hints 0 7.

End Examples.

(** * Proofs *)

(** ** Facts about the Python fragments *)

Lemma length_zrange (a b : Z) : length (zrange a b) = Z.to_nat (b - a).
Proof. unfold zrange. now rewrite length_map, length_seq. Qed.

Lemma nth_error_zrange (a b : Z) (k : nat) :
  (k < Z.to_nat (b - a))%nat -> nth_error (zrange a b) k = Some (a + Z.of_nat k).
Proof.
  intros Hk. unfold zrange. rewrite nth_error_map, nth_error_seq.
  destruct (Nat.ltb_spec k (Z.to_nat (b - a))); [reflexivity | lia].
Qed.

Lemma In_zrange (a b x : Z) : In x (zrange a b) <-> a <= x < b.
Proof.
  unfold zrange. rewrite in_map_iff. split.
  - intros [k [<- Hk]]. apply in_seq in Hk. lia.
  - intros Hx. exists (Z.to_nat (x - a)). split; [lia|]. apply in_seq. lia.
Qed.

Lemma NoDup_zrange (a b : Z) : NoDup (zrange a b).
Proof.
  unfold zrange. apply Finite.Injective_map_NoDup; [intros x y; lia | apply seq_NoDup].
Qed.

Lemma py_index_nonneg {A} (l : list A) (i : Z) (a : A) :
  0 <= i -> py_index l i = Ok a -> nth_error l (Z.to_nat i) = Some a.
Proof.
  unfold py_index. intros Hi.
  destruct (Z.ltb_spec i 0); [lia|].
  destruct ((0 <=? i) && (i <? Z.of_nat (length l))); [|discriminate].
  destruct (nth_error l (Z.to_nat i)); congruence.
Qed.

Lemma py_index_in {A} (l : list A) (i : Z) (a : A) : py_index l i = Ok a -> In a l.
Proof.
  unfold py_index. intros H.
  destruct (_ && _); [|discriminate].
  destruct (nth_error l _) eqn:E; [|discriminate].
  inversion H; subst. eapply nth_error_In; eauto.
Qed.

Lemma py_index_ok {A} (l : list A) (i : Z) :
  0 <= i < Z.of_nat (length l) ->
  exists a, py_index l i = Ok a /\ nth_error l (Z.to_nat i) = Some a.
Proof.
  intros Hi. unfold py_index.
  destruct (Z.ltb_spec i 0); [lia|].
  replace ((0 <=? i) && (i <? Z.of_nat (length l))) with true by lia.
  destruct (nth_error l (Z.to_nat i)) eqn:E.
  - eauto.
  - apply nth_error_None in E. lia.
Qed.

(** An accumulating [fold_left] over a [result] keeps a raised exception. *)
Lemma fold_left_raise {A S} (F : result S -> A -> result S) (l : list A) (e : exn) :
  (forall e' x, F (Raise e') x = Raise e') -> fold_left F l (Raise e) = Raise e.
Proof. intros HF. induction l as [|x l IH]; simpl; [reflexivity|]. now rewrite HF. Qed.

(** Induction over such a fold, with an invariant on the processed prefix. *)
Lemma fold_left_result_ind {A S} (F : result S -> A -> result S) (P : list A -> S -> Prop) :
  (forall e x, F (Raise e) x = Raise e) ->
  forall l pre s0 s,
    P pre s0 ->
    (forall pre' x t t', In x l -> P pre' t -> F (Ok t) x = Ok t' -> P (pre' ++ [x]) t') ->
    fold_left F l (Ok s0) = Ok s -> P (pre ++ l) s.
Proof.
  intros HF l. induction l as [|x l IH]; intros pre s0 s H0 Hstep Hfold; simpl in Hfold.
  - inversion Hfold; subst. now rewrite app_nil_r.
  - destruct (F (Ok s0) x) as [t|e] eqn:E.
    + replace (pre ++ x :: l) with ((pre ++ [x]) ++ l) by now rewrite <- app_assoc.
      apply (IH (pre ++ [x]) t s).
      * eapply Hstep; eauto. now left.
      * intros; eapply Hstep; eauto. now right.
      * exact Hfold.
    + rewrite fold_left_raise in Hfold by exact HF. discriminate.
Qed.

(** An accumulating fold whose steps all succeed. *)
Lemma fold_snoc_ok {A B} (F : result (list B) -> A -> result (list B)) (g : A -> B)
      (l : list A) (s0 : list B) :
  (forall s x, In x l -> F (Ok s) x = Ok (s ++ [g x])) ->
  fold_left F l (Ok s0) = Ok (s0 ++ map g l).
Proof.
  revert s0. induction l as [|x l IH]; intros s0 HF; simpl.
  - now rewrite app_nil_r.
  - rewrite HF by now left. rewrite IH by (intros; apply HF; now right).
    now rewrite <- app_assoc.
Qed.

Lemma py_index_nth {A} (l : list A) (i : Z) (d : A) :
  0 <= i < Z.of_nat (length l) -> py_index l i = Ok (nth (Z.to_nat i) l d).
Proof.
  intros Hi. destruct (py_index_ok l i Hi) as [a [Ha Hn]].
  rewrite Ha. f_equal. symmetry. now apply nth_error_nth.
Qed.

Lemma nth_zrange (a b : Z) (k : nat) (d : Z) :
  (k < Z.to_nat (b - a))%nat -> nth k (zrange a b) d = a + Z.of_nat k.
Proof. intros Hk. apply nth_error_nth. now apply nth_error_zrange. Qed.

Lemma bind_ok_inv {A B} (m : result A) (k : A -> result B) (b : B) :
  bind m k = Ok b -> exists a, m = Ok a /\ k a = Ok b.
Proof. destruct m; simpl; [eauto | discriminate]. Qed.

(** splits a hypothesis [x <- m ;; k = Ok b] into [m = Ok x] and [k x = Ok b] *)
Ltac inv_bind H :=
  match type of H with
  | bind ?m ?k = Ok _ =>
      let a := fresh "a" in let Ha := fresh "Hm" in
      apply bind_ok_inv in H; destruct H as [a [Ha H]]; cbv beta in H
  end.

Lemma ok_inj {A} (a b : A) : Ok a = Ok b -> a = b.
Proof. intros H; now inversion H. Qed.

(** ** Inner connection points ([inner_point_offset]) *)

Lemma slot_coordinates_inner_not_border (direction : Z) (city_position : cell)
      (city_radius slot offset : Z) :
  1 <= offset ->
  fst (slot_coordinates direction city_position city_radius slot offset)
  <> snd (slot_coordinates direction city_position city_radius slot offset).
Proof.
  intros Hoff. destruct city_position as [r c]. unfold slot_coordinates.
  destruct (direction =? 0); [|destruct (direction =? 1); [|destruct (direction =? 2)]];
    simpl; intros H; inversion H; lia.
Qed.

(** C6: for [0 <= i < n], the inward offset of slot [i] among [n] slots is
    [|i - n/2| + clip(i - n/2, 0, 1) + 1] with [n/2] the integer half of [n];
    it is at least 1, so the inner point of the slot differs from its
    border point on every side of every city. *)
Theorem inner_point_offset_formula (n i : Z) :
  0 <= i < n ->
  py_index (inner_point_offsets n) i = Ok (Z.abs (i - n / 2) + np_clip01 (i - n / 2) + 1) /\
  1 <= Z.abs (i - n / 2) + np_clip01 (i - n / 2) + 1 /\
  (forall direction city_position city_radius slot,
     fst (slot_coordinates direction city_position city_radius slot
            (Z.abs (i - n / 2) + np_clip01 (i - n / 2) + 1))
     <> snd (slot_coordinates direction city_position city_radius slot
            (Z.abs (i - n / 2) + np_clip01 (i - n / 2) + 1))).
Proof.
  intros Hi.
  assert (Hpos : 1 <= Z.abs (i - n / 2) + np_clip01 (i - n / 2) + 1).
  { unfold np_clip01. lia. }
  split; [|split; [exact Hpos|]].
  - destruct (py_index_ok (inner_point_offsets n) i) as [a [Ha Hn]].
    { unfold inner_point_offsets. rewrite length_map, length_zrange. lia. }
    rewrite Ha. unfold inner_point_offsets in Hn.
    rewrite nth_error_map, nth_error_zrange in Hn by lia.
    simpl in Hn. inversion Hn; subst.
    rewrite Z.quot_div_nonneg by lia.
    repeat f_equal; lia.
  - intros. now apply slot_coordinates_inner_not_border.
Qed.

Lemma inner_point_offset_formula_witness :
  0 <= 1 < 4 /\
  py_index (inner_point_offsets 4) 1 = Ok (Z.abs (1 - 4 / 2) + np_clip01 (1 - 4 / 2) + 1) /\
  1 <= Z.abs (1 - 4 / 2) + np_clip01 (1 - 4 / 2) + 1 /\
  (forall direction city_position city_radius slot,
     fst (slot_coordinates direction city_position city_radius slot
            (Z.abs (1 - 4 / 2) + np_clip01 (1 - 4 / 2) + 1))
     <> snd (slot_coordinates direction city_position city_radius slot
            (Z.abs (1 - 4 / 2) + np_clip01 (1 - 4 / 2) + 1))).
Proof. split; [lia | apply (inner_point_offset_formula 4 1); lia]. Defined.

(** ** Train stations *)

Lemma set_trainstation_positions_value (city_positions : list cell) (city_radius : Z)
      (free_rails : list (list (list cell))) :
  (length city_positions <= length free_rails)%nat ->
  (forall rails track, In rails free_rails -> In track rails -> track <> []) ->
  set_trainstation_positions city_positions city_radius free_rails
  = Ok (map (fun c => let rails := nth (Z.to_nat c) free_rails [] in
                      map (track_station rails) (zrange 0 (Z.of_nat (length rails))))
            (zrange 0 (Z.of_nat (length city_positions)))).
Proof.
  intros Hlen Hne. unfold set_trainstation_positions.
  rewrite <- (app_nil_l (map _ (zrange 0 (Z.of_nat (length city_positions))))). apply fold_snoc_ok.
  intros s c Hc. apply In_zrange in Hc.
  rewrite (py_index_nth _ _ []) by lia. simpl.
  set (rails := nth (Z.to_nat c) free_rails []).
  assert (Hrails : In rails free_rails) by (apply nth_In; lia).
  rewrite <- (app_nil_l (map (track_station rails) _)), (fold_snoc_ok _ (track_station rails)).
  - reflexivity.
  - intros s2 k Hk. apply In_zrange in Hk.
    rewrite (py_index_nth _ _ []) by lia. simpl.
    set (track := nth (Z.to_nat k) rails []).
    assert (Htrack : track <> []) by (apply (Hne rails); [exact Hrails | apply nth_In; lia]).
    assert (Hl : (0 < length track)%nat).
    { destruct (length track) eqn:E; [apply length_zero_iff_nil in E; congruence | lia]. }
    rewrite (py_index_nth _ _ ((0, 0) : cell)).
    + unfold track_station. fold track. simpl. repeat f_equal.
      rewrite Z.quot_div_nonneg by lia. rewrite Z2Nat.inj_div by lia.
      now rewrite Nat2Z.id.
    + clearbody track. split; [apply Z.quot_pos; lia|]. rewrite Z.quot_div_nonneg by lia.
      apply Z.div_lt_upper_bound; lia.
Qed.

(** C7: if every city has an entry in [free_rails] and every track is
    non-empty, [_set_trainstation_positions] succeeds with one station list
    per city; the list of a city has one station per free-rail track of the
    city, and the station of track [k] is [(track[len(track) // 2], k)], a
    cell of that track. *)
Theorem set_trainstation_positions_stations (city_positions : list cell) (city_radius : Z)
        (free_rails : list (list (list cell))) :
  (length city_positions <= length free_rails)%nat ->
  (forall rails track, In rails free_rails -> In track rails -> track <> []) ->
  exists train_stations,
    set_trainstation_positions city_positions city_radius free_rails = Ok train_stations /\
    length train_stations = length city_positions /\
    forall c rails, (c < length city_positions)%nat -> nth_error free_rails c = Some rails ->
      exists stations,
        nth_error train_stations c = Some stations /\
        length stations = length rails /\
        forall k track, nth_error rails k = Some track ->
          exists loc,
            nth_error track (length track / 2) = Some loc /\
            nth_error stations k = Some (loc, Z.of_nat k) /\
            In loc track.
Proof.
  intros Hlen Hne.
  eexists. split; [apply set_trainstation_positions_value; assumption|].
  split; [now rewrite length_map, length_zrange, Z.sub_0_r, Nat2Z.id|].
  intros c rails Hc Hrails.
  eexists. split.
  { rewrite nth_error_map, nth_error_zrange by lia. simpl. reflexivity. }
  rewrite Nat2Z.id, (nth_error_nth _ _ _ Hrails).
  split; [now rewrite length_map, length_zrange, Z.sub_0_r, Nat2Z.id|].
  intros k track Htrack.
  assert (Hk : (k < length rails)%nat) by (apply nth_error_Some; congruence).
  assert (Hne' : track <> []).
  { apply (Hne rails); [eapply nth_error_In; eauto | eapply nth_error_In; eauto]. }
  assert (Hl : (0 < length track)%nat) by (destruct track; [congruence | simpl; lia]).
  exists (nth (length track / 2) track (0, 0)).
  split; [apply nth_error_nth'; apply Nat.div_lt; lia|].
  split; [|apply nth_In; apply Nat.div_lt; lia].
  rewrite nth_error_map, nth_error_zrange by lia. simpl.
  unfold track_station. rewrite Nat2Z.id, (nth_error_nth _ _ _ Htrack). reflexivity.
Qed.

Lemma set_trainstation_positions_stations_witness :
  (length [(5, 5)] <= length [[[(1, 1); (1, 2); (1, 3)]; [(2, 1)]]])%nat /\
  (forall rails track, In rails [[[(1, 1); (1, 2); (1, 3)]; [(2, 1)]]] -> In track rails -> track <> []) /\
  exists train_stations,
    set_trainstation_positions [(5, 5)] 2 [[[(1, 1); (1, 2); (1, 3)]; [(2, 1)]]] = Ok train_stations /\
    length train_stations = length [(5, 5)] /\
    forall c rails, (c < length [(5, 5)])%nat ->
      nth_error [[[(1, 1); (1, 2); (1, 3)]; [(2, 1)]]] c = Some rails ->
      exists stations,
        nth_error train_stations c = Some stations /\
        length stations = length rails /\
        forall k track, nth_error rails k = Some track ->
          exists loc,
            nth_error track (length track / 2) = Some loc /\
            nth_error stations k = Some (loc, Z.of_nat k) /\
            In loc track.
Proof.
  assert (Hne : forall rails track, In rails [[[(1, 1); (1, 2); (1, 3)]; [(2, 1)]]] ->
                In track rails -> track <> []).
  { intros rails track [<- | []] [<- | [<- | []]]; discriminate. }
  split; [simpl; lia|]. split; [exact Hne|].
  apply set_trainstation_positions_stations; [simpl; lia | exact Hne].
Defined.

(** ** Malfunction durations *)

Module MalfunctionFacts.
Import Malfunction.

Section Facts.

Context {RS : Type} (random_sample3 : RS -> (Q * Q * Q) * RS) (np_exp : Q -> Q).
Context {DistanceMap : Type} (get_travel_time_on_shortest_path : EnvAgent -> DistanceMap -> nat).

Lemma delay_search_range (param r : Q) (idxs : list Z) :
  Forall (fun i => 0 <= i <= 48) idxs -> 2 <= delay_search np_exp param r idxs <= 50.
Proof.
  induction 1 as [|i rest Hi _ IH]; simpl; [lia|].
  destruct (_ && _); [lia | exact IH].
Qed.

(** C10: [ParamMalfunctionGen.generate] gives 0 broken steps to an agent
    whose position is [None]; for every agent, distance map and random
    state, the number of broken steps is 0 or between 2 and 50, never 1. *)
Theorem malfunction_broken_steps (distance_map : DistanceMap) (np_random : RS) (agent : EnvAgent) :
  fst (generate random_sample3 np_exp get_travel_time_on_shortest_path distance_map np_random
          (mkEnvAgent None (initial_position agent))) = 0 /\
  (fst (generate random_sample3 np_exp get_travel_time_on_shortest_path distance_map np_random agent) = 0 \/
   2 <= fst (generate random_sample3 np_exp get_travel_time_on_shortest_path distance_map np_random agent)
     <= 50).
Proof.
  unfold generate. destruct (random_sample3 np_random) as [[[r0 r1] r2] st]. split.
  - simpl. match goal with |- fst (let '(_, _) := ?e in _) = _ => destruct e end.
    reflexivity.
  - match goal with |- context [let '(_, _) := ?e in _] => destruct e as [mp ed] end.
    destruct (position agent) as [p|]; [|left; reflexivity].
    cbn [fst]. destruct (Qlt_bool r1 mp); [right | left; reflexivity].
    apply delay_search_range. apply Forall_forall. intros x Hx.
    apply In_zrange in Hx. lia.
Qed.

End Facts.
End MalfunctionFacts.

(** ** Connection points of one city *)

(** the loop [for connection_idx in range(connections_per_direction[direction])]
    adds one inner point per slot *)
Lemma city_sides_side_length (direction : Z) (city_position : cell) (city_radius start_idx : Z)
      (connection_slots inner_point_offset : list Z) (count : Z) (si so : list cell) :
  fold_left
    (fun acc2 connection_idx =>
       '(si, so) <- acc2 ;;
       offset <- py_index inner_point_offset connection_idx ;;
       slot <- py_index connection_slots connection_idx ;;
       let '(tmp_coordinates, out_tmp_coordinates) :=
         slot_coordinates direction city_position city_radius slot offset in
       Ok (si ++ [tmp_coordinates],
           if (start_idx <=? connection_idx) && (connection_idx <? start_idx + 2)
           then so ++ [out_tmp_coordinates] else so))
    (zrange 0 count) (Ok ([], [])) = Ok (si, so) ->
  length si = Z.to_nat count.
Proof.
  intros H.
  assert (Hind : length (fst (si, so)) = length ([] ++ zrange 0 count)).
  { eapply (fold_left_result_ind _ (fun pre st => length (fst st) = length pre));
      [ | | | exact H].
    - reflexivity.
    - reflexivity.
    - intros pre' x [si1 so1] t' _ Hlen Hstep. simpl in Hstep, Hlen.
      inv_bind Hstep. inv_bind Hstep.
      destruct (slot_coordinates _ _ _ _ _). apply ok_inj in Hstep. subst t'. simpl.
      rewrite !length_app, Hlen. reflexivity. }
  simpl in Hind. rewrite Hind, length_zrange. lia.
Qed.

Lemma direction_to_point_range (p q : cell) : 0 <= direction_to_point p q < 4.
Proof.
  unfold direction_to_point.
  repeat match goal with |- context [if ?b then _ else _] => destruct b end; lia.
Qed.

(** [connections_per_direction] after the two assignments of one city *)
Lemma connections_per_direction_value (d nr : Z) (cpd : list Z) :
  0 <= d < 4 ->
  fold_left (fun acc2 idx => cpd <- acc2 ;; py_setitem cpd idx nr) [d; (d + 2) mod 4]
            (Ok [0; 0; 0; 0]) = Ok cpd ->
  forall s, (s < 4)%nat ->
    py_index cpd (Z.of_nat s) = Ok (if (Z.of_nat s =? d) || (Z.of_nat s =? (d + 2) mod 4) then nr else 0).
Proof.
  intros Hd H s Hs.
  assert (d = 0 \/ d = 1 \/ d = 2 \/ d = 3) as [-> | [-> | [-> | ->]]] by lia;
    simpl in H; apply ok_inj in H; subst cpd;
    (destruct s as [|[|[|[|s]]]]; [reflexivity | reflexivity | reflexivity | reflexivity | lia]).
Qed.

(** [city_sides] gives four sides; side [s] has
    [connections_per_direction[s]] points *)
Lemma city_sides_lengths (city_position : cell) (city_radius nr : Z) (cpd : list Z)
      (inner outer : list (list cell)) :
  city_sides city_position city_radius nr cpd = Ok (inner, outer) ->
  length inner = 4%nat /\
  forall s, (s < 4)%nat ->
    exists c, py_index cpd (Z.of_nat s) = Ok c /\ length (nth s inner []) = Z.to_nat c.
Proof.
  unfold city_sides. intros H.
  assert (Hind : length (fst (inner, outer)) = length ([] ++ zrange 0 4) /\
                 forall j, (j < length ([] ++ zrange 0 4))%nat ->
                   exists c, py_index cpd (nth j ([] ++ zrange 0 4) 0) = Ok c /\
                             length (nth j (fst (inner, outer)) []) = Z.to_nat c).
  { eapply (fold_left_result_ind _
              (fun pre st => length (fst st) = length pre /\
                 forall j, (j < length pre)%nat ->
                   exists c, py_index cpd (nth j pre 0) = Ok c /\
                             length (nth j (fst st) []) = Z.to_nat c)); [ | | | exact H].
    - reflexivity.
    - split; [reflexivity | simpl; intros; lia].
    - intros pre' x [inner1 outer1] t' _ [Hl Hj] Hstep. simpl in Hstep, Hl, Hj.
      inv_bind Hstep. inv_bind Hstep. destruct a0 as [si so]. apply ok_inj in Hstep. subst t'.
      simpl. rewrite !length_app, Hl. split; [reflexivity|].
      intros j Hjl. rewrite ?length_app in Hjl. simpl in Hjl.
      destruct (Nat.ltb_spec j (length pre')).
      + rewrite !app_nth1 by lia. now apply Hj.
      + assert (j = length pre') by lia. subst j.
        rewrite app_nth2, Nat.sub_diag by lia. simpl.
        rewrite <- Hl, app_nth2, Nat.sub_diag by lia. simpl.
        exists a. split; [exact Hm|].
        eapply city_sides_side_length. exact Hm0. }
  simpl in Hind. destruct Hind as [Hlen Hall].
  split; [exact Hlen|]. intros s Hs. specialize (Hall s Hs).
  destruct s as [|[|[|[|s]]]]; simpl in *; try lia; exact Hall.
Qed.

(** ** Separation of the city centres *)

Lemma ForallOrdPairs_snoc {A} (R : A -> A -> Prop) (l : list A) (x : A) :
  ForallOrdPairs R l -> Forall (fun y => R y x) l -> ForallOrdPairs R (l ++ [x]).
Proof.
  induction 1 as [|a l Ha Hl IH]; intros Hx; simpl.
  - constructor; constructor.
  - inversion Hx; subst. constructor.
    + apply Forall_app. split; [exact Ha|]. constructor; [assumption | constructor].
    + now apply IH.
Qed.

Lemma ForallOrdPairs_nth {A} (R : A -> A -> Prop) (l : list A) :
  (forall x y, R x y -> R y x) -> ForallOrdPairs R l ->
  forall i j a b, i <> j -> nth_error l i = Some a -> nth_error l j = Some b -> R a b.
Proof.
  intros Hsym. induction 1 as [|c l Hc Hl IH]; intros i j a b Hij Hi Hj.
  - destruct i; discriminate.
  - rewrite Forall_forall in Hc. destruct i as [|i], j as [|j]; simpl in Hi, Hj.
    + congruence.
    + inversion Hi; subst. apply Hc. eapply nth_error_In; eauto.
    + inversion Hj; subst. apply Hsym, Hc. eapply nth_error_In; eauto.
    + apply (IH i j); auto.
Qed.

Lemma chebyshev_sym (a b : cell) : chebyshev a b = chebyshev b a.
Proof. unfold chebyshev. f_equal; lia. Qed.

(** consecutive samples of [np.linspace(start, stop, num, dtype=int)] are
    [d] apart when the range leaves room for it *)
Lemma linspace_int_spacing (start stop num d : Z) (l : list Z) :
  0 <= start -> 0 <= d -> (2 <= num -> (num - 1) * d <= stop - start) ->
  linspace_int start stop num = Ok l ->
  forall i j vi vj, i <> j -> nth_error l i = Some vi -> nth_error l j = Some vj ->
  d <= Z.abs (vi - vj).
Proof.
  intros Hs Hd Hroom H. unfold linspace_int in H.
  destruct (Z.ltb_spec num 0); [discriminate|].
  destruct (Z.eqb_spec num 1).
  - apply ok_inj in H. subst l. intros [|[|i]] [|[|j]]; simpl; intros; congruence.
  - apply ok_inj in H. subst l.
    assert (Hnth : forall k v, nth_error (map (fun k => Z.quot (start * (num - 1) + k * (stop - start)) (num - 1))
                                          (zrange 0 num)) k = Some v ->
                   (k < Z.to_nat num)%nat /\ v = start + Z.of_nat k * (stop - start) / (num - 1)).
    { intros k v Hk. rewrite nth_error_map in Hk.
      destruct (Nat.ltb_spec k (Z.to_nat num)) as [Hlt|Hge].
      - rewrite nth_error_zrange in Hk by (rewrite Z.sub_0_r; exact Hlt). simpl in Hk.
        inversion Hk; subst v. split; [exact Hlt|].
        assert (Hroom' : (num - 1) * d <= stop - start) by (apply Hroom; lia).
        assert (Hsd : 0 <= stop - start) by nia.
        assert (0 <= start * (num - 1)) by nia.
        assert (0 <= (0 + Z.of_nat k) * (stop - start)) by nia.
        rewrite Z.quot_div_nonneg by lia.
        rewrite Z.div_add_l by lia. reflexivity.
      - rewrite (proj2 (nth_error_None (zrange 0 num) k)) in Hk by (rewrite length_zrange; lia).
        discriminate. }
    intros i j vi vj Hij Hi Hj.
    destruct (Hnth i vi Hi) as [Hi' ->]. destruct (Hnth j vj Hj) as [Hj' ->].
    assert (Hroom' : (num - 1) * d <= stop - start) by (apply Hroom; lia).
    assert (Hmono : forall a b : nat, (a < b)%nat -> (b < Z.to_nat num)%nat ->
              Z.of_nat a * (stop - start) / (num - 1) + d <= Z.of_nat b * (stop - start) / (num - 1)).
    { intros a b Hab Hb.
      assert (Hn : 2 <= num) by lia.
      assert (Hsd : 0 <= stop - start) by nia.
      assert (Hab' : Z.of_nat a + 1 <= Z.of_nat b) by lia.
      rewrite <- Z.div_add by lia.
      apply Z.div_le_mono; [lia|].
      assert (Z.of_nat a * (stop - start) + (stop - start) <= Z.of_nat b * (stop - start)) by nia.
      nia. }
    destruct (Nat.lt_ge_cases i j) as [Hlt|Hge].
    + specialize (Hmono i j Hlt Hj'). lia.
    + assert (Hlt : (j < i)%nat) by lia. specialize (Hmono j i Hlt Hi'). lia.
Qed.

Lemma linspace_int_num_nonneg (start stop num : Z) (l : list Z) :
  linspace_int start stop num = Ok l -> 0 <= num.
Proof. unfold linspace_int. destruct (Z.ltb_spec num 0); [discriminate | lia]. Qed.

Lemma Forall2_nth_error_r {A B} (R : A -> B -> Prop) (l1 : list A) (l2 : list B) :
  Forall2 R l1 l2 -> forall k b, nth_error l2 k = Some b ->
  exists a, nth_error l1 k = Some a /\ R a b.
Proof.
  induction 1 as [|x y l1 l2 Hxy _ IH]; intros [|k] b Hk; simpl in *; try discriminate.
  - inversion Hk; subst. eauto.
  - now apply IH.
Qed.

Lemma nth_error_zrange_inv (a b : Z) (k : nat) (x : Z) :
  nth_error (zrange a b) k = Some x -> x = a + Z.of_nat k.
Proof.
  intros Hk. assert (Hlt : (k < length (zrange a b))%nat)
    by (apply nth_error_Some; congruence).
  rewrite length_zrange in Hlt. rewrite nth_error_zrange in Hk by exact Hlt. congruence.
Qed.

(** [_generate_evenly_distr_city_positions] puts its centres on a grid of
    pitch at least [2 * (city_radius + 1)] *)
Lemma evenly_distr_separated (num_cities city_radius width height : Z) (l : list cell) :
  0 <= city_radius ->
  generate_evenly_distr_city_positions num_cities city_radius width height = Ok l ->
  separated (2 * city_radius + 2) l.
Proof.
  intros Hr H. unfold generate_evenly_distr_city_positions in H.
  destruct (width =? 0); [discriminate|].
  destruct (_ <? 0); [discriminate|].
  cbv zeta in H.
  remember (Z.min (ceil_sqrt_ratio (Z.abs (num_cities * height)) (Z.abs width))
                  ((height - 2) / (2 * (city_radius + 1)))) as cpr eqn:Ecpr.
  destruct (Z.eqb_spec cpr 0) as [|Hcpr0]; [discriminate|].
  remember (Z.min (ceil_div num_cities cpr) ((width - 2) / (2 * (city_radius + 1)))) as cpc eqn:Ecpc.
  inv_bind H. rename a into rows, Hm into Hrows.
  inv_bind H. rename a into cols, Hm into Hcols.
  assert (Hcpr : 0 < cpr) by (apply linspace_int_num_nonneg in Hrows; lia).
  set (R := fun (idx : Z) (a : cell) =>
              py_index rows (idx mod cpr) = Ok (fst a) /\ py_index cols (idx / cpr) = Ok (snd a)).
  assert (HF : Forall2 R ([] ++ zrange 0 (Z.min num_cities (cpc * cpr))) l).
  { eapply (fold_left_result_ind _ (Forall2 R)); [ | constructor | | exact H].
    - intros; reflexivity.
    - intros pre' x t t' _ Hp Hstep. cbn [bind] in Hstep.
      inv_bind Hstep. inv_bind Hstep. apply ok_inj in Hstep. subst t'.
      apply Forall2_app; [exact Hp|]. constructor; [|constructor]. split; assumption. }
  simpl in HF.
  assert (Hsize : 0 < 2 * (city_radius + 1)) by lia.
  assert (Hrow_room : 2 <= cpr -> (cpr - 1) * (2 * city_radius + 2)
                                   <= height - (city_radius + 2) - (city_radius + 2)).
  { intros _. pose proof (Z.mul_div_le (height - 2) (2 * (city_radius + 1)) Hsize).
    assert (cpr <= (height - 2) / (2 * (city_radius + 1))) by (subst cpr; apply Z.le_min_r).
    nia. }
  assert (Hcol_room : 2 <= cpc -> (cpc - 1) * (2 * city_radius + 2)
                                   <= width - (city_radius + 2) - (city_radius + 2)).
  { intros _. pose proof (Z.mul_div_le (width - 2) (2 * (city_radius + 1)) Hsize).
    assert (cpc <= (width - 2) / (2 * (city_radius + 1))) by (subst cpc; apply Z.le_min_r).
    nia. }
  intros i j a b Hij Hi Hj.
  destruct (Forall2_nth_error_r _ _ _ HF i a Hi) as [x [Hx [Hxr Hxc]]].
  destruct (Forall2_nth_error_r _ _ _ HF j b Hj) as [y [Hy [Hyr Hyc]]].
  apply nth_error_zrange_inv in Hx, Hy. subst x y.
  unfold chebyshev.
  pose proof (Z.mod_pos_bound (0 + Z.of_nat i) cpr Hcpr).
  pose proof (Z.mod_pos_bound (0 + Z.of_nat j) cpr Hcpr).
  destruct (Z.eq_dec ((0 + Z.of_nat i) mod cpr) ((0 + Z.of_nat j) mod cpr)) as [Hm|Hm].
  - assert (Hd : (0 + Z.of_nat i) / cpr <> (0 + Z.of_nat j) / cpr).
    { intros Hd. apply Hij.
      pose proof (Z.div_mod (0 + Z.of_nat i) cpr ltac:(lia)).
      pose proof (Z.div_mod (0 + Z.of_nat j) cpr ltac:(lia)). lia. }
    assert (0 <= (0 + Z.of_nat i) / cpr) by (apply Z.div_pos; lia).
    assert (0 <= (0 + Z.of_nat j) / cpr) by (apply Z.div_pos; lia).
    apply py_index_nonneg in Hxc, Hyc; try lia.
    pose proof (linspace_int_spacing (city_radius + 2) _ cpc (2 * city_radius + 2) _ ltac:(lia)
                  ltac:(lia) Hcol_room Hcols (Z.to_nat ((0 + Z.of_nat i) / cpr)) (Z.to_nat ((0 + Z.of_nat j) / cpr))
                  _ _ ltac:(lia) Hxc Hyc).
    lia.
  - apply py_index_nonneg in Hxr, Hyr; try lia.
    pose proof (linspace_int_spacing (city_radius + 2) _ cpr (2 * city_radius + 2) _ ltac:(lia)
                  ltac:(lia) Hrow_room Hrows (Z.to_nat ((0 + Z.of_nat i) mod cpr)) (Z.to_nat ((0 + Z.of_nat j) mod cpr))
                  _ _ ltac:(lia) Hxr Hyr).
    lia.
Qed.

Lemma separated_weaken (d d' : Z) (l : list cell) : d' <= d -> separated d l -> separated d' l.
Proof. intros Hd H i j a b Hij Hi Hj. specialize (H i j a b Hij Hi Hj). lia. Qed.

Lemma separated_of_pairs (d : Z) (l : list cell) :
  ForallOrdPairs (fun a b => d <= chebyshev a b) l -> separated d l.
Proof.
  intros H i j a b. apply (ForallOrdPairs_nth (fun a b => d <= chebyshev a b)); [|exact H].
  intros x y. now rewrite chebyshev_sym.
Qed.

Lemma np_where_spec (height width : Z) (g : grid) (r c : Z) :
  In (r, c) (np_where height width g) -> g r c = true /\ 0 <= r < height /\ 0 <= c < width.
Proof.
  unfold np_where. rewrite in_flat_map. intros [r' [Hr' Hin]].
  apply in_map_iff in Hin. destruct Hin as [c' [Heq Hc']]. inversion Heq; subst.
  apply filter_In in Hc'. destruct Hc' as [Hc' Hg]. apply In_zrange in Hr', Hc'. auto.
Qed.

(** a slice with non-negative bounds on an axis of length [n] holds the
    indices of [[0, n)] between its bounds *)
Lemma in_slice_nonneg (n start stop k : Z) :
  0 <= start -> 0 <= stop -> 0 <= k < n ->
  (in_slice n start stop k = true <-> start <= k < stop).
Proof.
  intros Hs Ht Hk. unfold in_slice, py_slice_bound.
  destruct (Z.ltb_spec start 0); [lia|]. destruct (Z.ltb_spec stop 0); [lia|].
  rewrite andb_true_iff, Z.leb_le, Z.ltb_lt. lia.
Qed.

(** the cells set by [allowed_grid[p:-p, p:-p] = 1] lie on the grid, at
    least [p] away from the top and left borders and [p + 1] from the
    bottom and right ones (also for [p <= 0]) *)
Lemma init_allowed_grid_bounds (height width p r c : Z) :
  0 <= height -> 0 <= width -> init_allowed_grid height width p r c = true ->
  (0 <= r < height /\ p <= r < height - p) /\ (0 <= c < width /\ p <= c < width - p).
Proof.
  intros Hh Hw. unfold init_allowed_grid, in_slice, py_slice_bound.
  rewrite !andb_true_iff, !Z.leb_le, !Z.ltb_lt.
  destruct (Z.ltb_spec p 0), (Z.ltb_spec (- p) 0); lia.
Qed.

(** a cell left allowed by [block_city] at a position on the grid is more
    than [2 * city_radius_pad1] away from the blocked centre *)
Lemma block_city_spec (height width : Z) (g : grid) (row col p r c : Z) :
  block_city height width g row col p r c = true -> 0 <= row -> 0 <= col -> 0 <= p ->
  0 <= r < height -> 0 <= c < width ->
  g r c = true /\ 2 * p + 1 <= chebyshev (row, col) (r, c).
Proof.
  unfold block_city, chebyshev. cbn [fst snd]. intros H Hrow Hcol Hp Hr Hc.
  apply andb_true_iff in H. destruct H as [Hg H]. split; [exact Hg|].
  apply negb_true_iff in H.
  apply andb_false_iff in H. destruct H as [E|E].
  - assert (~ (Z.max 0 (row - 2 * p) <= r < row + 2 * p + 1)).
    { rewrite <- (in_slice_nonneg height) by lia. congruence. }
    lia.
  - assert (~ (Z.max 0 (col - 2 * p) <= c < col + 2 * p + 1)).
    { rewrite <- (in_slice_nonneg width) by lia. congruence. }
    lia.
Qed.

(** ** Clique detection on few cities *)

Lemma insert_nat_comm (a b : nat) (l : list nat) :
  insert_nat a (insert_nat b l) = insert_nat b (insert_nat a l).
Proof.
  induction l as [|x l IH]; simpl;
    repeat (simpl; match goal with |- context [Nat.leb ?x ?y] => destruct (Nat.leb_spec x y) end);
    try reflexivity; try (exfalso; lia); try (f_equal; exact IH);
    try (assert (a = b) by lia; subst; reflexivity);
    try (assert (a = x) by lia; subst; reflexivity);
    try (assert (b = x) by lia; subst; reflexivity).
Qed.

Lemma sort_nat_perm (l l' : list nat) : Permutation l l' -> sort_nat l = sort_nat l'.
Proof.
  induction 1 as [| x l l' _ IH | x y l | l l' l'' _ IH1 _ IH2].
  - reflexivity.
  - change (insert_nat x (sort_nat l) = insert_nat x (sort_nat l')). now rewrite IH.
  - change (insert_nat y (insert_nat x (sort_nat l)) = insert_nat x (insert_nat y (sort_nat l))).
    apply insert_nat_comm.
  - congruence.
Qed.

Lemma insert_by_perm (key : nat -> Z) (i : nat) (l : list nat) :
  Permutation (insert_by key i l) (i :: l).
Proof.
  induction l as [|j l IH]; simpl; [reflexivity|].
  destruct (key i <? key j); [reflexivity|].
  eapply perm_trans; [apply perm_skip, IH | apply perm_swap].
Qed.

Lemma insert_by_sorted (key : nat -> Z) (i : nat) (l : list nat) :
  Sorted (fun a b => key a <= key b) l -> Sorted (fun a b => key a <= key b) (insert_by key i l).
Proof.
  induction l as [|j l IH]; intros Hs; simpl.
  - repeat constructor.
  - inversion Hs as [|? ? Hl Hhd]; subst.
    destruct (Z.ltb_spec (key i) (key j)).
    + constructor; [exact Hs | constructor; lia].
    + constructor; [now apply IH|].
      destruct l as [|x l]; simpl; [constructor; lia|].
      inversion Hhd; subst.
      destruct (key i <? key x); constructor; lia.
Qed.

Lemma argsort_perm (s : list Z) : Permutation (argsort s) (seq 0 (length s)).
Proof.
  unfold argsort.
  assert (H : forall l acc, Permutation (fold_left (fun acc i => insert_by (fun k => nth k s 0) i acc) l acc)
                                        (l ++ acc)).
  { induction l as [|x l IH]; intros acc; simpl; [reflexivity|].
    rewrite IH. rewrite insert_by_perm. apply Permutation_sym, Permutation_middle. }
  rewrite H. now rewrite app_nil_r.
Qed.

Lemma argsort_sorted (s : list Z) :
  Sorted (fun a b => nth a s 0 <= nth b s 0) (argsort s).
Proof.
  unfold argsort.
  assert (H : forall l acc, Sorted (fun a b => nth a s 0 <= nth b s 0) acc ->
              Sorted (fun a b => nth a s 0 <= nth b s 0)
                     (fold_left (fun acc i => insert_by (fun k => nth k s 0) i acc) l acc)).
  { induction l as [|x l IH]; intros acc Hacc; simpl; [exact Hacc|].
    apply IH. now apply insert_by_sorted. }
  apply H. constructor.
Qed.

Lemma py_index_out {A} (l : list A) (i : Z) :
  Z.of_nat (length l) <= i -> py_index l i = Raise IndexError.
Proof.
  intros Hi. unfold py_index.
  destruct (Z.ltb_spec i 0); [lia|].
  replace ((0 <=? i) && (i <? Z.of_nat (length l))) with false by lia. reflexivity.
Qed.

(** [cliques_loop] reads its index array through [build_clique3] only *)
Lemma cliques_loop_ext (A B : list (list nat)) (idxs : list nat) :
  (forall k, build_clique3 A k = build_clique3 B k) -> cliques_loop A idxs = cliques_loop B idxs.
Proof.
  intros H. induction idxs as [|i rest IH]; simpl; [reflexivity|].
  rewrite !H. destruct (build_clique3 B i) as [c|e]; simpl; [|reflexivity].
  destruct (py_index c 1) as [i1|e]; simpl; [|reflexivity].
  rewrite H. destruct (build_clique3 B i1) as [c1|e]; simpl; [|reflexivity].
  destruct (py_index c 2) as [i2|e]; simpl; [|reflexivity].
  rewrite H. destruct (build_clique3 B i2) as [c2|e]; simpl; [|reflexivity].
  destruct (_ && _); [reflexivity|].
  destruct (Nat.eqb _ 4); [|exact IH].
  destruct (py_index _ 0) as [ae|e]; simpl; [|reflexivity].
  rewrite H. destruct (build_clique3 B ae) as [c3|e]; simpl; [|reflexivity].
  destruct (nat_list_eqb _ _); [reflexivity | exact IH].
Qed.

Lemma sort_index_nth (cps : list cell) (k : nat) :
  (k < length cps)%nat ->
  py_index (map (fun i => argsort (map (fun q => get_manhattan_distance (nth i cps (0, 0)) q) cps))
                (seq 0 (length cps))) (Z.of_nat k)
  = Ok (argsort (map (fun q => get_manhattan_distance (nth k cps (0, 0)) q) cps)).
Proof.
  intros Hk.
  destruct (py_index_ok (map (fun i => argsort (map (fun q => get_manhattan_distance (nth i cps (0, 0)) q) cps))
                (seq 0 (length cps))) (Z.of_nat k)) as [a [Ha Hn]];
    [rewrite length_map, length_seq; lia|].
  rewrite Ha. rewrite Nat2Z.id, nth_error_map, nth_error_seq in Hn.
  destruct (Nat.ltb_spec k (length cps)); [|lia]. simpl in Hn. congruence.
Qed.

Lemma sort_index_out (cps : list cell) (k : nat) :
  (length cps <= k)%nat ->
  build_clique3 (map (fun i => argsort (map (fun q => get_manhattan_distance (nth i cps (0, 0)) q) cps))
                     (seq 0 (length cps))) k = Raise IndexError.
Proof.
  intros Hk. unfold build_clique3. rewrite py_index_out; [reflexivity|].
  rewrite length_map, length_seq. lia.
Qed.

Lemma nth_map_lt {A B} (f : A -> B) (l : list A) (a : nat) (d : B) (d' : A) :
  (a < length l)%nat -> nth a (map f l) d = f (nth a l d').
Proof.
  intros Ha. rewrite nth_indep with (d' := f d') by (rewrite length_map; exact Ha).
  apply map_nth.
Qed.

Lemma sorted4 (R : nat -> nat -> Prop) (x y z w : nat) :
  Sorted R [x; y; z; w] -> R x y /\ R y z /\ R z w.
Proof.
  intros H. inversion H as [|? ? H1 Hx]; subst. inversion H1 as [|? ? H2 Hy]; subst.
  inversion H2 as [|? ? H3 Hz]; subst.
  inversion Hx; inversion Hy; inversion Hz; subst. auto.
Qed.

Lemma seq4_perm_rem (m : nat) :
  (m < 4)%nat -> Permutation (seq 0 4) (filter (fun j => negb (Nat.eqb j m)) (seq 0 4) ++ [m]).
Proof.
  intros Hm. destruct m as [|[|[|[|m]]]]; try lia; simpl;
    repeat apply perm_skip; first [apply Permutation_cons_append | apply perm_nil].
Qed.

(** with three cities every [build_clique3] is the whole set *)
Lemma contains_cliques_three (cps : list cell) :
  length cps = 3%nat -> contains_cliques cps = Ok true.
Proof.
  intros Hn. unfold contains_cliques. cbv zeta.
  rewrite (cliques_loop_ext _ (map (fun _ => [0; 1; 2]%nat) (seq 0 3))).
  - rewrite Hn. vm_compute. reflexivity.
  - intros k. destruct (Nat.lt_ge_cases k 3) as [Hk|Hk].
    + unfold build_clique3. rewrite sort_index_nth by lia.
      pose proof (argsort_perm (map (fun q => get_manhattan_distance (nth k cps (0, 0)) q) cps)) as Hp.
      rewrite length_map, Hn in Hp.
      destruct (argsort _) as [|x [|y [|z [|w row]]]];
        try (apply Permutation_length in Hp; simpl in Hp; discriminate).
      transitivity (Ok (sort_nat [x; y; z]) : result (list nat)); [reflexivity|].
      rewrite (sort_nat_perm _ _ Hp).
      destruct k as [|[|[|k]]]; try lia; reflexivity.
    + rewrite sort_index_out by lia.
      unfold build_clique3. rewrite py_index_out; [reflexivity|].
      rewrite length_map, length_seq. lia.
Qed.

Lemma clique_rows_build (far : nat -> nat) (k : nat) :
  (k < 4)%nat -> (far k < 4)%nat ->
  build_clique3 (clique_rows far) k
  = Ok (sort_nat (filter (fun j => negb (Nat.eqb j (far k))) (seq 0 4))).
Proof.
  intros Hk Hf. unfold build_clique3, clique_rows.
  destruct k as [|[|[|[|k]]]]; try lia; simpl;
    destruct (far _) as [|[|[|[|m]]]]; try lia; reflexivity.
Qed.

(** the three nearest cities of city [k] are all but the farthest one *)
Lemma build_clique3_far (cps : list cell) (k m : nat) :
  length cps = 4%nat -> (k < 4)%nat -> (m < 4)%nat ->
  (forall j, (j < 4)%nat -> j <> m ->
     get_manhattan_distance (nth k cps (0, 0)) (nth j cps (0, 0))
     < get_manhattan_distance (nth k cps (0, 0)) (nth m cps (0, 0))) ->
  build_clique3 (map (fun i => argsort (map (fun q => get_manhattan_distance (nth i cps (0, 0)) q) cps))
                     (seq 0 (length cps))) k
  = Ok (sort_nat (filter (fun j => negb (Nat.eqb j m)) (seq 0 4))).
Proof.
  intros Hn Hk Hm Hfar. unfold build_clique3. rewrite sort_index_nth by lia.
  pose proof (argsort_perm (map (fun q => get_manhattan_distance (nth k cps (0, 0)) q) cps)) as Hp.
  pose proof (argsort_sorted (map (fun q => get_manhattan_distance (nth k cps (0, 0)) q) cps)) as Hs.
  rewrite length_map, Hn in Hp.
  assert (Hkey : forall a, (a < 4)%nat ->
            nth a (map (fun q => get_manhattan_distance (nth k cps (0, 0)) q) cps) 0
            = get_manhattan_distance (nth k cps (0, 0)) (nth a cps (0, 0))).
  { intros a Ha. apply nth_map_lt. lia. }
  destruct (argsort _) as [|x [|y [|z [|w [|v row]]]]];
    try (apply Permutation_length in Hp; simpl in Hp; discriminate).
  assert (Hin : forall a, In a [x; y; z; w] -> (a < 4)%nat).
  { intros a Ha. apply (Permutation_in _ Hp), in_seq in Ha. lia. }
  apply sorted4 in Hs. destruct Hs as [Hxy [Hyz Hzw]].
  assert (Hw : w = m).
  { destruct (Nat.eq_dec w m) as [|Hwm]; [assumption|exfalso].
    assert (Hmi : In m [x; y; z; w]) by (apply (Permutation_in _ (Permutation_sym Hp)), in_seq; lia).
    pose proof (Hfar w (Hin w ltac:(simpl; tauto)) Hwm) as Hlt.
    rewrite <- (Hkey w), <- (Hkey m) in Hlt by (try apply Hin; simpl; tauto).
    simpl in Hmi. destruct Hmi as [<-|[<-|[<-|[<-|[]]]]]; lia. }
  subst w.
  assert (Hp3 : Permutation [x; y; z] (filter (fun j => negb (Nat.eqb j m)) (seq 0 4))).
  { apply (Permutation_app_inv_r [m]). eapply perm_trans; [exact Hp | apply seq4_perm_rem; exact Hm]. }
  transitivity (Ok (sort_nat [x; y; z]) : result (list nat)); [reflexivity|].
  now rewrite (sort_nat_perm _ _ Hp3).
Qed.

Lemma clique_rows_cliques (s0 s1 s2 s3 : nat) :
  NoDup [s0; s1; s2; s3] -> (s0 < 4)%nat -> (s1 < 4)%nat -> (s2 < 4)%nat -> (s3 < 4)%nat ->
  cliques_loop (clique_rows (fun k => if Nat.eqb k s0 then s3 else if Nat.eqb k s1 then s3 else s0))
               (seq 0 4) = Ok true.
Proof.
  intros Hnd H0 H1 H2 H3.
  destruct s0 as [|[|[|[|s0]]]]; try lia; destruct s1 as [|[|[|[|s1]]]]; try lia;
  destruct s2 as [|[|[|[|s2]]]]; try lia; destruct s3 as [|[|[|[|s3]]]]; try lia;
  first [vm_compute; reflexivity
        | exfalso; repeat rewrite NoDup_cons_iff in Hnd; simpl in Hnd; intuition].
Qed.

(** four cities on two neighbouring rows whose columns are at least 11
    apart: the two cities of each end share their three nearest cities,
    and [contains_cliques] reports a clique *)
Lemma contains_cliques_four (cps : list cell) :
  length cps = 4%nat ->
  (forall i, (i < 4)%nat -> 5 <= fst (nth i cps (0, 0)) <= 6 /\ 5 <= snd (nth i cps (0, 0)) <= 47) ->
  (forall i j, (i < 4)%nat -> (j < 4)%nat -> i <> j ->
     11 <= Z.abs (snd (nth i cps (0, 0)) - snd (nth j cps (0, 0)))) ->
  contains_cliques cps = Ok true.
Proof.
  intros Hn Hb Hsep.
  assert (Hn' : @length (Z * Z) cps = 4%nat) by exact Hn.
  pose proof (argsort_perm (map snd cps)) as Hp. pose proof (argsort_sorted (map snd cps)) as Hs.
  replace (length (map snd cps)) with 4%nat in Hp by (rewrite length_map; symmetry; exact Hn).
  destruct (argsort (map snd cps)) as [|s0 [|s1 [|s2 [|s3 [|v row]]]]];
    try (apply Permutation_length in Hp; simpl in Hp; discriminate).
  assert (Hnd : NoDup [s0; s1; s2; s3])
    by (apply (Permutation_NoDup (Permutation_sym Hp)), seq_NoDup).
  assert (Hin : forall a, In a [s0; s1; s2; s3] <-> (a < 4)%nat).
  { intros a. split; intros Ha.
    - apply (Permutation_in _ Hp), in_seq in Ha. lia.
    - apply (Permutation_in _ (Permutation_sym Hp)), in_seq. lia. }
  assert (H0 : (s0 < 4)%nat) by (apply Hin; simpl; tauto).
  assert (H1 : (s1 < 4)%nat) by (apply Hin; simpl; tauto).
  assert (H2 : (s2 < 4)%nat) by (apply Hin; simpl; tauto).
  assert (H3 : (s3 < 4)%nat) by (apply Hin; simpl; tauto).
  assert (Hd : s0 <> s1 /\ s0 <> s2 /\ s0 <> s3 /\ s1 <> s2 /\ s1 <> s3 /\ s2 <> s3).
  { inversion Hnd as [|? ? Hn0 Hnd1]; subst. inversion Hnd1 as [|? ? Hn1 Hnd2]; subst.
    inversion Hnd2 as [|? ? Hn2 _]; subst. simpl in Hn0, Hn1, Hn2.
    repeat split; intros E; subst; tauto. }
  destruct Hd as [D01 [D02 [D03 [D12 [D13 D23]]]]].
  apply sorted4 in Hs. destruct Hs as [Hs01 [Hs12 Hs23]].
  rewrite !(nth_map_lt snd cps _ 0 (0, 0)) in Hs01 by lia.
  rewrite !(nth_map_lt snd cps _ 0 (0, 0)) in Hs12 by lia.
  rewrite !(nth_map_lt snd cps _ 0 (0, 0)) in Hs23 by lia.
  assert (G01 : snd (nth s0 cps (0, 0)) + 11 <= snd (nth s1 cps (0, 0)))
    by (pose proof (Hsep s0 s1 H0 H1 D01); unfold cell in *; lia).
  assert (G12 : snd (nth s1 cps (0, 0)) + 11 <= snd (nth s2 cps (0, 0)))
    by (pose proof (Hsep s1 s2 H1 H2 D12); unfold cell in *; lia).
  assert (G23 : snd (nth s2 cps (0, 0)) + 11 <= snd (nth s3 cps (0, 0)))
    by (pose proof (Hsep s2 s3 H2 H3 D23); unfold cell in *; lia).
  pose proof (Hb s0 H0). pose proof (Hb s1 H1). pose proof (Hb s2 H2). pose proof (Hb s3 H3).
  clear Hs01 Hs12 Hs23 Hsep.
  set (far := fun k => if Nat.eqb k s0 then s3 else if Nat.eqb k s1 then s3 else s0).
  unfold contains_cliques. cbv zeta.
  rewrite (cliques_loop_ext _ (clique_rows far)).
  { rewrite Hn. unfold far. apply (clique_rows_cliques s0 s1 s2 s3); assumption. }
  intros k. destruct (Nat.lt_ge_cases k 4) as [Hk|Hk].
  - assert (Hfk : (far k < 4)%nat)
      by (unfold far; destruct (Nat.eqb k s0), (Nat.eqb k s1); assumption).
    rewrite clique_rows_build by assumption.
    apply build_clique3_far; [exact Hn | exact Hk | exact Hfk |].
    apply Hin in Hk. unfold far.
    destruct Hk as [<-|[<-|[<-|[<-|[]]]]];
      repeat match goal with |- context [Nat.eqb ?a ?b] => destruct (Nat.eqb_spec a b); try lia end;
      intros j Hj Hjf; apply Hin in Hj;
      destruct Hj as [<-|[<-|[<-|[<-|[]]]]]; try congruence;
      unfold get_manhattan_distance; unfold cell in *; lia.
  - rewrite sort_index_out by lia.
    unfold build_clique3. rewrite py_index_out; [reflexivity|].
    unfold clique_rows. rewrite length_map, length_seq. lia.
Qed.

Lemma np_where_complete (height width : Z) (g : grid) (r c : Z) :
  g r c = true -> 0 <= r < height -> 0 <= c < width -> In (r, c) (np_where height width g).
Proof.
  intros Hg Hr Hc. unfold np_where. apply in_flat_map. exists r. split; [now apply In_zrange|].
  apply in_map. apply filter_In. split; [now apply In_zrange | exact Hg].
Qed.

Lemma init_allowed_grid_spec (height width p r c : Z) :
  0 < p -> 0 <= height -> 0 <= width ->
  (init_allowed_grid height width p r c = true <-> p <= r < height - p /\ p <= c < width - p).
Proof.
  intros Hp Hh Hw. split.
  - intros H. apply init_allowed_grid_bounds in H; [lia | exact Hh | exact Hw].
  - intros H. unfold init_allowed_grid, in_slice, py_slice_bound.
    destruct (Z.ltb_spec p 0); [lia|]. destruct (Z.ltb_spec (- p) 0); [|lia].
    rewrite !andb_true_iff, !Z.leb_le, !Z.ltb_lt. lia.
Qed.

(** [allowed_grid[r][c] == 0] after [block_city] at [pc] alone *)
Lemma block_city_blocked (height width : Z) (pc : cell) (p r c : Z) :
  0 <= fst pc -> 0 <= snd pc -> 0 <= p -> 0 <= r < height -> 0 <= c < width ->
  (block_city height width (fun _ _ => true) (fst pc) (snd pc) p r c = false <->
   Z.max 0 (fst pc - 2 * p) <= r < fst pc + 2 * p + 1 /\
   Z.max 0 (snd pc - 2 * p) <= c < snd pc + 2 * p + 1).
Proof.
  intros H1 H2 Hp Hr Hc. unfold block_city. cbn [fst snd andb]. rewrite negb_false_iff, andb_true_iff.
  rewrite (in_slice_nonneg height), (in_slice_nonneg width) by lia. tauto.
Qed.

Lemma forallb_false_exists {A} (f : A -> bool) (l : list A) :
  forallb f l = false -> exists x, In x l /\ f x = false.
Proof.
  induction l as [|x l IH]; simpl; [discriminate|].
  destruct (f x) eqn:E; simpl.
  - intros H. destruct (IH H) as [y [Hy Hf]]. eauto.
  - intros _. eauto.
Qed.

(** ** Facts about [SparseRailGen] *)

Section RailFacts.

Context {RS : Type} (rs_randint : RS -> Z -> Z -> Z * RS) (RandomState : Z -> RS)
        (align_cell_to_city : cell -> Z -> cell -> Z).
Context {GridMap : Type} (GridTransitionMap : Z -> Z -> GridMap)
        (connect_rail_in_grid_map : GridMap -> cell -> cell -> list cell -> list cell * GridMap)
        (connect_straight_line_in_grid_map : GridMap -> cell -> cell -> list cell * GridMap)
        (fix_inner_nodes : GridMap -> cell -> GridMap)
        (cell_neighbours_valid : GridMap -> cell -> bool)
        (fix_transitions : GridMap -> cell -> Z -> GridMap).

Local Abbreviation sparse_generate :=
  (generate rs_randint RandomState align_cell_to_city GridTransitionMap connect_rail_in_grid_map
     connect_straight_line_in_grid_map fix_inner_nodes cell_neighbours_valid fix_transitions).

(** C1: with a fixed integer seed, [generate] does not depend on the
    caller's [np_random], on numpy's global generator, on [num_agents] or on
    [num_resets]: two calls with the same width and height give the same
    grid, the same metadata and the same warnings (or raise the same
    error). *)
Theorem generate_deterministic (g : SparseRailGen) (s width height : Z)
        (num_agents1 num_resets1 num_agents2 num_resets2 : Z)
        (np_random1 np_random2 : option RS) (global_rs1 global_rs2 : RS) (fuel : nat) :
  seed g = Some s ->
  sparse_generate g width height num_agents1 num_resets1 np_random1 global_rs1 fuel
  = sparse_generate g width height num_agents2 num_resets2 np_random2 global_rs2 fuel.
Proof.
  intros Hs. unfold generate, init_np_random. now rewrite Hs.
Qed.

(** ** No step after the feasibility test raises its error *)

Create HintDb ni_db.

Lemma ni_bind {A B} (m : result A) (k : A -> result B) :
  not_infeasible m -> (forall a, not_infeasible (k a)) -> not_infeasible (bind m k).
Proof. destruct m; simpl; auto. Qed.

Lemma ni_fold {A S} (F : result S -> A -> result S) (l : list A) (init : result S) :
  (forall acc x, not_infeasible acc -> not_infeasible (F acc x)) ->
  not_infeasible init -> not_infeasible (fold_left F l init).
Proof. intros HF. revert init. induction l; simpl; auto. Qed.

Ltac ni_step :=
  match goal with
  | |- not_infeasible (bind _ _) => apply ni_bind; [|intros ?; cbv beta]
  | |- not_infeasible (fold_left _ _ _) => apply ni_fold; [intros ? ? ?|]
  | |- not_infeasible (Ok _) => exact I
  | |- True => exact I
  | |- _ <> infeasible_msg => cbv [infeasible_msg]; discriminate
  | |- not_infeasible (Raise (ValueError _)) => cbv [not_infeasible infeasible_msg]; discriminate
  | |- not_infeasible (Raise _) => exact I
  | H : not_infeasible ?r |- not_infeasible ?r => exact H
  | |- not_infeasible (if ?b then _ else _) => destruct b
  | |- not_infeasible (match ?x with _ => _ end) => destruct x
  | |- not_infeasible _ => solve [eauto with ni_db]
  | |- _ => progress cbv zeta
  end.

Ltac ni_tac := repeat ni_step.

Lemma ni_py_index {A} (l : list A) (i : Z) : not_infeasible (py_index l i).
Proof. unfold py_index. ni_tac. Qed.
#[local] Hint Resolve ni_py_index : ni_db.

Lemma ni_py_setitem {A} (l : list A) (i : Z) (v : A) : not_infeasible (py_setitem l i v).
Proof. unfold py_setitem. ni_tac. Qed.
#[local] Hint Resolve ni_py_setitem : ni_db.

Lemma ni_vf_get height width vf c : not_infeasible (vf_get height width vf c).
Proof. unfold vf_get. ni_tac. Qed.
#[local] Hint Resolve ni_vf_get : ni_db.

Lemma ni_vf_set height width vf c v : not_infeasible (vf_set height width vf c v).
Proof. unfold vf_set. ni_tac. Qed.
#[local] Hint Resolve ni_vf_set : ni_db.

Lemma ni_get_local {A} (x : option A) : not_infeasible (get_local x).
Proof. unfold get_local. ni_tac. Qed.
#[local] Hint Resolve ni_get_local : ni_db.

Lemma ni_build_clique3 index_array index : not_infeasible (build_clique3 index_array index).
Proof. unfold build_clique3. ni_tac. Qed.
#[local] Hint Resolve ni_build_clique3 : ni_db.

Lemma ni_cliques_loop sort_index idxs : not_infeasible (cliques_loop sort_index idxs).
Proof. induction idxs as [|i rest IH]; simpl; ni_tac. Qed.
#[local] Hint Resolve ni_cliques_loop : ni_db.

Lemma ni_contains_cliques city_positions : not_infeasible (contains_cliques city_positions).
Proof. unfold contains_cliques. ni_tac. Qed.
#[local] Hint Resolve ni_contains_cliques : ni_db.

Lemma ni_linspace_int start stop num : not_infeasible (linspace_int start stop num).
Proof. unfold linspace_int. ni_tac. Qed.
#[local] Hint Resolve ni_linspace_int : ni_db.

Lemma ni_generate_evenly num_cities r width height :
  not_infeasible (generate_evenly_distr_city_positions num_cities r width height).
Proof. unfold generate_evenly_distr_city_positions. ni_tac. Qed.
#[local] Hint Resolve ni_generate_evenly : ni_db.

Lemma ni_randint st low high : not_infeasible (randint rs_randint st low high).
Proof. unfold randint. ni_tac. Qed.
#[local] Hint Resolve ni_randint : ni_db.

Lemma ni_random_city_loop height width pad k g cps st :
  not_infeasible (random_city_loop rs_randint height width pad k g cps st).
Proof. revert g cps st. induction k as [|k IH]; intros; simpl; ni_tac. Qed.
#[local] Hint Resolve ni_random_city_loop : ni_db.

Lemma ni_generate_random num_cities r width height st :
  not_infeasible (generate_random_city_positions rs_randint num_cities r width height st).
Proof. unfold generate_random_city_positions. ni_tac. Qed.
#[local] Hint Resolve ni_generate_random : ni_db.

Lemma ni_clique_retry fuel num_cities r width height cps ws st :
  not_infeasible_opt (clique_retry rs_randint fuel num_cities r width height cps ws st).
Proof.
  revert cps ws st. induction fuel as [|fuel IH]; intros; simpl; [exact I|].
  pose proof (ni_contains_cliques cps) as Hc.
  destruct (contains_cliques cps) as [[|]|e]; simpl; auto.
  pose proof (ni_generate_random num_cities r width height st) as Hg.
  destruct (generate_random_city_positions _ _ _ _ _ _) as [[[cp ws'] st']|e']; simpl; auto.
Qed.

Lemma ni_place_cities g mf r width height fuel st :
  not_infeasible_opt (place_cities rs_randint g mf r width height fuel st).
Proof.
  unfold place_cities.
  destruct (grid_mode g).
  - pose proof (ni_generate_evenly mf r width height) as He.
    destruct (generate_evenly_distr_city_positions mf r width height) as [cp|e]; simpl; auto.
    destruct (Z.of_nat (length cp) <? 2); simpl; ni_tac.
  - pose proof (ni_generate_random mf r width height st) as Hg.
    destruct (generate_random_city_positions _ _ _ _ _ _) as [[[cp ws] st']|e]; simpl; auto.
    destruct (4 <? max_num_cities g).
    + pose proof (ni_clique_retry fuel mf r width height cp ws st') as Hr.
      destruct (clique_retry _ _ _ _ _ _ _ _ _) as [[[[cp' ws'] st'']|e]|]; simpl in *; auto.
      destruct (Z.of_nat (length cp') <? 2); simpl; ni_tac.
    + destruct (Z.of_nat (length cp) <? 2); simpl; ni_tac.
Qed.

Lemma ni_get_cells_in_city height width center radius o vf :
  not_infeasible (get_cells_in_city align_cell_to_city height width center radius o vf).
Proof. unfold get_cells_in_city. ni_tac. Qed.
#[local] Hint Resolve ni_get_cells_in_city : ni_db.

Lemma ni_city_sides pos r nr cpd : not_infeasible (city_sides pos r nr cpd).
Proof. unfold city_sides. ni_tac. Qed.
#[local] Hint Resolve ni_city_sides : ni_db.

Lemma ni_generate_city_connection_points gm height width cps r vf rp st :
  not_infeasible (generate_city_connection_points rs_randint align_cell_to_city gm height width
                    cps r vf rp st).
Proof. unfold generate_city_connection_points, city_connection_step. ni_tac. Qed.
#[local] Hint Resolve ni_generate_city_connection_points : ni_db.

Lemma ni_first_nonempty_side sides idxs : not_infeasible (first_nonempty_side sides idxs).
Proof. induction idxs; simpl; ni_tac. Qed.
#[local] Hint Resolve ni_first_nonempty_side : ni_db.

Lemma ni_build_inner_cities cps icp ocp gm :
  not_infeasible (build_inner_cities connect_straight_line_in_grid_map fix_inner_nodes cps icp ocp gm).
Proof. unfold build_inner_cities, build_inner_city. ni_tac. Qed.
#[local] Hint Resolve ni_build_inner_cities : ni_db.

Lemma ni_set_trainstation_positions cps r free_rails :
  not_infeasible (set_trainstation_positions cps r free_rails).
Proof. unfold set_trainstation_positions. ni_tac. Qed.
#[local] Hint Resolve ni_set_trainstation_positions : ni_db.

Lemma ni_fix_all_transitions height width cc lines gm vf :
  not_infeasible (fix_all_transitions cell_neighbours_valid fix_transitions height width cc lines gm vf).
Proof. unfold fix_all_transitions. ni_tac. Qed.
#[local] Hint Resolve ni_fix_all_transitions : ni_db.

Lemma ni_list_remove l x : not_infeasible (list_remove l x).
Proof. induction l; simpl; ni_tac. Qed.
#[local] Hint Resolve ni_list_remove : ni_db.

Lemma ni_closest_point_search nb_points nb out_point init :
  not_infeasible (closest_point_search nb_points nb out_point init).
Proof. unfold closest_point_search. ni_tac. Qed.
#[local] Hint Resolve ni_closest_point_search : ni_db.

Lemma ni_even_step (cci : Z) pos cps cni k cp_copy out_point (L : @cc_locals GridMap) :
  not_infeasible (even_step cci pos cps cni k cp_copy out_point L).
Proof. unfold even_step. ni_tac. Qed.
#[local] Hint Resolve ni_even_step : ni_db.

Lemma ni_odd_step router cc out_point (L : @cc_locals GridMap) :
  not_infeasible (odd_step router cc out_point L).
Proof. unfold odd_step. ni_tac. Qed.
#[local] Hint Resolve ni_odd_step : ni_db.

Lemma ni_connection_pass router cc cci pos cps cni k points cp_copy (L : @cc_locals GridMap) :
  not_infeasible (connection_pass router cc cci pos cps cni k points cp_copy L).
Proof. revert cp_copy L. induction points; intros; simpl; ni_tac. Qed.
#[local] Hint Resolve ni_connection_pass : ni_db.

Lemma ni_connect_cities router cps cp cc (gm : GridMap) :
  not_infeasible (connect_cities router cps cp cc gm).
Proof. unfold connect_cities, connect_city. ni_tac. Qed.
#[local] Hint Resolve ni_connect_cities : ni_db.

Lemma ni_build_map g width height gm cps ws st :
  not_infeasible (build_map rs_randint align_cell_to_city connect_rail_in_grid_map
                    connect_straight_line_in_grid_map fix_inner_nodes cell_neighbours_valid
                    fix_transitions g width height gm cps ws st).
Proof. unfold build_map. ni_tac. Qed.

(** C2: for non-negative width and height and a seed that numpy's
    [RandomState] accepts (in [[0, 2**32)], or no seed), [generate] raises
    the [ValueError] "Cannot fit more than one city in this map, no
    feasible environment possible!" exactly when
    [min(max_num_cities, ((height - 2) // (2 * (city_radius + 1))) *
    ((width - 2) // (2 * (city_radius + 1))))] is below 2; in that case it
    returns nothing else (no map), and otherwise no later step of the
    generation raises that error. *)
Theorem generate_infeasible_iff (g : SparseRailGen) (width height num_agents num_resets : Z)
        (np_random : option RS) (global_rs : RS) (fuel : nat) :
  valid_seed g = true -> 0 <= width -> 0 <= height ->
  (sparse_generate g width height num_agents num_resets np_random global_rs fuel
     = Some (Raise (ValueError infeasible_msg))
   <-> max_feasible_cities g width height < 2).
Proof.
  intros Hs Hw Hh. unfold generate.
  destruct (init_np_random rs_randint RandomState g np_random global_rs) as [st0|e] eqn:Ei.
  2:{ exfalso. unfold init_np_random, valid_seed in *.
      destruct (seed g) as [s|]; [rewrite Hs in Ei|destruct np_random]; discriminate. }
  destruct (Z.ltb_spec height 0); [lia|]. destruct (Z.ltb_spec width 0); [lia|]. simpl.
  destruct (Z.ltb_spec (max_feasible_cities g width height) 2).
  - split; auto.
  - split; [|lia]. intros Hr.
    pose proof (ni_place_cities g (max_feasible_cities g width height) (city_radius g) width height
                  fuel st0) as Hp.
    destruct (place_cities _ _ _ _ _ _ _ _) as [[[[cp ws] st]|e]|]; try discriminate.
    + pose proof (ni_build_map g width height (GridTransitionMap width height) cp ws st) as Hb.
      inversion Hr as [Heq]. rewrite Heq in Hb. simpl in Hb. congruence.
    + inversion Hr; subst. simpl in Hp. congruence.
Qed.

(** ** Connection sides *)

Section RandintRange.

(** numpy's [randint(low, high)] draws from [low, high). *)
Hypothesis randint_range : forall st low high, low < high ->
  low <= fst (rs_randint st low high) < high.

Lemma randint_ok_range (st st' : RS) (low high v : Z) :
  randint rs_randint st low high = Ok (v, st') -> low <= v < high.
Proof.
  unfold randint. destruct (Z.leb_spec high low) as [_|Hlt]; [discriminate|].
  intros H. apply ok_inj in H. pose proof (randint_range st low high Hlt) as Hr.
  rewrite H in Hr. exact Hr.
Qed.

Lemma city_connection_step_sides gm height width cps r rp t x t' :
  city_connection_step rs_randint align_cell_to_city gm height width cps r rp (Ok t) x = Ok t' ->
  let '(inner, _, orients, _, _, _) := t in
  let '(inner', _, orients', _, _, _) := t' in
  exists sides d, inner' = inner ++ [sides] /\ orients' = orients ++ [d] /\ sides_ok rp d sides.
Proof.
  destruct t as [[[[[inner outer] orients] cells] vf] st].
  unfold city_connection_step. cbn [bind]. intros H.
  inv_bind H. destruct a as [d st1].
  assert (Hd : 0 <= d < 4).
  { destruct gm.
    - eapply randint_ok_range; exact Hm.
    - inv_bind Hm. inv_bind Hm. apply ok_inj in Hm. inversion Hm; subst.
      apply direction_to_point_range. }
  inv_bind H. destruct a as [cells1 vf1].
  inv_bind H. destruct a as [rv st2].
  pose proof (randint_ok_range _ _ _ _ _ Hm1) as Hr.
  inv_bind H. rename a into cpd.
  inv_bind H. destruct a as [inner1 outer1].
  apply ok_inj in H. subst t'.
  exists inner1, d. split; [reflexivity|]. split; [reflexivity|].
  destruct (city_sides_lengths _ _ _ _ _ _ Hm3) as [Hlen Hsides].
  split; [exact Hd|]. split; [exact Hlen|].
  exists (rv * 2). split; [lia|]. split.
  { rewrite Z.even_mul. now rewrite orb_true_r. }
  intros s Hs.
  destruct (Hsides (Z.to_nat s) ltac:(lia)) as [c [Hc Hl]].
  rewrite (connections_per_direction_value d (rv * 2) cpd Hd Hm2 (Z.to_nat s) ltac:(lia)) in Hc.
  apply ok_inj in Hc. rewrite Z2Nat.id in Hc by lia.
  rewrite Hl, <- Hc.
  destruct ((s =? d) || (s =? (d + 2) mod 4)); lia.
Qed.

End RandintRange.

(** C5: when numpy's [randint(low, high)] draws from [low, high), every city
    that [_generate_city_connection_points] sets up has an orientation [d]
    in 0..3 and four sides; sides [d] and [(d + 2) % 4] both get the same
    even number [nr] of inner connection points, with
    [2 <= nr <= 2 * rail_pairs_in_city] ([nr = randint(1,
    rail_pairs_in_city + 1) * 2]), and the other two sides get none. *)
Theorem connection_sides (gm : bool) (height width : Z) (city_positions : list cell)
        (city_radius : Z) (vector_field : vfield) (rp : Z) (st : RS) :
  (forall st low high, low < high -> low <= fst (rs_randint st low high) < high) ->
  match generate_city_connection_points rs_randint align_cell_to_city gm height width city_positions
          city_radius vector_field rp st with
  | Ok (inner, _, city_orientations, _, _, _) =>
      length inner = length city_positions /\
      length city_orientations = length city_positions /\
      forall k sides d,
        nth_error inner k = Some sides -> nth_error city_orientations k = Some d ->
        0 <= d < 4 /\ length sides = 4%nat /\
        exists nr, 2 <= nr <= 2 * rp /\ Z.even nr = true /\
          forall s, 0 <= s < 4 ->
            Z.of_nat (length (nth (Z.to_nat s) sides [])) =
              (if (s =? d) || (s =? (d + 2) mod 4) then nr else 0)
  | Raise _ => True
  end.
Proof.
  intros Hrange.
  destruct (generate_city_connection_points _ _ _ _ _ _ _ _ _ _) as
    [[[[[[inner outer] orients] cells] vf] st']|e] eqn:E; [|exact I].
  set (P := fun (pre : list cell) (t : @conn_acc RS) =>
              let '(inner, _, orients, _, _, _) := t in
              length inner = length pre /\ length orients = length pre /\
              forall k sides d, nth_error inner k = Some sides -> nth_error orients k = Some d ->
                sides_ok rp d sides).
  assert (HP : P ([] ++ city_positions) (inner, outer, orients, cells, vf, st')).
  { unfold generate_city_connection_points in E.
    eapply (fold_left_result_ind _ P); [ | | | exact E].
    - reflexivity.
    - simpl. split; [reflexivity|]. split; [reflexivity|].
      intros k sides d Hk. destruct k; discriminate.
    - intros pre' x t t' _ Ht Hstep.
      pose proof (city_connection_step_sides Hrange _ _ _ _ _ _ _ _ _ Hstep) as Hs.
      destruct t as [[[[[i1 o1] or1] c1] v1] s1].
      destruct t' as [[[[[i2 o2] or2] c2] v2] s2].
      destruct Hs as [sides [d [-> [-> Hok]]]].
      destruct Ht as [Hl1 [Hl2 Hall]].
      simpl. rewrite !length_app, Hl1, Hl2. split; [reflexivity|]. split; [reflexivity|].
      intros k sides' d' Hk1 Hk2.
      destruct (Nat.ltb_spec k (length i1)).
      + rewrite nth_error_app1 in Hk1 by lia. rewrite nth_error_app1 in Hk2 by lia.
        eapply Hall; eauto.
      + assert (Hk : (k < length (i1 ++ [sides]))%nat) by (apply nth_error_Some; congruence).
        rewrite length_app in Hk. simpl in Hk. assert (k = length i1) by lia.
        subst k. rewrite nth_error_app2, Nat.sub_diag in Hk1 by lia.
        rewrite Hl1, <- Hl2, nth_error_app2, Nat.sub_diag in Hk2 by lia.
        simpl in Hk1, Hk2. inversion Hk1; inversion Hk2; subst. exact Hok. }
  destruct HP as [Hl1 [Hl2 Hall]]. simpl in Hl1, Hl2.
  split; [exact Hl1|]. split; [exact Hl2|]. exact Hall.
Qed.

(** ** Routing failures in [_connect_cities] *)

Lemma same_outcome_bind {A B C D} (R : A -> B -> Prop) (R' : C -> D -> Prop)
      (m1 : result A) (m2 : result B) (k1 : A -> result C) (k2 : B -> result D) :
  same_outcome R m1 m2 -> (forall a b, R a b -> same_outcome R' (k1 a) (k2 b)) ->
  same_outcome R' (bind m1 k1) (bind m2 k2).
Proof. destruct m1, m2; simpl; intros; subst; auto; contradiction. Qed.

Lemma fold_left_same_outcome {A S1 S2} (R : S1 -> S2 -> Prop)
      (F1 : result S1 -> A -> result S1) (F2 : result S2 -> A -> result S2)
      (l : list A) (init1 : result S1) (init2 : result S2) :
  (forall acc1 acc2 x, same_outcome R acc1 acc2 -> same_outcome R (F1 acc1 x) (F2 acc2 x)) ->
  same_outcome R init1 init2 -> same_outcome R (fold_left F1 l init1) (fold_left F2 l init2).
Proof. intros HF. revert init1 init2. induction l; simpl; auto. Qed.

Lemma skel_add_line (router : GridMap -> cell -> cell -> list cell -> list cell * GridMap)
      (city_cells : list cell) (L : @cc_locals GridMap) (start goal : cell) :
  cc_skeleton (add_line router city_cells L start goal) = cc_skeleton L.
Proof. unfold add_line. destruct (router _ _ _ _). reflexivity. Qed.

Lemma skel_append_connection (L1 L2 : @cc_locals GridMap) (pc : Z * Z) :
  cc_skeleton L1 = cc_skeleton L2 ->
  cc_skeleton (append_connection L1 pc) = cc_skeleton (append_connection L2 pc).
Proof. destruct L1, L2. simpl. intros H. inversion H. reflexivity. Qed.

Lemma skel_set_i (L1 L2 : @cc_locals GridMap) (i : Z) :
  cc_skeleton L1 = cc_skeleton L2 -> cc_skeleton (set_i L1 i) = cc_skeleton (set_i L2 i).
Proof. destruct L1, L2. simpl. intros H. inversion H. reflexivity. Qed.

Ltac same_tac :=
  repeat (cbn [bind]; match goal with
    | |- same_outcome _ (Ok _) (Ok _) => simpl
    | |- same_outcome _ (Raise _) (Raise _) => reflexivity
    | |- same_outcome _ (bind ?m _) (bind ?m _) => destruct m
    | |- same_outcome _ (if ?b then _ else _) (if ?b then _ else _) => destruct b
    | |- same_outcome _ (match ?x with _ => _ end) (match ?x with _ => _ end) => destruct x
    end).

Lemma even_step_skel (cci : Z) (pos : cell) (cps : list cell) (cni : list nat) (k : Z)
      (cp_copy : list (list (list cell))) (out_point : cell) (L1 L2 : @cc_locals GridMap) :
  cc_skeleton L1 = cc_skeleton L2 ->
  same_outcome (fun a b => cc_skeleton (fst a) = cc_skeleton (fst b) /\ snd a = snd b)
    (even_step cci pos cps cni k cp_copy out_point L1)
    (even_step cci pos cps cni k cp_copy out_point L2).
Proof.
  destruct L1, L2. simpl. intros H. inversion H; subst.
  unfold even_step. cbn [set_of_connections loop_i neighbour_connection_point current_direction
    neighbour_index_for_connection possible_connection city_direction
    next_neighbour_connection_point last_city_out_connection_point all_paths cc_grid_map cc_warnings].
  same_tac; auto.
Qed.

Lemma odd_step_skel (router1 router2 : GridMap -> cell -> cell -> list cell -> list cell * GridMap)
      (city_cells : list cell) (out_point : cell) (L1 L2 : @cc_locals GridMap) :
  cc_skeleton L1 = cc_skeleton L2 ->
  same_outcome (fun a b => cc_skeleton a = cc_skeleton b)
    (odd_step router1 city_cells out_point L1) (odd_step router2 city_cells out_point L2).
Proof.
  intros H. assert (H' := H). destruct L1, L2. simpl in H'. inversion H'; subst.
  unfold odd_step. cbn [city_direction neighbour_connection_point last_city_out_connection_point
    next_neighbour_connection_point possible_connection].
  same_tac; rewrite ?skel_add_line; try apply skel_append_connection;
    rewrite ?skel_add_line; exact H.
Qed.

Lemma connection_pass_skel (router1 router2 : GridMap -> cell -> cell -> list cell -> list cell * GridMap)
      (city_cells : list cell) (cci : Z) (pos : cell) (cps : list cell) (cni : list nat) (k : Z)
      (points : list cell) (cp_copy : list (list (list cell))) (L1 L2 : @cc_locals GridMap) :
  cc_skeleton L1 = cc_skeleton L2 ->
  same_outcome (fun a b => cc_skeleton a = cc_skeleton b)
    (connection_pass router1 city_cells cci pos cps cni k points cp_copy L1)
    (connection_pass router2 city_cells cci pos cps cni k points cp_copy L2).
Proof.
  revert cp_copy L1 L2. induction points as [|out_point rest IH]; intros cp_copy L1 L2 H; simpl.
  - exact H.
  - assert (Hi : loop_i L1 = loop_i L2) by (destruct L1, L2; simpl in H; now inversion H).
    rewrite Hi. destruct (loop_i L2 mod 2 =? 0).
    + apply same_outcome_bind with (1 := even_step_skel cci pos cps cni k cp_copy out_point L1 L2 H).
      intros [L1' c1] [L2' c2] [Hs Hc]. simpl in Hs, Hc. subst c2.
      assert (Hi' : loop_i L1' = loop_i L2') by (destruct L1', L2'; simpl in Hs; now inversion Hs).
      rewrite Hi'. apply IH. now apply skel_set_i.
    + apply same_outcome_bind with (1 := odd_step_skel router1 router2 city_cells out_point L1 L2 H).
      intros L1' L2' Hs.
      assert (Hi' : loop_i L1' = loop_i L2') by (destruct L1', L2'; simpl in Hs; now inversion Hs).
      rewrite Hi'. apply IH. now apply skel_set_i.
Qed.

Lemma connect_city_skel (router1 router2 : GridMap -> cell -> cell -> list cell -> list cell * GridMap)
      (cps : list cell) (connection_points : list (list (list cell))) (city_cells : list cell)
      (acc1 acc2 : result (@cc_locals GridMap)) (cci : Z) :
  same_outcome (fun a b => cc_skeleton a = cc_skeleton b) acc1 acc2 ->
  same_outcome (fun a b => cc_skeleton a = cc_skeleton b)
    (connect_city router1 cps connection_points city_cells acc1 cci)
    (connect_city router2 cps connection_points city_cells acc2 cci).
Proof.
  intros Hacc. unfold connect_city.
  apply same_outcome_bind with (1 := Hacc). intros L1 L2 HL.
  same_tac.
  apply same_outcome_bind with
    (1 := connection_pass_skel router1 router2 _ _ _ _ _ _ _ _ _ _ (skel_set_i _ _ _ HL)).
  intros L1' L2' HL'. same_tac; [apply connection_pass_skel|]; exact HL'.
Qed.

Lemma connect_cities_same_outcome
      (router1 router2 : GridMap -> cell -> cell -> list cell -> list cell * GridMap)
      (cps : list cell) (connection_points : list (list (list cell))) (city_cells : list cell)
      (grid_map1 grid_map2 : GridMap) :
  same_outcome (fun _ _ => True)
    (connect_cities router1 cps connection_points city_cells grid_map1)
    (connect_cities router2 cps connection_points city_cells grid_map2).
Proof.
  unfold connect_cities.
  apply same_outcome_bind with (R := fun a b => cc_skeleton a = cc_skeleton b); [|intros; exact I].
  apply fold_left_same_outcome; [|reflexivity].
  intros acc1 acc2 x H. now apply connect_city_skel.
Qed.

Lemma cell_eqb_true (a b : cell) : cell_eqb a b = true <-> a = b.
Proof.
  destruct a as [a1 a2], b as [b1 b2]. unfold cell_eqb. simpl.
  rewrite andb_true_iff, !Z.eqb_eq. split; [intros [-> ->]; reflexivity | intros H; now inversion H].
Qed.

(** C8: a routed line gets a warning exactly when it is empty or its first
    or last cell is not the requested start or goal; [add_line] appends
    those warnings and the line and changes no local that steers
    [_connect_cities]; hence whether [_connect_cities] raises, and which
    exception, does not depend on the router: a routing failure never
    raises or aborts the generation. *)
Theorem routing_failures_nonfatal :
  (forall (start goal : cell) (new_line : list cell),
     line_warnings start goal new_line <> [] <->
     new_line = [] \/
     exists first rest, new_line = first :: rest /\ (first <> start \/ last new_line first <> goal)) /\
  (forall (router : GridMap -> cell -> cell -> list cell -> list cell * GridMap)
          (city_cells : list cell) (L : @cc_locals GridMap) (start goal : cell),
     let new_line := fst (router (cc_grid_map L) start goal city_cells) in
     cc_warnings (add_line router city_cells L start goal)
       = cc_warnings L ++ line_warnings start goal new_line /\
     all_paths (add_line router city_cells L start goal) = all_paths L ++ new_line /\
     cc_skeleton (add_line router city_cells L start goal) = cc_skeleton L) /\
  (forall (router1 router2 : GridMap -> cell -> cell -> list cell -> list cell * GridMap)
          (city_positions : list cell) (connection_points : list (list (list cell)))
          (city_cells : list cell) (grid_map1 grid_map2 : GridMap) (e : exn),
     connect_cities router1 city_positions connection_points city_cells grid_map1 = Raise e <->
     connect_cities router2 city_positions connection_points city_cells grid_map2 = Raise e).
Proof.
  split; [|split].
  - intros start goal [|first rest].
    + simpl. split; [intros _; now left | intros _; discriminate].
    + assert (Hiff : forall a b, cell_eqb a b = false <-> a <> b).
      { intros a b. rewrite <- cell_eqb_true. destruct (cell_eqb a b); split; congruence. }
      cbn [line_warnings].
      destruct (cell_eqb (last (first :: rest) first) goal) eqn:E1;
        destruct (cell_eqb first start) eqn:E2; cbn [negb orb].
      * split; [congruence|]. intros [H | [f [r [Hfr Hne]]]]; [discriminate|].
        inversion Hfr; subst f r. apply cell_eqb_true in E1, E2. destruct Hne; contradiction.
      * split; [|discriminate]. intros _. right. exists first, rest.
        split; [reflexivity|]. left. now apply Hiff.
      * split; [|discriminate]. intros _. right. exists first, rest.
        split; [reflexivity|]. right. now apply Hiff.
      * split; [|discriminate]. intros _. right. exists first, rest.
        split; [reflexivity|]. left. now apply Hiff.
  - intros router city_cells L start goal. simpl.
    unfold add_line. destruct (router _ _ _ _) as [new_line gm]. simpl.
    split; [reflexivity|]. split; reflexivity.
  - intros router1 router2 cps cp cc gm1 gm2 e.
    pose proof (connect_cities_same_outcome router1 router2 cps cp cc gm1 gm2) as H.
    destruct (connect_cities router1 _ _ _ _), (connect_cities router2 _ _ _ _);
      simpl in H; try contradiction.
    + split; discriminate.
    + subst. reflexivity.
Qed.

(** ** Separation of the placed cities *)

Lemma random_city_loop_separated (height width p : Z) (k : nat) (g : grid) (cps : list cell)
      (st : RS) (cps' : list cell) (st' : RS) :
  0 <= p ->
  ForallOrdPairs (fun a b => 2 * p + 1 <= chebyshev a b) cps ->
  (forall r c, g r c = true -> 0 <= r < height -> 0 <= c < width ->
               Forall (fun a => 2 * p + 1 <= chebyshev a (r, c)) cps) ->
  random_city_loop rs_randint height width p k g cps st = Ok (cps', st') ->
  ForallOrdPairs (fun a b => 2 * p + 1 <= chebyshev a b) cps'.
Proof.
  intros Hp. revert g cps st. induction k as [|k IH]; intros g cps st Hsep Hg H; simpl in H.
  - inversion H; subst; assumption.
  - destruct (_ =? 0).
    + inversion H; subst; assumption.
    + inv_bind H. destruct a as [point_index st1]. inv_bind H. destruct a as [row col].
      apply py_index_in, np_where_spec in Hm0. destruct Hm0 as [Hgrc [Hrow Hcol]].
      eapply IH; [ | | exact H].
      * apply ForallOrdPairs_snoc; [exact Hsep|]. apply Hg; [exact Hgrc | lia | lia].
      * intros r c Hb Hr Hc. apply block_city_spec in Hb; [| lia | lia | exact Hp | exact Hr | exact Hc].
        destruct Hb as [Hb Hd].
        apply Forall_app; split; [now apply Hg|]. constructor; [exact Hd | constructor].
Qed.

Lemma generate_random_city_positions_separated (num_cities city_radius width height : Z) (st : RS)
      (cps : list cell) (ws : list warning) (st' : RS) :
  0 <= city_radius ->
  generate_random_city_positions rs_randint num_cities city_radius width height st = Ok (cps, ws, st') ->
  separated (2 * city_radius + 3) cps.
Proof.
  unfold generate_random_city_positions. intros Hr H.
  destruct ((height <? 0) || (width <? 0)); [discriminate|].
  inv_bind H. destruct a as [cp st1].
  apply ok_inj in H. inversion H; subst.
  replace (2 * city_radius + 3) with (2 * (city_radius + 1) + 1) by lia.
  apply separated_of_pairs. eapply random_city_loop_separated; [lia | constructor | | exact Hm].
  intros; constructor.
Qed.

(** whatever [clique_retry] keeps is the input or an output of
    [_generate_random_city_positions] *)
Lemma clique_retry_preserves (P : list cell -> Prop) (fuel : nat)
      (num_cities city_radius width height : Z) (cp : list cell) (ws : list warning) (st : RS)
      (cp' : list cell) (ws' : list warning) (st' : RS) :
  P cp ->
  (forall st0 cp0 ws0 st1,
     generate_random_city_positions rs_randint num_cities city_radius width height st0
     = Ok (cp0, ws0, st1) -> P cp0) ->
  clique_retry rs_randint fuel num_cities city_radius width height cp ws st = Some (Ok (cp', ws', st')) ->
  P cp'.
Proof.
  intros HP HG. revert cp ws st HP.
  induction fuel as [|fuel IH]; intros cp ws st HP H; simpl in H; [discriminate|].
  destruct (contains_cliques cp) as [[|]|e]; [ | inversion H; subst; assumption | discriminate].
  destruct (generate_random_city_positions _ _ _ _ _ _) as [[[cp0 ws0] st0]|e] eqn:E; [|discriminate].
  eapply IH; [eapply HG; exact E | exact H].
Qed.

(** C4: in both placement modes, every two distinct city centres returned
    by the placement step of [generate] are at Chebyshev distance
    [max(|row1 - row2|, |col1 - col2|) >= 2 * city_radius + 1]. *)
Theorem city_separation (g : SparseRailGen) (mf city_radius width height : Z) (fuel : nat) (st : RS) :
  0 <= city_radius ->
  match place_cities rs_randint g mf city_radius width height fuel st with
  | Some (Ok (city_positions, _, _)) =>
      forall i j a b, i <> j ->
        nth_error city_positions i = Some a -> nth_error city_positions j = Some b ->
        2 * city_radius + 1 <= Z.max (Z.abs (fst a - fst b)) (Z.abs (snd a - snd b))
  | _ => True
  end.
Proof.
  intros Hr.
  assert (Hev : forall l, generate_evenly_distr_city_positions mf city_radius width height = Ok l ->
                          separated (2 * city_radius + 1) l).
  { intros l E. eapply separated_weaken; [|eapply evenly_distr_separated; eauto]. lia. }
  assert (Hrand : forall st0 cp0 ws0 st1,
            generate_random_city_positions rs_randint mf city_radius width height st0 = Ok (cp0, ws0, st1) ->
            separated (2 * city_radius + 1) cp0).
  { intros st0 cp0 ws0 st1 E. eapply separated_weaken;
      [|eapply generate_random_city_positions_separated; eauto]. lia. }
  unfold place_cities. cbv zeta.
  destruct (grid_mode g).
  - destruct (generate_evenly_distr_city_positions mf city_radius width height) as [cp|e] eqn:E;
      simpl; [|exact I].
    destruct (Z.of_nat (length cp) <? 2); simpl.
    + exact (Hev cp eq_refl).
    + exact (Hev cp eq_refl).
  - destruct (generate_random_city_positions rs_randint mf city_radius width height st)
      as [[[cp ws] st1]|e] eqn:E; [|exact I].
    assert (Hcp : separated (2 * city_radius + 1) cp) by (eapply Hrand; exact E).
    destruct (4 <? max_num_cities g).
    + destruct (clique_retry rs_randint fuel mf city_radius width height cp ws st1)
        as [[[[cp' ws'] st']|e]|] eqn:Ec; trivial.
      assert (Hcp' : separated (2 * city_radius + 1) cp')
        by (eapply (clique_retry_preserves (separated (2 * city_radius + 1))); eauto).
      destruct (Z.of_nat (length cp') <? 2); [|exact Hcp'].
      destruct (generate_evenly_distr_city_positions mf city_radius width height) as [l|e] eqn:E2;
        simpl; [exact (Hev l eq_refl) | exact I].
    + destruct (Z.of_nat (length cp) <? 2); [|exact Hcp].
      destruct (generate_evenly_distr_city_positions mf city_radius width height) as [l|e] eqn:E2;
        simpl; [exact (Hev l eq_refl) | exact I].
Qed.

(** C9 (amended): when the allowed mask runs out before [num_cities]
    centres are drawn, [_generate_random_city_positions] stops, warns with
    the created and requested counts and returns the centres drawn so far.
    With at most 4 cities requested, [generate] keeps that list when it has
    at least 2 centres; with fewer it warns again and replaces the list by
    the evenly spaced positions. *)
Theorem not_all_cities_fallback (g : SparseRailGen) (mf city_radius width height : Z) (fuel : nat)
        (st : RS) (cps : list cell) (ws : list warning) (st' : RS) :
  grid_mode g = false -> max_num_cities g <= 4 ->
  generate_random_city_positions rs_randint mf city_radius width height st = Ok (cps, ws, st') ->
  ws = (if Z.of_nat (length cps) <? mf then [W_not_all_cities (Z.of_nat (length cps)) mf] else []) /\
  place_cities rs_randint g mf city_radius width height fuel st =
    Some (if Z.of_nat (length cps) <? 2
          then (cp' <- generate_evenly_distr_city_positions mf city_radius width height ;;
                Ok (cp', ws ++ [W_grid_mode], st'))
          else Ok (cps, ws, st')).
Proof.
  intros Hgrid Hmax H. split.
  - unfold generate_random_city_positions in H.
    destruct ((height <? 0) || (width <? 0)); [discriminate|].
    inv_bind H. destruct a as [cp st1].
    apply ok_inj in H. inversion H; subst. reflexivity.
  - unfold place_cities. cbv zeta. rewrite Hgrid, H.
    replace (4 <? max_num_cities g) with false by lia.
    destruct (Z.of_nat (length cps) <? 2); reflexivity.
Qed.

(** ** Placement on a 53 x 12 map *)

Section PlacementLoop.

Hypothesis randint_range : forall st low high, low < high -> low <= fst (rs_randint st low high) < high.

Lemma random_city_loop_ok (height width p : Z) (k : nat) (g : grid) (cps : list cell) (st : RS) :
  exists cps' st', random_city_loop rs_randint height width p k g cps st = Ok (cps', st').
Proof.
  revert g cps st. induction k as [|k IH]; intros g cps st; cbn [random_city_loop]; [eauto|].
  set (n := Z.of_nat (length (np_where height width g))).
  destruct (Z.eqb_spec n 0) as [|Hne]; [eauto|].
  unfold randint. destruct (Z.leb_spec n 0); [lia|].
  pose proof (randint_range st 0 n ltac:(lia)) as Hr.
  destruct (rs_randint st 0 n) as [pi st1] eqn:E. simpl in Hr.
  destruct (py_index_ok (np_where height width g) pi ltac:(unfold n in Hr; lia)) as [[row col] [Hpy _]].
  cbn [bind]. rewrite Hpy. cbn [bind]. apply IH.
Qed.

Lemma random_city_loop_spec (height width p : Z) (k : nat) (g : grid) (cps : list cell) (st : RS)
      (cps' : list cell) (st' : RS) :
  (forall r c, g r c = init_allowed_grid height width p r c &&
                       forallb (fun pc => block_city height width (fun _ _ => true) (fst pc) (snd pc) p r c) cps) ->
  Forall (fun pc => init_allowed_grid height width p (fst pc) (snd pc) = true) cps ->
  random_city_loop rs_randint height width p k g cps st = Ok (cps', st') ->
  Forall (fun pc => init_allowed_grid height width p (fst pc) (snd pc) = true) cps' /\
  (length cps' = (length cps + k)%nat \/
   forall r c, 0 <= r < height -> 0 <= c < width ->
     init_allowed_grid height width p r c &&
     forallb (fun pc => block_city height width (fun _ _ => true) (fst pc) (snd pc) p r c) cps' = false).
Proof.
  revert g cps st. induction k as [|k IH]; intros g cps st Hg Hin H; cbn [random_city_loop] in H.
  - inversion H; subst. split; [exact Hin | left; lia].
  - destruct (Z.eqb_spec (Z.of_nat (length (np_where height width g))) 0) as [Hz|Hz].
    + inversion H; subst. split; [exact Hin | right].
      intros r c Hr Hc. rewrite <- Hg.
      destruct (g r c) eqn:E; [|reflexivity].
      pose proof (np_where_complete height width g r c E Hr Hc) as Hw.
      destruct (np_where height width g); [contradiction | simpl in Hz; lia].
    + inv_bind H. destruct a as [point_index st1]. inv_bind H. destruct a as [row col].
      apply py_index_in, np_where_spec in Hm0. destruct Hm0 as [Hgrc _].
      rewrite Hg in Hgrc. apply andb_true_iff in Hgrc. destruct Hgrc as [Hinit _].
      assert (Hg' : forall r c, block_city height width g row col p r c =
                      init_allowed_grid height width p r c &&
                      forallb (fun pc => block_city height width (fun _ _ => true) (fst pc) (snd pc) p r c)
                              (cps ++ [(row, col)])).
      { intros r c.
        change (block_city height width g row col p r c)
          with (g r c && block_city height width (fun _ _ => true) row col p r c).
        rewrite Hg, forallb_app. cbn [forallb fst snd].
        rewrite andb_true_r, andb_assoc. reflexivity. }
      assert (Hin' : Forall (fun pc => init_allowed_grid height width p (fst pc) (snd pc) = true)
                            (cps ++ [(row, col)])).
      { apply Forall_app. split; [exact Hin | constructor; [exact Hinit | constructor]]. }
      destruct (IH _ _ _ Hg' Hin' H) as [Hf Hlen].
      split; [exact Hf|]. rewrite length_app in Hlen. simpl in Hlen.
      destruct Hlen as [Hlen|Hlen]; [left; lia | right; exact Hlen].
Qed.

(** on a 53 x 12 map with [city_radius = 4] every random placement puts 3
    or 4 cities on rows 5 and 6, at least 11 columns apart, and
    [contains_cliques] reports a clique for them *)
Lemma placement_53x12_cliques (st : RS) (cps : list cell) (ws : list warning) (st' : RS) :
  generate_random_city_positions rs_randint 5 4 53 12 st = Ok (cps, ws, st') ->
  contains_cliques cps = Ok true.
Proof.
  intros H. pose proof (generate_random_city_positions_separated 5 4 53 12 st cps ws st' ltac:(lia) H) as Hsep.
  unfold generate_random_city_positions in H. cbn [Z.ltb Z.compare orb] in H.
  inv_bind H. destruct a as [cp st1].
  apply ok_inj in H. inversion H; subst cp. clear H.
  apply random_city_loop_spec in Hm; [| intros r c; simpl; rewrite andb_true_r; reflexivity | constructor].
  destruct Hm as [Hin Hlen].
  assert (Hb : forall pc, In pc cps -> 5 <= fst pc <= 6 /\ 5 <= snd pc <= 47).
  { intros pc Hpc. rewrite Forall_forall in Hin. apply Hin, init_allowed_grid_bounds in Hpc; lia. }
  assert (Hcol : forall i j a b, i <> j -> nth_error cps i = Some a -> nth_error cps j = Some b ->
                 11 <= Z.abs (snd a - snd b)).
  { intros i j a b Hij Hi Hj. pose proof (Hsep i j a b Hij Hi Hj) as Hc.
    apply nth_error_In in Hi, Hj. apply Hb in Hi, Hj. unfold chebyshev in Hc. lia. }
  assert (Hle : (length cps <= 4)%nat).
  { set (bin := fun pc : cell => Z.to_nat ((snd pc - 5) / 11)).
    assert (Hnd : NoDup (map bin cps)).
    { apply NoDup_nth_error. intros i j Hi Hij. rewrite length_map in Hi.
      rewrite !nth_error_map in Hij.
      destruct (nth_error cps i) as [a|] eqn:Ea; [|apply nth_error_None in Ea; lia].
      destruct (nth_error cps j) as [b|] eqn:Eb; simpl in Hij; [|discriminate].
      injection Hij as Hij. destruct (Nat.eq_dec i j) as [|Hne]; [assumption|exfalso].
      pose proof (Hcol i j a b Hne Ea Eb). apply nth_error_In in Ea, Eb. apply Hb in Ea, Eb.
      unfold bin in Hij.
      assert (0 <= (snd a - 5) / 11) by (apply Z.div_pos; lia).
      assert (0 <= (snd b - 5) / 11) by (apply Z.div_pos; lia).
      assert (Hq : (snd a - 5) / 11 = (snd b - 5) / 11) by lia.
      pose proof (Z.div_mod (snd a - 5) 11 ltac:(lia)).
      pose proof (Z.div_mod (snd b - 5) 11 ltac:(lia)).
      pose proof (Z.mod_pos_bound (snd a - 5) 11 ltac:(lia)).
      pose proof (Z.mod_pos_bound (snd b - 5) 11 ltac:(lia)).
      lia. }
    assert (Hincl : incl (map bin cps) (seq 0 4)).
    { intros x Hx. apply in_map_iff in Hx. destruct Hx as [pc [<- Hpc]].
      apply Hb in Hpc. apply in_seq. unfold bin.
      assert ((snd pc - 5) / 11 < 4) by (apply Z.div_lt_upper_bound; lia).
      assert (0 <= (snd pc - 5) / 11) by (apply Z.div_pos; lia). lia. }
    pose proof (NoDup_incl_length Hnd Hincl) as Hl.
    rewrite length_map, length_seq in Hl. exact Hl. }
  destruct Hlen as [Hlen|Hcov]; [simpl in Hlen; lia|].
  assert (Hcover : forall c, 5 <= c <= 47 ->
            exists pc, In pc cps /\ Z.max 0 (snd pc - 2 * (4 + 1)) <= c < snd pc + 2 * (4 + 1) + 1).
  { intros c Hc. specialize (Hcov 5 c ltac:(lia) ltac:(lia)).
    rewrite (proj2 (init_allowed_grid_spec 12 53 (4 + 1) 5 c ltac:(lia) ltac:(lia) ltac:(lia)))
      in Hcov by lia.
    apply forallb_false_exists in Hcov. destruct Hcov as [pc [Hpc Hbl]].
    pose proof (Hb pc Hpc) as Hbpc.
    apply block_city_blocked in Hbl; [| lia | lia | lia | lia | lia].
    exists pc. split; [exact Hpc | lia]. }
  destruct (Hcover 5) as [pa [Ha Hca]]; [lia|].
  destruct (Hcover 26) as [pb [Hpb Hcb]]; [lia|].
  destruct (Hcover 47) as [pc [Hpc Hcc]]; [lia|].
  assert (Hge : (3 <= length cps)%nat).
  { pose proof (Hb pa Ha). pose proof (Hb pb Hpb). pose proof (Hb pc Hpc).
    assert (pa <> pb) by (intros ->; lia). assert (pa <> pc) by (intros ->; lia).
    assert (pb <> pc) by (intros ->; lia).
    change 3%nat with (length [pa; pb; pc]). apply NoDup_incl_length.
    - constructor; [simpl; intros [E|[E|[]]]; congruence|].
      constructor; [simpl; intros [E|[]]; congruence|].
      constructor; [simpl; tauto | constructor].
    - intros x [<-|[<-|[<-|[]]]]; assumption. }
  destruct (Nat.eq_dec (length cps) 3) as [Hthree|Hthree].
  - now apply contains_cliques_three.
  - apply contains_cliques_four; [lia| |].
    + intros i Hi. apply Hb, nth_In. lia.
    + intros i j Hi Hj Hij. apply (Hcol i j); [exact Hij | |]; apply nth_error_nth'; lia.
Qed.

Lemma placement_53x12_attempt (st : RS) :
  exists cps ws st', generate_random_city_positions rs_randint 5 4 53 12 st = Ok (cps, ws, st') /\
                     contains_cliques cps = Ok true.
Proof.
  destruct (random_city_loop_ok 12 53 (4 + 1) (Z.to_nat 5) (init_allowed_grid 12 53 (4 + 1)) [] st)
    as [cp [st1 E]].
  assert (Hg : generate_random_city_positions rs_randint 5 4 53 12 st
               = Ok (cp, (if Z.of_nat (length cp) <? 5
                          then [W_not_all_cities (Z.of_nat (length cp)) 5] else []), st1))
    by (unfold generate_random_city_positions; rewrite E; reflexivity).
  do 3 eexists. split; [exact Hg|]. eapply placement_53x12_cliques; exact Hg.
Qed.

Lemma clique_retry_forever (fuel : nat) (mf city_radius width height : Z) (cp : list cell)
      (ws : list warning) (st : RS) :
  (forall st0, exists cps ws0 st1,
     generate_random_city_positions rs_randint mf city_radius width height st0 = Ok (cps, ws0, st1) /\
     contains_cliques cps = Ok true) ->
  contains_cliques cp = Ok true ->
  clique_retry rs_randint fuel mf city_radius width height cp ws st = None.
Proof.
  intros Hall. revert cp ws st. induction fuel as [|fuel IH]; intros cp ws st Hc; simpl; [reflexivity|].
  rewrite Hc. destruct (Hall st) as [cps [ws0 [st1 [E Hc']]]]. rewrite E. now apply IH.
Qed.

(** C3 (amended): in random mode with more than 4 cities the placement is
    redone while [contains_cliques] reports a clique, and nothing bounds
    the number of attempts: with [max_num_cities >= 5] and
    [max_rail_pairs_in_city = 2] on a 53 x 12 map every placement reports
    a clique, so [generate] does not return for any random state, once
    [RandomState] has accepted the seed. *)
Theorem placement_retry_unbounded (g : SparseRailGen) (num_agents num_resets : Z)
        (np_random : option RS) (global_rs : RS) (fuel : nat) :
  valid_seed g = true ->
  grid_mode g = false -> 5 <= max_num_cities g -> max_rail_pairs_in_city g = 2 ->
  (forall st, exists cps ws st',
     generate_random_city_positions rs_randint (max_feasible_cities g 53 12) (city_radius g) 53 12 st
       = Ok (cps, ws, st') /\ contains_cliques cps = Ok true) /\
  sparse_generate g 53 12 num_agents num_resets np_random global_rs fuel = None.
Proof.
  intros Hs Hgrid Hmax Hrp.
  assert (Hr : city_radius g = 4) by (unfold city_radius, rail_pairs_in_city; rewrite Hrp; reflexivity).
  assert (Hmf : max_feasible_cities g 53 12 = 5).
  { unfold max_feasible_cities. rewrite Hr.
    replace ((12 - 2) / (2 * (4 + 1)) * ((53 - 2) / (2 * (4 + 1)))) with 5 by reflexivity. lia. }
  rewrite Hmf, Hr. split; [exact placement_53x12_attempt|].
  unfold generate.
  destruct (init_np_random rs_randint RandomState g np_random global_rs) as [st0|e] eqn:Ei.
  2:{ exfalso. unfold init_np_random, valid_seed in *.
      destruct (seed g) as [s|]; [rewrite Hs in Ei|destruct np_random]; discriminate. }
  cbv zeta. rewrite Hmf, Hr.
  change ((12 <? 0) || (53 <? 0)) with false. change (5 <? 2) with false. cbv iota beta.
  unfold place_cities. rewrite Hgrid.
  match goal with
  | |- context [generate_random_city_positions _ _ _ _ _ ?st] =>
      destruct (placement_53x12_attempt st) as [cps [ws [st' [E Hc]]]]
  end.
  rewrite E.
  replace (4 <? max_num_cities g) with true by lia.
  rewrite clique_retry_forever by (exact placement_53x12_attempt || exact Hc).
  reflexivity.
Qed.

End PlacementLoop.

End RailFacts.

(** ** Examples for the facts above *)

Module RailExamples.
Import Examples.

Lemma lcg_randint_range (st low high : Z) :
  low < high -> low <= fst (lcg_randint st low high) < high.
Proof.
  intros H. unfold lcg_randint. simpl.
  pose proof (Z.mod_pos_bound st (high - low) ltac:(lia)). lia.
Qed.

Lemma generate_deterministic_witness :
  seed ex_config = Some 1 /\
  generate lcg_randint lcg_RandomState ex_align_cell_to_city ex_GridTransitionMap ex_connect_rail
    ex_connect_straight_line ex_fix_inner_nodes ex_cell_neighbours_valid ex_fix_transitions
    ex_config 60 60 3 0 None 0 10
  = generate lcg_randint lcg_RandomState ex_align_cell_to_city ex_GridTransitionMap ex_connect_rail
    ex_connect_straight_line ex_fix_inner_nodes ex_cell_neighbours_valid ex_fix_transitions
    ex_config 60 60 5 2 (Some 77) 99 10.
Proof.
  split; [reflexivity|].
  apply (generate_deterministic lcg_randint lcg_RandomState ex_align_cell_to_city ex_GridTransitionMap
           ex_connect_rail ex_connect_straight_line ex_fix_inner_nodes ex_cell_neighbours_valid
           ex_fix_transitions ex_config 1). reflexivity.
Defined.

Lemma generate_infeasible_iff_witness :
  valid_seed ex_config = true /\ 0 <= 60 /\ 0 <= 60 /\
  (generate lcg_randint lcg_RandomState ex_align_cell_to_city ex_GridTransitionMap ex_connect_rail
     ex_connect_straight_line ex_fix_inner_nodes ex_cell_neighbours_valid ex_fix_transitions
     ex_config 60 60 3 0 None 0 10 = Some (Raise (ValueError infeasible_msg))
   <-> max_feasible_cities ex_config 60 60 < 2).
Proof.
  split; [reflexivity|]. split; [lia|]. split; [lia|].
  apply (generate_infeasible_iff lcg_randint lcg_RandomState ex_align_cell_to_city ex_GridTransitionMap
           ex_connect_rail ex_connect_straight_line ex_fix_inner_nodes ex_cell_neighbours_valid
           ex_fix_transitions); [reflexivity | lia | lia].
Defined.

Lemma connection_sides_witness :
  (forall st low high, low < high -> low <= fst (lcg_randint st low high) < high) /\
  match generate_city_connection_points lcg_randint ex_align_cell_to_city false 31 31
          [(6, 6); (25, 6); (6, 25); (25, 25)] 4 (fun _ _ => -1) 2 1 with
  | Ok (inner, _, city_orientations, _, _, _) =>
      length inner = length [(6, 6); (25, 6); (6, 25); (25, 25)] /\
      length city_orientations = length [(6, 6); (25, 6); (6, 25); (25, 25)] /\
      forall k sides d,
        nth_error inner k = Some sides -> nth_error city_orientations k = Some d ->
        0 <= d < 4 /\ length sides = 4%nat /\
        exists nr, 2 <= nr <= 2 * 2 /\ Z.even nr = true /\
          forall s, 0 <= s < 4 ->
            Z.of_nat (length (nth (Z.to_nat s) sides [])) =
              (if (s =? d) || (s =? (d + 2) mod 4) then nr else 0)
  | Raise _ => True
  end.
Proof.
  split; [exact lcg_randint_range|].
  apply (connection_sides lcg_randint ex_align_cell_to_city). exact lcg_randint_range.
Defined.

Lemma city_separation_witness :
  0 <= 4 /\
  match place_cities lcg_randint ex_config 4 4 60 60 10 1 with
  | Some (Ok (city_positions, _, _)) =>
      forall i j a b, i <> j ->
        nth_error city_positions i = Some a -> nth_error city_positions j = Some b ->
        2 * 4 + 1 <= Z.max (Z.abs (fst a - fst b)) (Z.abs (snd a - snd b))
  | _ => True
  end.
Proof.
  split; [lia|].
  apply (city_separation lcg_randint). lia.
Defined.

(** C9: with the state 220, the random placement on a 31 x 31 map fits
    one city of the four requested; [generate] does not go on with it but
    places four evenly spaced cities instead. *)
Lemma not_all_cities_replaced :
  max_feasible_cities ex_config 31 31 = 4 /\ city_radius ex_config = 4 /\
  generate_random_city_positions lcg_randint 4 4 31 31 220
    = Ok ([(15, 15)], [W_not_all_cities 1 4], 107714021) /\
  place_cities lcg_randint ex_config 4 4 31 31 10 220
    = Some (Ok ([(6, 6); (25, 6); (6, 25); (25, 25)], [W_not_all_cities 1 4; W_grid_mode], 107714021)).
Proof. vm_compute. repeat split. Qed.

Lemma not_all_cities_fallback_witness :
  grid_mode ex_config = false /\ max_num_cities ex_config <= 4 /\
  generate_random_city_positions lcg_randint 4 4 31 31 220
    = Ok ([(15, 15)], [W_not_all_cities 1 4], 107714021) /\
  ([W_not_all_cities 1 4] =
     (if Z.of_nat (length [(15, 15)]) <? 4 then [W_not_all_cities (Z.of_nat (length [(15, 15)])) 4] else []) /\
   place_cities lcg_randint ex_config 4 4 31 31 10 220 =
     Some (if Z.of_nat (length [(15, 15)]) <? 2
           then (cp' <- generate_evenly_distr_city_positions 4 4 31 31 ;;
                 Ok (cp', [W_not_all_cities 1 4] ++ [W_grid_mode], 107714021))
           else Ok ([(15, 15)], [W_not_all_cities 1 4], 107714021))).
Proof.
  split; [reflexivity|]. split; [unfold max_num_cities, ex_config; lia|].
  split; [vm_compute; reflexivity|].
  apply (not_all_cities_fallback lcg_randint); [reflexivity | unfold max_num_cities, ex_config; lia |].
  vm_compute. reflexivity.
Defined.

(** C3: with five cities requested on a 53 x 12 map, fifty clique tests
    pass without [generate] getting past the placement. *)
Lemma placement_retry_example :
  generate lcg_randint lcg_RandomState ex_align_cell_to_city ex_GridTransitionMap ex_connect_rail
    ex_connect_straight_line ex_fix_inner_nodes ex_cell_neighbours_valid ex_fix_transitions
    (mkSparseRailGen 5 false 2 2 (Some 1)) 53 12 3 0 None 0 50 = None.
Proof. vm_compute. reflexivity. Qed.

Lemma placement_retry_unbounded_witness :
  (forall st low high, low < high -> low <= fst (lcg_randint st low high) < high) /\
  valid_seed (mkSparseRailGen 5 false 2 2 (Some 1)) = true /\
  grid_mode (mkSparseRailGen 5 false 2 2 (Some 1)) = false /\
  5 <= max_num_cities (mkSparseRailGen 5 false 2 2 (Some 1)) /\
  max_rail_pairs_in_city (mkSparseRailGen 5 false 2 2 (Some 1)) = 2 /\
  ((forall st, exists cps ws st',
      generate_random_city_positions lcg_randint
        (max_feasible_cities (mkSparseRailGen 5 false 2 2 (Some 1)) 53 12)
        (city_radius (mkSparseRailGen 5 false 2 2 (Some 1))) 53 12 st = Ok (cps, ws, st') /\
      contains_cliques cps = Ok true) /\
   generate lcg_randint lcg_RandomState ex_align_cell_to_city ex_GridTransitionMap ex_connect_rail
     ex_connect_straight_line ex_fix_inner_nodes ex_cell_neighbours_valid ex_fix_transitions
     (mkSparseRailGen 5 false 2 2 (Some 1)) 53 12 3 0 None 0 1000 = None).
Proof.
  split; [exact lcg_randint_range|]. split; [reflexivity|].
  split; [reflexivity|]. split; [simpl; lia|]. split; [reflexivity|].
  apply (placement_retry_unbounded lcg_randint lcg_RandomState ex_align_cell_to_city ex_GridTransitionMap
           ex_connect_rail ex_connect_straight_line ex_fix_inner_nodes ex_cell_neighbours_valid
           ex_fix_transitions lcg_randint_range); [reflexivity | reflexivity | simpl; lia | reflexivity].
Defined.

End RailExamples.

(** ** The other malfunction generators *)

Module MalfunctionGeneratorFacts.
Import Malfunction MalfunctionGenerators.

Lemma Qlt_bool_nonneg (x : Q) : (0 <= x)%Q -> Qlt_bool x 0 = false.
Proof.
  intros H. unfold Qlt_bool. apply Qle_bool_iff in H. now rewrite H.
Qed.

Lemma malfunction_prob_nonpos (np_exp : Q -> Q) (rate : Q) :
  (rate <= 0)%Q -> malfunction_prob np_exp rate = 0%Q.
Proof.
  intros H. unfold malfunction_prob. apply Qle_bool_iff in H. now rewrite H.
Qed.

Lemma single_malfunction_run_after (e d : Z) (s : SState) (agents : list SAgent) :
  0 < global_nr_malfunctions s ->
  Forall (fun n => n = 0) (single_malfunction_run e d s (map (fun a => (a, false)) agents)).
Proof.
  intros H. induction agents as [|a rest IH]; simpl; [constructor|].
  unfold single_malfunction_step. simpl.
  replace (0 <? global_nr_malfunctions s) with true by (symmetry; apply Z.ltb_lt; exact H).
  constructor; [reflexivity | exact IH].
Qed.

Section Facts.

Context {RS : Type} (random_sample3 : RS -> (Q * Q * Q) * RS) (rand : RS -> Q * RS).
Context (rs_randint : RS -> Z -> Z -> Z * RS) (np_exp : Q -> Q).
Context {DistanceMap : Type} (get_travel_time_on_shortest_path : EnvAgent -> DistanceMap -> nat).

(** X1: [NoMalfunctionGen] still breaks agents.  [ParamMalfunctionGen.generate]
    never reads [self.MFP], so the generator whose process data reports a
    malfunction rate of 0 gives an agent standing on its initial position
    2 to 50 broken steps whenever the second random sample is below 0.05. *)
Theorem no_malfunction_gen_breaks (distance_map : DistanceMap) (np_random : RS) (agent : EnvAgent)
        (p : cell) (r0 r1 r2 : Q) (st : RS) :
  random_sample3 np_random = ((r0, r1, r2), st) ->
  position agent = Some p -> initial_position agent = Some p ->
  Qlt_bool r1 (5 # 100) = true ->
  malfunction_rate (get_process_data NoMalfunctionGen) = 0%Q /\
  2 <= fst (ParamMalfunctionGen_generate random_sample3 np_exp get_travel_time_on_shortest_path
              NoMalfunctionGen distance_map np_random agent) <= 50.
Proof.
  intros Hrs Hpos Hinit Hr1. split; [reflexivity|].
  unfold ParamMalfunctionGen_generate, generate. rewrite Hrs, Hpos, Hinit.
  cbn [option_cell_eqb]. unfold cell_eqb. rewrite !Z.eqb_refl. cbn [andb].
  destruct (Qle_bool 0 r0 && Qle_bool r0 (48 # 100));
    [|destruct (Qlt_bool (48 # 100) r0 && Qle_bool r0 (8 # 10))];
    cbn [fst]; rewrite Hr1;
    apply MalfunctionFacts.delay_search_range; apply Forall_forall; intros x Hx;
    apply In_zrange in Hx; lia.
Qed.

(** X2: [TestMalfunctionGen.generate] draws nothing for an agent whose
    position is [None] and gives it 0 broken steps; for any other agent it
    draws one number and gives 0 broken steps, or draws two numbers and
    gives 2 to 50 broken steps. *)
Theorem test_malfunction_gen_draws (distance_map : DistanceMap) (np_random : RS)
        (initial : option cell) (p : cell) :
  TestMalfunctionGen_generate rand np_exp distance_map np_random (mkEnvAgent None initial)
    = (0, np_random) /\
  let '(n, st') := TestMalfunctionGen_generate rand np_exp distance_map np_random
                     (mkEnvAgent (Some p) initial) in
  (n = 0 /\ st' = snd (rand np_random)) \/
  (2 <= n <= 50 /\ st' = snd (rand (snd (rand np_random)))).
Proof.
  split; [reflexivity|].
  unfold TestMalfunctionGen_generate. cbn [position].
  destruct (rand np_random) as [x st1] eqn:E1. cbn [snd].
  destruct (Qlt_bool x _); [|left; split; reflexivity].
  destruct (rand st1) as [y st2] eqn:E2. right. split; [|reflexivity].
  apply MalfunctionFacts.delay_search_range. apply Forall_forall. intros i Hi.
  apply In_zrange in Hi. lia.
Qed.

(** X4: with a malfunction rate of at most 0, and [np_random.rand()] in
    [[0, 1)], the generators of [malfunction_from_params] and of
    [malfunction_from_file] never break an agent; the latter also never
    breaks one when the file holds no malfunction data. *)
Theorem zero_rate_never_breaks (rand_nonneg : forall st, (0 <= fst (rand st))%Q)
        (parameters : MalfunctionParameters) (down_counter : Z) (np_random : RS) (reset : bool) :
  (malfunction_rate parameters <= 0)%Q ->
  (exists st', from_params_generator rand rs_randint np_exp parameters np_random reset = Ok (0, st')) /\
  (exists st', from_file_generator rand rs_randint np_exp (Some parameters) down_counter np_random reset
                 = Ok (0, st')) /\
  (exists st', from_file_generator rand rs_randint np_exp None down_counter np_random reset = Ok (0, st')).
Proof.
  intros Hrate.
  assert (Hx : Qlt_bool (fst (rand np_random)) 0 = false) by (apply Qlt_bool_nonneg, rand_nonneg).
  assert (H0 : malfunction_prob np_exp 0 = 0%Q) by (apply malfunction_prob_nonpos; discriminate).
  pose proof (malfunction_prob_nonpos np_exp _ Hrate) as Hp.
  unfold from_params_generator, from_file_generator. cbn zeta.
  destruct reset; [repeat split; eexists; reflexivity|].
  destruct (rand np_random) as [x st1]. cbn [fst] in Hx.
  rewrite Hp, H0, Hx. repeat split; [eexists; reflexivity| |];
    destruct (down_counter <? 1); eexists; reflexivity.
Qed.

(** X5: [malfunction_from_file]'s generator draws exactly as
    [malfunction_from_params]'s and, when a malfunction is drawn, returns
    its duration plus one (or raises the same error); [malfunction_from_params]'s
    durations lie in [[min_duration, max_duration]], so the file
    generator's lie in [[min_duration + 1, max_duration + 1]]. *)
Theorem from_file_duration_shift
        (randint_range : forall st low high, low < high -> low <= fst (rs_randint st low high) < high)
        (parameters : MalfunctionParameters) (down_counter : Z) (np_random : RS) :
  down_counter < 1 ->
  Qlt_bool (fst (rand np_random)) (malfunction_prob np_exp (malfunction_rate parameters)) = true ->
  from_file_generator rand rs_randint np_exp (Some parameters) down_counter np_random false
    = ('(n, st') <- from_params_generator rand rs_randint np_exp parameters np_random false ;;
       Ok (n + 1, st')) /\
  (forall n st', from_params_generator rand rs_randint np_exp parameters np_random false = Ok (n, st') ->
     min_duration parameters <= n <= max_duration parameters).
Proof.
  intros Hdc Hx. unfold from_params_generator, from_file_generator. cbn zeta.
  replace (down_counter <? 1) with true by (symmetry; apply Z.ltb_lt; exact Hdc).
  destruct (rand np_random) as [x st1]. cbn [fst] in Hx. rewrite Hx.
  split; [reflexivity|].
  intros n st' H. unfold randint in H.
  destruct (max_duration parameters + 1 <=? min_duration parameters) eqn:E; [discriminate|].
  apply Z.leb_gt in E. injection H as H.
  pose proof (randint_range st1 (min_duration parameters) (max_duration parameters + 1) E) as Hr.
  rewrite H in Hr. cbn [fst] in Hr. lia.
Qed.

End Facts.

(** X3: between two resets, the generator of [single_malfunction_generator]
    breaks at most one agent: along any sequence of calls without reset,
    at most one call returns a nonzero duration. *)
Theorem single_malfunction_at_most_one (earlierst_malfunction malfunction_duration : Z)
        (agents : list SAgent) :
  (length (filter (fun n => negb (n =? 0)%Z)
             (single_malfunction_run earlierst_malfunction malfunction_duration SState_init
                (map (fun a => (a, false)) agents))) <= 1)%nat.
Proof.
  assert (Hgen : forall s, 0 <= global_nr_malfunctions s ->
    (length (filter (fun n => negb (n =? 0)%Z)
       (single_malfunction_run earlierst_malfunction malfunction_duration s
          (map (fun a => (a, false)) agents))) <= 1)%nat).
  { induction agents as [|a rest IH]; intros s Hs; simpl; [lia|].
    unfold single_malfunction_step. cbn -[Z.ltb].
    destruct (0 <? global_nr_malfunctions s) eqn:Eg.
    - simpl. apply IH. exact Hs.
    - apply Z.ltb_ge in Eg.
      match goal with |- context [if ?c then _ else _] =>
        match c with is_moving_or_stopped _ && _ => destruct c end end.
      + cbn [fst snd].
        pose proof (single_malfunction_run_after earlierst_malfunction malfunction_duration
          (mkSState (global_nr_malfunctions s + 1)
             (fun h => if h =? handle a then Some (match malfunction_calls s (handle a) with
                                                   | Some n => n + 1 | None => 1 end)
                       else malfunction_calls s h)) rest ltac:(simpl; lia)) as Hz.
        assert (Hf : forall l, Forall (fun n => n = 0) l ->
                  filter (fun n => negb (n =? 0)%Z) l = []).
        { induction 1 as [|x l Hx _ IHl]; [reflexivity|]. subst x. simpl. exact IHl. }
        cbn [filter]. rewrite Hf by exact Hz.
        destruct (negb (malfunction_duration =? 0)); simpl; lia.
      + cbn [fst snd filter]. replace (negb (0 =? 0)) with false by reflexivity.
        apply IH. simpl. lia. }
  apply Hgen. simpl. lia.
Qed.

End MalfunctionGeneratorFacts.


(** ** Sorting and neighbour lookups *)

Module NeighbourFacts.

Section Lex.
Variable key : nat -> Z.

Let lex (a b : nat) : Prop := key a < key b \/ (key a = key b /\ (a < b)%nat).

Lemma insert_by_lex (i : nat) (l : list nat) :
  Sorted lex l -> Forall (fun j => (j < i)%nat) l -> Sorted lex (insert_by key i l).
Proof.
  induction l as [|j l IH]; intros Hs Hlt; simpl.
  - repeat constructor.
  - inversion Hs as [|? ? Hl Hhd]; subst. inversion Hlt as [|? ? Hji Hlt']; subst.
    destruct (Z.ltb_spec (key i) (key j)).
    + constructor; [exact Hs | constructor; unfold lex; lia].
    + constructor; [now apply IH|].
      destruct l as [|x l]; simpl; [constructor; unfold lex; lia|].
      inversion Hhd; subst.
      destruct (key i <? key x); constructor; unfold lex in *; lia.
Qed.

Lemma lex_trans : Transitive lex.
Proof. intros a b c; unfold lex; lia. Qed.

End Lex.

Lemma argsort_lex_fold (s : list Z) (k m : nat) (acc : list nat) :
  Sorted (fun a b => nth a s 0 < nth b s 0 \/ (nth a s 0 = nth b s 0 /\ (a < b)%nat)) acc ->
  Forall (fun j => (j < k)%nat) acc ->
  Sorted (fun a b => nth a s 0 < nth b s 0 \/ (nth a s 0 = nth b s 0 /\ (a < b)%nat))
    (fold_left (fun acc i => insert_by (fun k => nth k s 0) i acc) (seq k m) acc).
Proof.
  revert k acc. induction m as [|m IH]; intros k acc Hs Hlt; simpl; [exact Hs|].
  apply IH.
  - apply (insert_by_lex (fun k => nth k s 0)); assumption.
  - eapply Permutation_Forall; [apply Permutation_sym, insert_by_perm|].
    constructor; [lia|]. eapply Forall_impl; [|exact Hlt]. simpl. intros; lia.
Qed.

(** X6: [SparseRailGen.argsort], [sorted(range(len(seq)), key=seq.__getitem__)],
    returns every index of [seq] exactly once, ordered by value; the sort
    is stable, so equal values keep their indices in increasing order. *)
Theorem argsort_stable (s : list Z) :
  Permutation (argsort s) (seq 0 (length s)) /\
  StronglySorted (fun i j => nth i s 0 < nth j s 0 \/ (nth i s 0 = nth j s 0 /\ (i < j)%nat))
    (argsort s).
Proof.
  split; [apply argsort_perm|].
  apply Sorted_StronglySorted; [exact (lex_trans (fun k => nth k s 0))|].
  apply argsort_lex_fold; constructor.
Qed.

(** X7: [get_closest_neighbour_for_direction] on the four entries of a
    [closest_neighbour] list and a direction in 0..3 never raises; it returns
    the entry of [out_direction] when that is set, an entry of the list in
    any case, and [None] only when all four entries are [None]. *)
Theorem get_closest_neighbour_for_direction_spec (closest_neighbours : list (option nat))
        (out_direction : Z) :
  length closest_neighbours = 4%nat -> 0 <= out_direction < 4 ->
  exists r, get_closest_neighbour_for_direction closest_neighbours out_direction = Ok r /\
    (nth (Z.to_nat out_direction) closest_neighbours None <> None ->
       r = nth (Z.to_nat out_direction) closest_neighbours None) /\
    (r = None <-> Forall (fun o => o = None) closest_neighbours) /\
    (forall m, r = Some m -> In (Some m) closest_neighbours).
Proof.
  intros Hlen Hd.
  destruct closest_neighbours as [|a [|b [|c [|d [|? ?]]]]]; try discriminate.
  assert (Hc : out_direction = 0 \/ out_direction = 1 \/ out_direction = 2 \/ out_direction = 3)
    by lia.
  destruct Hc as [-> | [-> | [-> | ->]]];
    destruct a, b, c, d; unfold get_closest_neighbour_for_direction; simpl;
    eexists; (split; [reflexivity|]);
    (split; [intros Hn; first [reflexivity | congruence] |]);
    (split; [split; intros Hx;
               [ first [discriminate | repeat constructor]
               | repeat match goal with H : Forall _ (_ :: _) |- _ => inversion H; clear H; subst end;
                 first [reflexivity | discriminate] ] |]);
    intros m Hm; first [discriminate | injection Hm as <-; tauto].
Qed.

Lemma StronglySorted_app_rel {A} (R : A -> A -> Prop) (l1 l2 : list A) (a b : A) :
  StronglySorted R (l1 ++ l2) -> In a l1 -> In b l2 -> R a b.
Proof.
  induction l1 as [|x l1 IH]; simpl; intros Hs Ha Hb; [contradiction|].
  inversion Hs as [|? ? Hs' Hall]; subst. destruct Ha as [->|Ha].
  - rewrite Forall_forall in Hall. apply Hall. apply in_or_app. now right.
  - now apply IH.
Qed.

Lemma py_setitem_nth {A} (l : list A) (i : Z) (v x : A) :
  0 <= i < Z.of_nat (length l) ->
  exists l', py_setitem l i v = Ok l' /\ length l' = length l /\
    forall d, nth d l' x = if Nat.eqb d (Z.to_nat i) then v else nth d l x.
Proof.
  intros Hi. unfold py_setitem.
  destruct (Z.ltb_spec i 0); [lia|].
  destruct (Z.leb_spec 0 i), (Z.ltb_spec i (Z.of_nat (length l))); try lia. cbn [andb].
  eexists; split; [reflexivity|]. split.
  - rewrite length_app. cbn [length]. rewrite length_firstn, length_skipn. lia.
  - intros d. destruct (Nat.eqb_spec d (Z.to_nat i)) as [->|Hne].
    + rewrite app_nth2; rewrite length_firstn; [|lia].
      replace (Z.to_nat i - Init.Nat.min (Z.to_nat i) (length l))%nat with 0%nat by lia.
      reflexivity.
    + destruct (Nat.ltb_spec d (Z.to_nat i)).
      * rewrite app_nth1 by (rewrite length_firstn; lia).
        rewrite nth_firstn. destruct (Nat.ltb_spec d (Z.to_nat i)); [reflexivity | lia].
      * rewrite app_nth2; rewrite length_firstn; [|lia].
        replace (d - Init.Nat.min (Z.to_nat i) (length l))%nat
          with (S (d - S (Z.to_nat i)))%nat by lia.
        cbn [nth]. rewrite nth_skipn. f_equal. lia.
Qed.

(** the loop of [_closest_neighbour_in_grid4_directions]: after the indices
    [P] (sorted by distance), entry [d] holds the first of them in
    direction [d], or [None] when none lies in direction [d] *)
Lemma closest_neighbour_loop_spec (pos : cell) (cps : list cell) (R P : list nat)
      (c : list (option nat)) :
  Forall (fun k => (k < length cps)%nat) R ->
  StronglySorted (fun a b => get_manhattan_distance pos (nth a cps (0, 0)) <=
                             get_manhattan_distance pos (nth b cps (0, 0))) (P ++ R) ->
  length c = 4%nat ->
  (forall d, (d < 4)%nat ->
     match nth d c None with
     | Some m => In m P /\ direction_to_point pos (nth m cps (0, 0)) = Z.of_nat d /\
                 forall k, In k P -> direction_to_point pos (nth k cps (0, 0)) = Z.of_nat d ->
                   get_manhattan_distance pos (nth m cps (0, 0)) <=
                   get_manhattan_distance pos (nth k cps (0, 0))
     | None => forall k, In k P -> direction_to_point pos (nth k cps (0, 0)) <> Z.of_nat d
     end) ->
  exists c', closest_neighbour_loop pos cps R c = Ok c' /\ length c' = 4%nat /\
  (forall d, (d < 4)%nat ->
     match nth d c' None with
     | Some m => In m (P ++ R) /\ direction_to_point pos (nth m cps (0, 0)) = Z.of_nat d /\
                 forall k, In k (P ++ R) -> direction_to_point pos (nth k cps (0, 0)) = Z.of_nat d ->
                   get_manhattan_distance pos (nth m cps (0, 0)) <=
                   get_manhattan_distance pos (nth k cps (0, 0))
     | None => forall k, In k (P ++ R) -> direction_to_point pos (nth k cps (0, 0)) <> Z.of_nat d
     end).
Proof.
  revert P c. induction R as [|n rest IH]; intros P c Hlt Hs Hlen Hinv.
  - exists c. rewrite app_nil_r. simpl. auto.
  - inversion Hlt as [|? ? Hn Hlt']; subst. cbn [closest_neighbour_loop].
    rewrite (py_index_nth cps (Z.of_nat n) (0, 0)) by lia. cbn [bind].
    rewrite Nat2Z.id.
    set (q := nth n cps (0, 0)).
    set (dir := direction_to_point pos q).
    pose proof (direction_to_point_range pos q) as Hdir. fold dir in Hdir.
    rewrite (py_index_nth c dir None) by (rewrite Hlen; simpl; lia). cbn [bind].
    (* the state after this neighbour, and its invariant on P ++ [n] *)
    assert (Hstep : exists c1,
      (match nth (Z.to_nat dir) c None with
       | None => py_setitem c dir (Some n)
       | Some _ => Ok c
       end) = Ok c1 /\ length c1 = 4%nat /\
      (forall d, (d < 4)%nat ->
        match nth d c1 None with
        | Some m => In m (P ++ [n]) /\ direction_to_point pos (nth m cps (0, 0)) = Z.of_nat d /\
                    forall k, In k (P ++ [n]) -> direction_to_point pos (nth k cps (0, 0)) = Z.of_nat d ->
                      get_manhattan_distance pos (nth m cps (0, 0)) <=
                      get_manhattan_distance pos (nth k cps (0, 0))
        | None => forall k, In k (P ++ [n]) -> direction_to_point pos (nth k cps (0, 0)) <> Z.of_nat d
        end)).
    { destruct (nth (Z.to_nat dir) c None) as [m0|] eqn:Ecur.
      - exists c. split; [reflexivity|]. split; [exact Hlen|].
        intros d Hd. specialize (Hinv d Hd).
        destruct (nth d c None) as [m|] eqn:Em.
        + destruct Hinv as [HmP [Hmd Hmin]].
          split; [apply in_or_app; now left|]. split; [exact Hmd|].
          intros k Hk Hkd. apply in_app_or in Hk. destruct Hk as [Hk|[<-|[]]].
          * now apply Hmin.
          * exact (StronglySorted_app_rel _ _ _ _ _ Hs HmP (or_introl eq_refl)).
        + intros k Hk Hkd. apply in_app_or in Hk. destruct Hk as [Hk|[<-|[]]].
          * exact (Hinv k Hk Hkd).
          * fold q in Hkd. fold dir in Hkd. subst dir.
            rewrite Hkd, Nat2Z.id, Em in Ecur. discriminate.
      - destruct (py_setitem_nth c dir (Some n) None ltac:(rewrite Hlen; simpl; lia))
          as [c1 [Hset [Hlen1 Hnth]]].
        exists c1. split; [exact Hset|]. split; [congruence|].
        intros d Hd. rewrite Hnth. specialize (Hinv d Hd).
        destruct (Nat.eqb_spec d (Z.to_nat dir)) as [->|Hne].
        + rewrite Ecur in Hinv. split; [apply in_or_app; right; now left|].
          split; [fold q; rewrite Z2Nat.id by lia; reflexivity|].
          intros k Hk Hkd. apply in_app_or in Hk. destruct Hk as [Hk|[<-|[]]].
          * exfalso. apply (Hinv k Hk). rewrite Hkd. rewrite Z2Nat.id by lia. reflexivity.
          * lia.
        + destruct (nth d c None) as [m|] eqn:Em.
          * destruct Hinv as [HmP [Hmd Hmin]].
            split; [apply in_or_app; now left|]. split; [exact Hmd|].
            intros k Hk Hkd. apply in_app_or in Hk. destruct Hk as [Hk|[<-|[]]].
            -- now apply Hmin.
            -- exact (StronglySorted_app_rel _ _ _ _ _ Hs HmP (or_introl eq_refl)).
          * intros k Hk Hkd. apply in_app_or in Hk. destruct Hk as [Hk|[<-|[]]].
            -- exact (Hinv k Hk Hkd).
            -- apply Hne. fold q in Hkd. fold dir in Hkd. rewrite Hkd. lia. }
    destruct Hstep as [c1 [Hc1 [Hlen1 Hinv1]]].
    rewrite Hc1. cbn [bind].
    destruct (forallb is_some c1) eqn:Eall.
    + exists c1. split; [reflexivity|]. split; [exact Hlen1|].
      intros d Hd. specialize (Hinv1 d Hd).
      destruct (nth d c1 None) as [m|] eqn:Em.
      * destruct Hinv1 as [HmP [Hmd Hmin]].
        split; [apply in_or_app; apply in_app_or in HmP; simpl in HmP |- *; tauto|].
        split; [exact Hmd|].
        intros k Hk Hkd.
        replace (P ++ n :: rest) with ((P ++ [n]) ++ rest) in Hk, Hs by now rewrite <- app_assoc.
        apply in_app_or in Hk. destruct Hk as [Hk|Hk]; [now apply Hmin|].
        exact (StronglySorted_app_rel _ _ _ _ _ Hs HmP Hk).
      * exfalso. rewrite forallb_forall in Eall.
        assert (Hin : In (nth d c1 None) c1) by (apply nth_In; lia).
        rewrite Em in Hin. specialize (Eall _ Hin). discriminate.
    + replace (P ++ n :: rest) with ((P ++ [n]) ++ rest) in Hs |- * by now rewrite <- app_assoc.
      apply IH; assumption.
Qed.

(** X8: [_closest_neighbour_in_grid4_directions] on distinct city
    positions returns four entries; entry [d] is a city other than the
    current one that lies in direction [d] (N, E, S, W) and is at least as
    close, in Manhattan distance, as every other city in that direction;
    it is [None] only when no other city lies in direction [d]. *)
Theorem closest_neighbour_in_grid4_directions_spec (current_city_idx : nat) (city_positions : list cell) :
  NoDup city_positions -> (current_city_idx < length city_positions)%nat ->
  exists closest,
    closest_neighbour_in_grid4_directions (Z.of_nat current_city_idx) city_positions = Ok closest /\
    length closest = 4%nat /\
    forall d, (d < 4)%nat ->
      let pos := nth current_city_idx city_positions (0, 0) in
      match nth d closest None with
      | Some m =>
          m <> current_city_idx /\ (m < length city_positions)%nat /\
          direction_to_point pos (nth m city_positions (0, 0)) = Z.of_nat d /\
          forall k, (k < length city_positions)%nat -> k <> current_city_idx ->
            direction_to_point pos (nth k city_positions (0, 0)) = Z.of_nat d ->
            get_manhattan_distance pos (nth m city_positions (0, 0)) <=
            get_manhattan_distance pos (nth k city_positions (0, 0))
      | None =>
          forall k, (k < length city_positions)%nat -> k <> current_city_idx ->
            direction_to_point pos (nth k city_positions (0, 0)) <> Z.of_nat d
      end.
Proof.
  intros Hnd Hcur.
  set (n := length city_positions). set (pos := nth current_city_idx city_positions (0, 0)).
  set (key := fun k => get_manhattan_distance pos (nth k city_positions (0, 0))).
  unfold closest_neighbour_in_grid4_directions.
  rewrite (fold_snoc_ok _ (fun i => key (Z.to_nat i))).
  2:{ intros ds x Hx. apply In_zrange in Hx.
      rewrite (py_index_nth city_positions (Z.of_nat current_city_idx) (0, 0)) by lia.
      rewrite (py_index_nth city_positions x (0, 0)) by lia.
      cbn [bind]. rewrite Nat2Z.id. reflexivity. }
  cbn [bind app]. fold n.
  set (ds := map (fun i => key (Z.to_nat i)) (zrange 0 (Z.of_nat n))).
  assert (Hds : forall k, (k < n)%nat -> nth k ds 0 = key k).
  { intros k Hk. unfold ds. rewrite nth_indep with (d' := (fun i : Z => key (Z.to_nat i)) 0).
    2:{ rewrite length_map, length_zrange. lia. }
    rewrite (map_nth (fun i : Z => key (Z.to_nat i))). rewrite nth_zrange by lia. f_equal. lia. }
  assert (Hlends : length ds = n) by (unfold ds; rewrite length_map, length_zrange; lia).
  pose proof (argsort_perm ds) as Hperm. rewrite Hlends in Hperm.
  pose proof (argsort_sorted ds) as Hsorted.
  assert (Hss : StronglySorted (fun a b => key a <= key b) (argsort ds)).
  { apply Sorted_StronglySorted; [intros x y z; lia|].
    assert (Hall : Forall (fun k => (k < n)%nat) (argsort ds)).
    { apply Forall_forall. intros k Hk. eapply Permutation_in in Hk; [|exact Hperm].
      apply in_seq in Hk. lia. }
    clear Hperm. induction Hsorted as [|a l Hl IHl Hhd]; constructor.
    - apply IHl. now inversion Hall.
    - inversion Hhd as [|b l' Hab]; subst; constructor.
      inversion Hall as [|? ? Ha Hall']; subst. inversion Hall'; subst.
      rewrite <- (Hds a), <- (Hds b) by assumption. exact Hab. }
  (* the closest city is the current one: every other is farther *)
  assert (Hkey0 : key current_city_idx = 0).
  { unfold key, get_manhattan_distance. fold pos. lia. }
  assert (Hkeypos : forall k, (k < n)%nat -> k <> current_city_idx -> 0 < key k).
  { intros k Hk Hne. unfold key, get_manhattan_distance.
    destruct (Z.eq_dec (Z.abs (fst pos - fst (nth k city_positions (0, 0))) +
                        Z.abs (snd pos - snd (nth k city_positions (0, 0)))) 0) as [Hz|Hz]; [|lia].
    exfalso. apply Hne.
    assert (Heq : nth k city_positions (0, 0) = pos).
    { destruct (nth k city_positions (0, 0)) as [a b] eqn:E1. destruct pos as [a' b'] eqn:E2.
      simpl in Hz. f_equal; lia. }
    unfold pos in Heq. eapply NoDup_nth; eauto. }
  destruct (argsort ds) as [|first tail] eqn:Ea.
  { apply Permutation_length in Hperm. simpl in Hperm. rewrite length_seq in Hperm. lia. }
  assert (Hin_all : forall k, (k < n)%nat -> In k (first :: tail)).
  { intros k Hk. eapply Permutation_in; [apply Permutation_sym, Hperm|]. apply in_seq. lia. }
  assert (Hlt_all : Forall (fun k => (k < n)%nat) (first :: tail)).
  { apply Forall_forall. intros k Hk. eapply Permutation_in in Hk; [|exact Hperm].
    apply in_seq in Hk. lia. }
  assert (Hfirst : first = current_city_idx).
  { destruct (Nat.eq_dec first current_city_idx) as [|Hne]; [assumption|].
    exfalso. inversion Hlt_all as [|? ? Hf _]; subst.
    pose proof (Hkeypos first Hf Hne).
    destruct (Hin_all current_city_idx Hcur) as [Heq|Hin]; [congruence|].
    inversion Hss as [|? ? _ Hall]; subst. rewrite Forall_forall in Hall.
    specialize (Hall _ Hin). lia. }
  subst first.
  assert (Hnd' : NoDup (current_city_idx :: tail)).
  { eapply Permutation_NoDup; [apply Permutation_sym, Hperm | apply seq_NoDup]. }
  rewrite (py_index_nth city_positions (Z.of_nat current_city_idx) (0, 0)) by lia.
  cbn [bind]. rewrite Nat2Z.id. fold pos.
  inversion Hss as [|? ? Hss_tail _]; subst.
  inversion Hlt_all as [|? ? _ Hlt_tail]; subst.
  destruct (closest_neighbour_loop_spec pos city_positions tail [] [None; None; None; None]
              Hlt_tail Hss_tail eq_refl) as [c' [Hloop [Hlen' Hinv']]].
  { intros d Hd. destruct d as [|[|[|[|d]]]]; try lia; simpl; intros k [] . }
  exists c'. split; [exact Hloop|]. split; [exact Hlen'|].
  intros d Hd. cbv zeta. specialize (Hinv' d Hd). simpl in Hinv'.
  assert (Htail : forall k, (k < n)%nat -> k <> current_city_idx -> In k tail).
  { intros k Hk Hne. destruct (Hin_all k Hk) as [|Hk']; [congruence | exact Hk']. }
  inversion Hnd' as [|? ? Hnotin _]; subst.
  destruct (nth d c' None) as [m|].
  - destruct Hinv' as [HmP [Hmd Hmin]].
    split; [intros ->; contradiction|].
    split; [rewrite Forall_forall in Hlt_tail; now apply Hlt_tail|].
    split; [exact Hmd|].
    intros k Hk Hne Hkd. apply Hmin; [now apply Htail | exact Hkd].
  - intros k Hk Hne. apply Hinv'. now apply Htail.
Qed.

End NeighbourFacts.

(** ** Clique detection on few cities *)

Module CliqueFacts.

Lemma insert_nat_perm (i : nat) (l : list nat) : Permutation (insert_nat i l) (i :: l).
Proof.
  induction l as [|j l IH]; simpl; [reflexivity|].
  destruct (Nat.leb i j); [reflexivity|].
  eapply perm_trans; [apply perm_skip, IH | apply perm_swap].
Qed.

Lemma sort_nat_permutation (l : list nat) : Permutation (sort_nat l) l.
Proof.
  unfold sort_nat. induction l as [|a l IH]; simpl; [reflexivity|].
  eapply perm_trans; [apply insert_nat_perm | apply perm_skip, IH].
Qed.

Lemma dict_fromkeys_spec (l : list nat) :
  NoDup (dict_fromkeys l) /\ forall x, In x (dict_fromkeys l) <-> In x l.
Proof.
  unfold dict_fromkeys.
  assert (H : forall l acc, NoDup acc ->
     NoDup (fold_left (fun acc x => if existsb (Nat.eqb x) acc then acc else x :: acc) l acc) /\
     forall x, In x (fold_left (fun acc x => if existsb (Nat.eqb x) acc then acc else x :: acc) l acc)
               <-> In x acc \/ In x l).
  { induction l0 as [|a l0 IH]; intros acc Hacc; simpl.
    - split; [exact Hacc | intros x; tauto].
    - destruct (existsb (Nat.eqb a) acc) eqn:E.
      + destruct (IH acc Hacc) as [Hn Hi]. split; [exact Hn|]. intros x. rewrite Hi.
        apply existsb_exists in E. destruct E as [y [Hy Hxy]]. apply Nat.eqb_eq in Hxy. subst y.
        split; [tauto|]. intros [Hx|[<-|Hx]]; tauto.
      + assert (Hacc' : NoDup (a :: acc)).
        { constructor; [|exact Hacc]. intros Hin.
          assert (Ht : existsb (Nat.eqb a) acc = true)
            by (apply existsb_exists; exists a; split; [exact Hin | apply Nat.eqb_refl]).
          congruence. }
        destruct (IH _ Hacc') as [Hn Hi]. split; [exact Hn|]. intros x. rewrite Hi. simpl. tauto. }
  destruct (H l [] (NoDup_nil _)) as [Hn Hi].
  split; [apply NoDup_rev; exact Hn|]. intros x. rewrite <- in_rev, Hi. simpl. tauto.
Qed.

(** rows of at least three indices below [n] make [build_clique3] succeed *)
Lemma build_clique3_ok (n : nat) (A : list (list nat)) (k : nat) :
  length A = n ->
  (forall j, (j < n)%nat ->
     (3 <= length (nth j A []))%nat /\ Forall (fun x => (x < n)%nat) (nth j A [])) ->
  (k < n)%nat ->
  exists c, build_clique3 A k = Ok c /\ length c = 3%nat /\ Forall (fun x => (x < n)%nat) c.
Proof.
  intros HA Hrows Hk. destruct (Hrows k Hk) as [Hlen Hall].
  unfold build_clique3.
  rewrite (py_index_nth A (Z.of_nat k) []) by lia. cbn [bind]. rewrite Nat2Z.id.
  set (row := nth k A []) in *.
  rewrite (py_index_nth row 0 0%nat) by lia. rewrite (py_index_nth row 1 0%nat) by lia.
  rewrite (py_index_nth row 2 0%nat) by lia. cbn [bind].
  eexists; split; [reflexivity|].
  pose proof (sort_nat_permutation [nth (Z.to_nat 0) row 0%nat; nth (Z.to_nat 1) row 0%nat;
                                    nth (Z.to_nat 2) row 0%nat])
    as Hp.
  split; [apply Permutation_length in Hp; exact Hp|].
  eapply Permutation_Forall; [apply Permutation_sym, Hp|].
  rewrite Forall_forall in Hall. repeat constructor; apply Hall, nth_In; simpl; lia.
Qed.

Lemma cliques_loop_ok (n : nat) (A : list (list nat)) (idxs : list nat) :
  length A = n ->
  (forall j, (j < n)%nat ->
     (3 <= length (nth j A []))%nat /\ Forall (fun x => (x < n)%nat) (nth j A [])) ->
  Forall (fun i => (i < n)%nat) idxs ->
  exists b, cliques_loop A idxs = Ok b.
Proof.
  intros HA Hrows. induction idxs as [|i rest IH]; intros Hidx; simpl; [eauto|].
  apply Forall_cons_iff in Hidx. destruct Hidx as [Hi Hrest].
  destruct (build_clique3_ok _ A i HA Hrows Hi) as [c [Hc [Hcl Hcn]]]. rewrite Hc. cbn [bind].
  rewrite Forall_forall in Hcn.
  rewrite (py_index_nth c 1 0%nat) by lia. cbn [bind].
  destruct (build_clique3_ok _ A (nth (Z.to_nat 1) c 0%nat) HA Hrows)
    as [c1 [Hc1 [Hc1l Hc1n]]]; [apply Hcn, nth_In; simpl; lia|].
  rewrite Hc1. cbn [bind]. rewrite Forall_forall in Hc1n.
  rewrite (py_index_nth c 2 0%nat) by lia. cbn [bind].
  destruct (build_clique3_ok _ A (nth (Z.to_nat 2) c 0%nat) HA Hrows)
    as [c2 [Hc2 [Hc2l Hc2n]]]; [apply Hcn, nth_In; simpl; lia|].
  rewrite Hc2. cbn [bind]. rewrite Forall_forall in Hc2n.
  destruct (nat_list_eqb c c1 && nat_list_eqb c c2); [eauto|].
  destruct (dict_fromkeys_spec (c ++ c1 ++ c2)) as [Hnd Hin].
  set (cluster := dict_fromkeys (c ++ c1 ++ c2)) in *.
  destruct (Nat.eqb_spec (length cluster) 4) as [H4|H4]; [|exact (IH Hrest)].
  assert (Hne : set_difference cluster c <> []).
  { intros Hnil.
    assert (Hincl : incl cluster c).
    { intros x Hx. destruct (existsb (Nat.eqb x) c) eqn:E.
      - apply existsb_exists in E. destruct E as [y [Hy Hxy]]. apply Nat.eqb_eq in Hxy. now subst.
      - assert (Hd : In x (set_difference cluster c))
          by (unfold set_difference; apply filter_In; rewrite E; auto).
        rewrite Hnil in Hd. contradiction. }
    pose proof (NoDup_incl_length Hnd Hincl). lia. }
  destruct (set_difference cluster c) as [|ae rest'] eqn:Ed; [contradiction|].
  assert (Hae : (ae < n)%nat).
  { assert (Hx : In ae (set_difference cluster c)) by (rewrite Ed; now left).
    apply filter_In in Hx. destruct Hx as [Hx _]. apply Hin in Hx.
    apply in_app_or in Hx. destruct Hx as [Hx|Hx]; [now apply Hcn|].
    apply in_app_or in Hx. destruct Hx as [Hx|Hx]; [now apply Hc1n | now apply Hc2n]. }
  cbn [py_index]. rewrite (py_index_nth (ae :: rest') 0 0%nat) by (simpl; lia). cbn [bind].
  destruct (build_clique3_ok _ A ae HA Hrows Hae) as [c3 [Hc3 _]].
  simpl nth. rewrite Hc3. cbn [bind].
  destruct (nat_list_eqb _ _); [eauto | exact (IH Hrest)].
Qed.

Lemma build_clique3_short (A : list (list nat)) (k : nat) (row : list nat) :
  py_index A (Z.of_nat k) = Ok row -> (length row < 3)%nat -> build_clique3 A k = Raise IndexError.
Proof.
  intros H Hl. unfold build_clique3. rewrite H. cbn [bind].
  destruct row as [|x [|y [|z r]]]; simpl in Hl; try lia; reflexivity.
Qed.

Lemma contains_cliques_small (city_positions : list cell) :
  length city_positions = 1%nat \/ length city_positions = 2%nat ->
  contains_cliques city_positions = Raise IndexError.
Proof.
  intros Hn. unfold contains_cliques. cbv zeta.
  set (A := map (fun i => argsort (map (fun q => get_manhattan_distance (nth i city_positions (0, 0)) q)
                                       city_positions)) (seq 0 (length city_positions))).
  replace (seq 0 (length city_positions)) with (0%nat :: seq 1 (length city_positions - 1))
    by (destruct Hn as [-> | ->]; reflexivity).
  cbn [cliques_loop].
  rewrite (build_clique3_short _ 0
             (argsort (map (fun q => get_manhattan_distance (nth 0 city_positions (0, 0)) q)
                           city_positions))).
  - reflexivity.
  - apply sort_index_nth. lia.
  - pose proof (argsort_perm (map (fun q => get_manhattan_distance (nth 0 city_positions (0, 0)) q)
                                  city_positions)) as Hp.
    apply Permutation_length in Hp. rewrite Hp, length_seq, length_map. lia.
Qed.

Lemma contains_cliques_ok (city_positions : list cell) :
  (3 <= length city_positions)%nat -> exists b, contains_cliques city_positions = Ok b.
Proof.
  intros Hn. unfold contains_cliques. cbv zeta.
  set (n := length city_positions).
  apply (cliques_loop_ok n).
  - rewrite length_map, length_seq. reflexivity.
  - intros j Hj.
    rewrite (nth_map_lt _ _ _ _ 0%nat) by (rewrite length_seq; exact Hj).
    rewrite seq_nth by exact Hj. simpl.
    pose proof (argsort_perm (map (fun q => get_manhattan_distance (nth j city_positions (0, 0)) q)
                                  city_positions)) as Hp.
    rewrite length_map in Hp. fold n in Hp. split.
    + apply Permutation_length in Hp. rewrite Hp, length_seq. exact Hn.
    + eapply Permutation_Forall; [apply Permutation_sym, Hp|].
      apply Forall_forall. intros x Hx. apply in_seq in Hx. lia.
  - apply Forall_forall. intros x Hx. apply in_seq in Hx. lia.
Qed.

(** X9: [contains_cliques] returns a verdict for no city and for three or
    more cities, and raises [IndexError] for one or two cities: the row
    of nearest cities it reads is then shorter than three entries. *)
Theorem contains_cliques_outcome (city_positions : list cell) :
  match contains_cliques city_positions with
  | Ok _ => length city_positions = 0%nat \/ (3 <= length city_positions)%nat
  | Raise e => e = IndexError /\ (length city_positions = 1%nat \/ length city_positions = 2%nat)
  end.
Proof.
  destruct (Nat.lt_ge_cases (length city_positions) 3) as [Hlt|Hge].
  - destruct (Nat.eq_dec (length city_positions) 0) as [H0|H0].
    + destruct city_positions; [|discriminate]. left. reflexivity.
    + rewrite contains_cliques_small by lia. split; [reflexivity | lia].
  - destruct (contains_cliques_ok _ Hge) as [b Hb]. rewrite Hb. now right.
Qed.

Section Crash.

Context {RS : Type} (rs_randint : RS -> Z -> Z -> Z * RS) (RandomState : Z -> RS)
        (align_cell_to_city : cell -> Z -> cell -> Z).
Context {GridMap : Type} (GridTransitionMap : Z -> Z -> GridMap)
        (connect_rail_in_grid_map : GridMap -> cell -> cell -> list cell -> list cell * GridMap)
        (connect_straight_line_in_grid_map : GridMap -> cell -> cell -> list cell * GridMap)
        (fix_inner_nodes : GridMap -> cell -> GridMap)
        (cell_neighbours_valid : GridMap -> cell -> bool)
        (fix_transitions : GridMap -> cell -> Z -> GridMap).

Hypothesis randint_range : forall st low high, low < high -> low <= fst (rs_randint st low high) < high.

Lemma random_city_loop_length (height width p : Z) (k : nat) (g : grid) (cps : list cell) (st : RS)
      (cps' : list cell) (st' : RS) :
  random_city_loop rs_randint height width p k g cps st = Ok (cps', st') ->
  (length cps' <= length cps + k)%nat /\
  ((0 < k)%nat -> np_where height width g <> [] -> (length cps < length cps')%nat).
Proof.
  revert g cps st. induction k as [|k IH]; intros g cps st H; cbn [random_city_loop] in H.
  - inversion H; subst. split; [lia | intros; lia].
  - destruct (Z.eqb_spec (Z.of_nat (length (np_where height width g))) 0) as [Hz|Hz].
    + inversion H; subst. split; [lia|]. intros _ Hne.
      destruct (np_where height width g); [contradiction | simpl in Hz; lia].
    + inv_bind H. destruct a as [point_index st1]. inv_bind H. destruct a as [row col].
      destruct (IH _ _ _ H) as [Hle _].
      assert (Hge : (length (cps ++ [(row, col)]) <= length cps')%nat).
      { clear -H. revert H. generalize (block_city height width g row col p) (cps ++ [(row, col)]) st1.
        induction k as [|k IHk]; intros g' l s' H; cbn [random_city_loop] in H.
        - inversion H; subst. lia.
        - destruct (Z.of_nat (length (np_where height width g')) =? 0).
          + inversion H; subst. lia.
          + inv_bind H. destruct a as [pi s1]. inv_bind H. destruct a as [r c].
            pose proof (IHk _ _ _ H). rewrite length_app in *. simpl in *. lia. }
      rewrite length_app in Hle, Hge. simpl in Hle, Hge. split; [lia | intros; lia].
Qed.

Lemma city_radius_value (g : SparseRailGen) : 3 <= city_radius g.
Proof.
  unfold city_radius, rail_pairs_in_city, ceil_div. cbv zeta.
  destruct (Z.ltb_spec (max_rail_pairs_in_city g) 1).
  - simpl. lia.
  - pose proof (Z.div_mul (- max_rail_pairs_in_city g) 2 ltac:(lia)).
    replace (- (max_rail_pairs_in_city g * 2)) with (- max_rail_pairs_in_city g * 2) by ring. lia.
Qed.

(** X10: in random mode with more than 4 cities requested, a map on which
    only 2 cities fit makes [generate] raise [IndexError]: the random
    placement returns one or two cities, and [contains_cliques] cannot read
    three nearest neighbours for them.  (A seed that [RandomState] refuses
    raises its own [ValueError] first.) *)
Theorem generate_two_feasible_cities_crash (g : SparseRailGen) (width height num_agents num_resets : Z)
        (np_random : option RS) (global_rs : RS) (fuel : nat) :
  valid_seed g = true ->
  0 <= width -> 0 <= height -> grid_mode g = false -> 4 < max_num_cities g ->
  max_feasible_cities g width height = 2 -> (1 <= fuel)%nat ->
  generate rs_randint RandomState align_cell_to_city GridTransitionMap connect_rail_in_grid_map
    connect_straight_line_in_grid_map fix_inner_nodes cell_neighbours_valid fix_transitions
    g width height num_agents num_resets np_random global_rs fuel = Some (Raise IndexError).
Proof.
  intros Hs Hw Hh Hgrid Hmax Hmf Hfuel.
  pose proof (city_radius_value g) as Hr.
  set (r := city_radius g) in *.
  (* both factors of the feasible count are at least one *)
  assert (Hdims : 2 * r + 4 <= height /\ 2 * r + 4 <= width).
  { unfold max_feasible_cities in Hmf. fold r in Hmf.
    set (d := 2 * (r + 1)) in *.
    assert (Hd : 0 < d) by lia.
    set (a := (height - 2) / d) in *. set (b := (width - 2) / d) in *.
    assert (Hab : a * b = 2) by lia.
    pose proof (Z.mul_div_le (height - 2) d Hd) as Ha1. fold a in Ha1.
    pose proof (Z.mul_succ_div_gt (height - 2) d Hd) as Ha2. fold a in Ha2.
    pose proof (Z.mul_div_le (width - 2) d Hd) as Hb1. fold b in Hb1.
    pose proof (Z.mul_succ_div_gt (width - 2) d Hd) as Hb2. fold b in Hb2.
    assert (Ha : -1 <= a) by nia. assert (Hb : -1 <= b) by nia.
    assert (Ha' : 1 <= a) by nia. assert (Hb' : 1 <= b) by nia.
    split; nia. }
  unfold generate.
  destruct (init_np_random rs_randint RandomState g np_random global_rs) as [st0|e] eqn:Ei.
  2:{ exfalso. unfold init_np_random, valid_seed in *.
      destruct (seed g) as [s|]; [rewrite Hs in Ei|destruct np_random]; discriminate. }
  destruct (Z.ltb_spec height 0); [lia|]. destruct (Z.ltb_spec width 0); [lia|].
  rewrite Hmf. cbn [orb]. replace (2 <? 2) with false by reflexivity.
  fold r. unfold place_cities. rewrite Hgrid.
  set (p := r + 1).
  set (g0 := init_allowed_grid height width p).
  assert (Hne : np_where height width g0 <> []).
  { assert (Hin : In (p, p) (np_where height width g0)).
    { apply np_where_complete; [|lia|lia].
      unfold g0. apply init_allowed_grid_spec; lia. }
    intros E. rewrite E in Hin. contradiction. }
  destruct (random_city_loop_ok rs_randint randint_range height width p (Z.to_nat 2) g0 [] st0)
    as [cps [st1 Hl]].
  destruct (random_city_loop_length height width p (Z.to_nat 2) g0 [] st0 cps st1 Hl) as [Hle Hlt].
  specialize (Hlt ltac:(simpl; lia) Hne). simpl in Hle, Hlt.
  unfold generate_random_city_positions.
  destruct (Z.ltb_spec height 0); [lia|]. destruct (Z.ltb_spec width 0); [lia|]. cbn [orb].
  fold p. fold g0. rewrite Hl. cbn [bind].
  replace (4 <? max_num_cities g) with true by lia.
  destruct fuel as [|fuel']; [lia|]. cbn [clique_retry].
  rewrite contains_cliques_small by lia.
  reflexivity.
Qed.

End Crash.

End CliqueFacts.

(** ** City placement bounds *)

Module PlacementFacts.

Lemma ceil_sqrt_ratio_ge1 (a b : Z) : 1 <= a -> 0 < b -> 1 <= ceil_sqrt_ratio a b.
Proof.
  intros Ha Hb. unfold ceil_sqrt_ratio.
  pose proof (Z.sqrt_nonneg (a / b)).
  destruct (Z.eqb_spec (Z.sqrt (a / b) * Z.sqrt (a / b) * b) a); [|lia].
  destruct (Z.eq_dec (Z.sqrt (a / b)) 0) as [E|E]; [rewrite E in *; lia | lia].
Qed.

Lemma ceil_sqrt_ratio_ge2 (a b : Z) : b < a -> 0 < b -> 2 <= ceil_sqrt_ratio a b.
Proof.
  intros Hab Hb. unfold ceil_sqrt_ratio.
  set (s := Z.sqrt (a / b)).
  assert (Hs : 1 <= s).
  { unfold s. rewrite <- Z.sqrt_1. apply Z.sqrt_le_mono.
    apply Z.div_le_lower_bound; lia. }
  destruct (Z.eqb_spec (s * s * b) a); [|lia].
  destruct (Z.eq_dec s 1) as [E|E]; [rewrite E in *; lia | lia].
Qed.

Lemma ceil_div_spec (a b : Z) : 0 < b -> a <= ceil_div a b * b.
Proof.
  intros Hb. unfold ceil_div. pose proof (Z.mul_div_le (- a) b Hb). lia.
Qed.

Lemma linspace_int_ok (start stop num : Z) :
  1 <= num -> 0 <= start <= stop ->
  exists l, linspace_int start stop num = Ok l /\ length l = Z.to_nat num /\
            Forall (fun v => start <= v <= stop) l.
Proof.
  intros Hn Hs. unfold linspace_int.
  destruct (Z.ltb_spec num 0); [lia|].
  destruct (Z.eqb_spec num 1) as [->|Hn1].
  - eexists; split; [reflexivity|]. split; [reflexivity|]. constructor; [lia | constructor].
  - eexists; split; [reflexivity|]. split; [rewrite length_map, length_zrange; lia|].
    apply Forall_forall. intros v Hv. apply in_map_iff in Hv. destruct Hv as [x [<- Hx]].
    apply In_zrange in Hx.
    assert (0 <= x * (stop - start)) by nia.
    assert (x * (stop - start) <= (num - 1) * (stop - start)) by nia.
    rewrite Z.quot_div_nonneg by nia.
    split.
    + apply Z.div_le_lower_bound; nia.
    + apply Z.div_le_upper_bound; nia.
Qed.

(** [_generate_evenly_distr_city_positions] on a map where [num_cities]
    fits: between 2 and [num_cities] centres, away from the border *)
Lemma evenly_distr_ok (num_cities city_radius width height : Z) :
  0 <= city_radius -> 0 <= width -> 0 <= height ->
  2 <= num_cities <= ((height - 2) / (2 * (city_radius + 1))) * ((width - 2) / (2 * (city_radius + 1))) ->
  exists l, generate_evenly_distr_city_positions num_cities city_radius width height = Ok l /\
    (2 <= length l)%nat /\ (Z.of_nat (length l) <= num_cities) /\
    Forall (fun pc => city_radius + 2 <= fst pc <= height - (city_radius + 2) /\
                      city_radius + 2 <= snd pc <= width - (city_radius + 2)) l.
Proof.
  intros Hr Hw Hh Hnum.
  set (size := 2 * (city_radius + 1)) in *.
  assert (Hsize : 0 < size) by lia.
  set (mr := (height - 2) / size) in *. set (mc := (width - 2) / size) in *.
  pose proof (Z.mul_div_le (height - 2) size Hsize) as Hmr1. fold mr in Hmr1.
  pose proof (Z.mul_succ_div_gt (height - 2) size Hsize) as Hmr2. fold mr in Hmr2.
  pose proof (Z.mul_div_le (width - 2) size Hsize) as Hmc1. fold mc in Hmc1.
  pose proof (Z.mul_succ_div_gt (width - 2) size Hsize) as Hmc2. fold mc in Hmc2.
  assert (Hmr : -1 <= mr) by nia. assert (Hmc : -1 <= mc) by nia.
  assert (Hmr' : 1 <= mr) by nia. assert (Hmc' : 1 <= mc) by nia.
  assert (Hh2 : size + 2 <= height) by nia. assert (Hw2 : size + 2 <= width) by nia.
  unfold generate_evenly_distr_city_positions.
  destruct (Z.eqb_spec width 0); [lia|].
  destruct (Z.ltb_spec (num_cities * height * width) 0); [nia|].
  cbv zeta. fold size. fold mr. fold mc.
  rewrite (Z.abs_eq (num_cities * height)) by nia. rewrite (Z.abs_eq width) by lia.
  set (cs := ceil_sqrt_ratio (num_cities * height) width).
  assert (Hcs : 1 <= cs) by (apply ceil_sqrt_ratio_ge1; nia).
  set (cpr := Z.min cs mr).
  assert (Hcpr : 1 <= cpr <= mr) by lia.
  destruct (Z.eqb_spec cpr 0); [lia|].
  set (cd := ceil_div num_cities cpr).
  pose proof (ceil_div_spec num_cities cpr ltac:(lia)) as Hcd. fold cd in Hcd.
  assert (Hcd1 : 1 <= cd) by nia.
  set (cpc := Z.min cd mc).
  assert (Hcpc : 1 <= cpc <= mc) by lia.
  set (build := Z.min num_cities (cpc * cpr)).
  (* at least two cities are built *)
  assert (Hbuild : 2 <= build).
  { unfold build. apply Z.min_glb; [lia|].
    destruct (Z.eq_dec cpr 1) as [E1|E1]; [|nia].
    rewrite E1 in *. rewrite Z.mul_1_r.
    destruct (Z.eq_dec mc 1) as [Emc|Emc]; [|unfold cpc; lia].
    exfalso. rewrite Emc in *.
    assert (Hmr2' : 2 <= mr) by nia.
    assert (Hcs1 : cs = 1) by (unfold cpr in E1; lia).
    assert (Hle : num_cities * height <= width).
    { destruct (Z.le_gt_cases (num_cities * height) width) as [|Hgt]; [assumption|].
      pose proof (ceil_sqrt_ratio_ge2 (num_cities * height) width Hgt ltac:(lia)). lia. }
    nia. }
  destruct (linspace_int_ok (city_radius + 2) (height - (city_radius + 2)) cpr ltac:(lia) ltac:(nia))
    as [rows [Hrows [Hrl Hrb]]].
  rewrite Hrows. cbn [bind].
  destruct (linspace_int_ok (city_radius + 2) (width - (city_radius + 2)) cpc ltac:(lia) ltac:(nia))
    as [cols [Hcols [Hcl Hcb]]].
  rewrite Hcols. cbn [bind].
  rewrite (fold_snoc_ok _ (fun x => (nth (Z.to_nat (x mod cpr)) rows 0, nth (Z.to_nat (x / cpr)) cols 0))).
  2:{ intros acc x Hx. apply In_zrange in Hx.
      pose proof (Z.mod_pos_bound x cpr ltac:(lia)).
      assert (Hq : x / cpr < cpc).
      { apply Z.div_lt_upper_bound; [lia|]. unfold build in Hx. nia. }
      assert (0 <= x / cpr) by (apply Z.div_pos; lia).
      cbn [bind].
      rewrite (py_index_nth rows (x mod cpr) 0) by lia. cbn [bind].
      rewrite (py_index_nth cols (x / cpr) 0) by lia. reflexivity. }
  eexists; split; [reflexivity|].
  rewrite app_nil_l, length_map, length_zrange.
  split; [lia|]. split; [lia|].
  apply Forall_forall. intros pc Hpc. apply in_map_iff in Hpc. destruct Hpc as [x [<- Hx]].
  apply In_zrange in Hx.
  pose proof (Z.mod_pos_bound x cpr ltac:(lia)).
  assert (Hq : x / cpr < cpc).
  { apply Z.div_lt_upper_bound; [lia|]. unfold build in Hx. nia. }
  assert (0 <= x / cpr) by (apply Z.div_pos; lia).
  rewrite Forall_forall in Hrb, Hcb. cbn [fst snd]. split.
  - apply Hrb, nth_In. lia.
  - apply Hcb, nth_In. lia.
Qed.

Lemma contains_cliques_raise (city_positions : list cell) (e : exn) :
  contains_cliques city_positions = Raise e -> e = IndexError.
Proof.
  intros H. destruct (Nat.lt_ge_cases (length city_positions) 3) as [Hlt|Hge].
  - destruct (Nat.eq_dec (length city_positions) 0) as [H0|H0].
    + destruct city_positions; [discriminate | discriminate].
    + rewrite CliqueFacts.contains_cliques_small in H by lia. congruence.
  - destruct (CliqueFacts.contains_cliques_ok _ Hge) as [b Hb]. congruence.
Qed.

Section RandomPlacement.

Context {RS : Type} (rs_randint : RS -> Z -> Z -> Z * RS).

Hypothesis randint_range : forall st low high, low < high -> low <= fst (rs_randint st low high) < high.

Lemma random_positions_ok (num_cities city_radius width height : Z) (st : RS) :
  0 <= width -> 0 <= height ->
  exists city_positions ws st',
    generate_random_city_positions rs_randint num_cities city_radius width height st
      = Ok (city_positions, ws, st') /\
    (Z.of_nat (length city_positions) <= Z.max 0 num_cities) /\
    Forall (fun pc => city_radius + 1 <= fst pc <= height - city_radius - 2 /\
                      city_radius + 1 <= snd pc <= width - city_radius - 2) city_positions.
Proof.
  intros Hw Hh. set (p := city_radius + 1).
  destruct (random_city_loop_ok rs_randint randint_range height width p (Z.to_nat num_cities)
              (init_allowed_grid height width p) [] st) as [cps [st1 Hl]].
  unfold generate_random_city_positions.
  destruct (Z.ltb_spec height 0); [lia|]. destruct (Z.ltb_spec width 0); [lia|]. cbn [orb].
  fold p. rewrite Hl. cbn [bind].
  do 3 eexists. split; [reflexivity|].
  destruct (CliqueFacts.random_city_loop_length rs_randint height width p _ _ [] st cps st1 Hl)
    as [Hle _].
  simpl in Hle. split; [lia|].
  destruct (random_city_loop_spec rs_randint height width p (Z.to_nat num_cities)
              (init_allowed_grid height width p) [] st cps st1) as [Hf _];
    [ intros r c; simpl; now rewrite andb_true_r | constructor | exact Hl |].
  eapply Forall_impl; [|exact Hf]. intros [r c] Hrc. cbn [fst snd] in *.
  apply init_allowed_grid_bounds in Hrc; [|exact Hh | exact Hw]. unfold p in *. lia.
Qed.

Lemma clique_retry_raise (fuel : nat) (num_cities city_radius width height : Z)
      (cp : list cell) (ws : list warning) (st : RS) (e : exn) :
  0 <= width -> 0 <= height ->
  clique_retry rs_randint fuel num_cities city_radius width height cp ws st = Some (Raise e) ->
  e = IndexError.
Proof.
  intros Hw Hh. revert cp ws st. induction fuel as [|fuel IH]; intros cp ws st H; cbn [clique_retry] in H;
    [discriminate|].
  destruct (contains_cliques cp) as [[|]|e'] eqn:Ec.
  - destruct (random_positions_ok num_cities city_radius width height st Hw Hh)
      as [cp0 [ws0 [st0 [E _]]]].
    rewrite E in H. exact (IH _ _ _ H).
  - discriminate.
  - inversion H; subst. exact (contains_cliques_raise cp e Ec).
Qed.

(** X11: with numpy's [randint(low, high)] drawing from [[low, high)]
    and a non-negative width and height ([np.zeros] refuses negative ones),
    [_generate_random_city_positions] never raises; it returns at most
    [num_cities] centres, each at least [city_radius + 1] cells away from
    the top and left borders and [city_radius + 2] from the bottom and
    right ones. *)
Theorem random_city_positions_inside (num_cities city_radius width height : Z) (st : RS) :
  0 <= width -> 0 <= height ->
  exists city_positions ws st',
    generate_random_city_positions rs_randint num_cities city_radius width height st
      = Ok (city_positions, ws, st') /\
    (Z.of_nat (length city_positions) <= Z.max 0 num_cities) /\
    Forall (fun pc => city_radius + 1 <= fst pc <= height - city_radius - 2 /\
                      city_radius + 1 <= snd pc <= width - city_radius - 2) city_positions.
Proof. apply random_positions_ok. Qed.

(** X13: when [mf] cities fit on the map, the placement step of [generate]
    either runs on (the clique retry loop), raises [IndexError] (from
    [contains_cliques]), or hands over between 2 and [mf] centres, each
    with rows in [[city_radius + 1, height - city_radius - 2]] and columns
    in [[city_radius + 1, width - city_radius - 2]]. *)
Theorem place_cities_bounds (g : SparseRailGen) (mf city_radius width height : Z) (fuel : nat) (st : RS) :
  0 <= city_radius -> 0 <= width -> 0 <= height ->
  2 <= mf <= ((height - 2) / (2 * (city_radius + 1))) * ((width - 2) / (2 * (city_radius + 1))) ->
  match place_cities rs_randint g mf city_radius width height fuel st with
  | Some (Ok (city_positions, _, _)) =>
      (2 <= length city_positions)%nat /\ Z.of_nat (length city_positions) <= mf /\
      Forall (fun pc => city_radius + 1 <= fst pc <= height - city_radius - 2 /\
                        city_radius + 1 <= snd pc <= width - city_radius - 2) city_positions
  | Some (Raise e) => e = IndexError
  | None => True
  end.
Proof.
  intros Hr Hw Hh Hmf.
  destruct (evenly_distr_ok mf city_radius width height Hr Hw Hh Hmf) as [l [El [Hl2 [Hlm Hlb]]]].
  assert (Hev : (2 <= length l)%nat /\ Z.of_nat (length l) <= mf /\
                Forall (fun pc => city_radius + 1 <= fst pc <= height - city_radius - 2 /\
                                  city_radius + 1 <= snd pc <= width - city_radius - 2) l).
  { split; [exact Hl2|]. split; [exact Hlm|].
    eapply Forall_impl; [|exact Hlb]. intros [a b] Hpc. cbn [fst snd] in *. lia. }
  set (P := fun cps : list cell => Z.of_nat (length cps) <= Z.max 0 mf /\
              Forall (fun pc => city_radius + 1 <= fst pc <= height - city_radius - 2 /\
                                city_radius + 1 <= snd pc <= width - city_radius - 2) cps).
  assert (HP : forall st0 cp0 ws0 st1,
            generate_random_city_positions rs_randint mf city_radius width height st0
              = Ok (cp0, ws0, st1) -> P cp0).
  { intros st0 cp0 ws0 st1 E.
    destruct (random_positions_ok mf city_radius width height st0 Hw Hh) as [c [w [s' [E' HPc]]]].
    rewrite E in E'. inversion E'; subst. exact HPc. }
  (* the fallback to the evenly spaced grid *)
  assert (Hfinal : forall cp ws st1, P cp ->
    match (if Z.of_nat (length cp) <? 2
           then Some (cp' <- generate_evenly_distr_city_positions mf city_radius width height ;;
                      Ok (cp', ws ++ [W_grid_mode], st1))
           else Some (Ok (cp, ws, st1)) : option (result (list cell * list warning * RS))) with
    | Some (Ok (city_positions, _, _)) =>
        (2 <= length city_positions)%nat /\ Z.of_nat (length city_positions) <= mf /\
        Forall (fun pc => city_radius + 1 <= fst pc <= height - city_radius - 2 /\
                          city_radius + 1 <= snd pc <= width - city_radius - 2) city_positions
    | Some (Raise e) => e = IndexError
    | None => True
    end).
  { intros cp ws st1 [Hc Hb]. destruct (Z.ltb_spec (Z.of_nat (length cp)) 2).
    - rewrite El. exact Hev.
    - split; [lia|]. split; [lia | exact Hb]. }
  unfold place_cities. cbv zeta.
  destruct (grid_mode g).
  - rewrite El. cbn [bind]. destruct (Z.ltb_spec (Z.of_nat (length l)) 2); [lia|]. exact Hev.
  - destruct (random_positions_ok mf city_radius width height st Hw Hh) as [cp [ws [st1 [E HPcp]]]].
    rewrite E.
    destruct (4 <? max_num_cities g).
    + destruct (clique_retry rs_randint fuel mf city_radius width height cp ws st1)
        as [[[[cp' ws'] st']|e]|] eqn:Ec; [| |exact I].
      * apply Hfinal. eapply (clique_retry_preserves rs_randint P); [exact HPcp | exact HP | exact Ec].
      * exact (clique_retry_raise _ _ _ _ _ _ _ _ _ Hw Hh Ec).
    + apply Hfinal. exact HPcp.
Qed.

End RandomPlacement.

(** X12: when [num_cities] (at least 2) fits on the map,
    [_generate_evenly_distr_city_positions] places between 2 and
    [num_cities] centres, with rows in [[city_radius + 2,
    height - city_radius - 2]] and columns in [[city_radius + 2,
    width - city_radius - 2]]; it raises no error. *)
Theorem evenly_distr_city_positions_inside (num_cities city_radius width height : Z) :
  0 <= city_radius -> 0 <= width -> 0 <= height ->
  2 <= num_cities <= ((height - 2) / (2 * (city_radius + 1))) * ((width - 2) / (2 * (city_radius + 1))) ->
  exists city_positions,
    generate_evenly_distr_city_positions num_cities city_radius width height = Ok city_positions /\
    (2 <= length city_positions)%nat /\ Z.of_nat (length city_positions) <= num_cities /\
    Forall (fun pc => city_radius + 2 <= fst pc <= height - (city_radius + 2) /\
                      city_radius + 2 <= snd pc <= width - (city_radius + 2)) city_positions.
Proof. apply evenly_distr_ok. Qed.

End PlacementFacts.

(** ** Errors raised by numpy before any placement *)

Module NumpyErrorFacts.
Section Errors.

Context {RS : Type} (rs_randint : RS -> Z -> Z -> Z * RS) (RandomState : Z -> RS)
        (align_cell_to_city : cell -> Z -> cell -> Z).
Context {GridMap : Type} (GridTransitionMap : Z -> Z -> GridMap)
        (connect_rail_in_grid_map : GridMap -> cell -> cell -> list cell -> list cell * GridMap)
        (connect_straight_line_in_grid_map : GridMap -> cell -> cell -> list cell * GridMap)
        (fix_inner_nodes : GridMap -> cell -> GridMap)
        (cell_neighbours_valid : GridMap -> cell -> bool)
        (fix_transitions : GridMap -> cell -> Z -> GridMap).



End Errors.
End NumpyErrorFacts.

(** ** The line generators *)

Module LineFacts.
Import LineGenerators.

Lemma zrange_seq (n : Z) : zrange 0 n = map Z.of_nat (seq 0 (Z.to_nat n)).
Proof. unfold zrange. rewrite Z.sub_0_r. apply map_ext. intros; lia. Qed.

Lemma get_local_ok {A} (x : option A) (a : A) : get_local x = Ok a -> x = Some a.
Proof. destruct x; cbn; congruence. Qed.

Lemma nth_app_last {A} (l : list A) (x d : A) : nth (length l) (l ++ [x]) d = x.
Proof. rewrite app_nth2 by lia. now rewrite Nat.sub_diag. Qed.

Lemma nth_app_len {A} (l : list A) (x d : A) (n : nat) : length l = n -> nth n (l ++ [x]) d = x.
Proof. intros <-. apply nth_app_last. Qed.

Lemma nth_app_prefix {A} (l : list A) (x d : A) (i : nat) :
  (i < length l)%nat -> nth i (l ++ [x]) d = nth i l d.
Proof. apply app_nth1. Qed.

(** the city a station lookup [train_stations[c][i]] reads *)
Lemma station_lookup_in (train_stations : list (list (cell * Z))) (c i : Z) ts s :
  0 <= c -> py_index train_stations c = Ok ts -> py_index ts i = Ok s ->
  In (fst s) (station_cells train_stations c).
Proof.
  intros Hc Hts Hs. unfold station_cells.
  apply py_index_nonneg in Hts; [|exact Hc].
  rewrite (nth_error_nth _ _ _ Hts). apply in_map. eapply py_index_in; eauto.
Qed.

Section Sparse.

Context {RS : Type} {Rail : Type}.
Variable rs_randint : RS -> Z -> Z -> Z * RS.
Variable rs_choice2 : RS -> Z -> (Z * Z) * RS.
Variable rs_choice_list : RS -> list Z -> Z * RS.
Variable rs_choice_p : RS -> Z -> Z -> list Q -> result (list Z * RS).
Variable check_path_exists : Rail -> cell -> Z -> cell -> bool.

(** numpy's [choice(n, 2, replace=False)]: two different indices below [n] *)
Hypothesis choice2_spec : forall st n, 2 <= n ->
  0 <= fst (fst (rs_choice2 st n)) < n /\ 0 <= snd (fst (rs_choice2 st n)) < n /\
  fst (fst (rs_choice2 st n)) <> snd (fst (rs_choice2 st n)).
(** numpy's [choice(l)]: an element of [l] *)
Hypothesis choice_list_in : forall st l, l <> [] -> In (fst (rs_choice_list st l)) l.

Lemma decide_orientation_in rail start target ors st :
  fst (decide_orientation rs_choice_list check_path_exists rail start target ors st) = 0 \/
  In (fst (decide_orientation rs_choice_list check_path_exists rail start target ors st)) ors.
Proof.
  unfold decide_orientation. cbv zeta.
  set (F := filter _ ors).
  destruct (Nat.ltb_spec 0 (length F)) as [Hl|Hl].
  - right. assert (HF : F <> []) by (intros E; rewrite E in Hl; cbn in Hl; lia).
    pose proof (choice_list_in st F HF) as Hin. unfold F in Hin.
    apply filter_In in Hin. now destruct Hin.
  - now left.
Qed.

Lemma choice_two_ok st n c1 c2 st' :
  choice_two rs_choice2 st n = Ok ((c1, c2), st') ->
  c1 <> c2 /\ 0 <= c1 < n /\ 0 <= c2 < n.
Proof.
  unfold choice_two. intros H.
  destruct (Z.leb_spec n 0); [discriminate|].
  destruct (Z.ltb_spec n 2); [discriminate|].
  apply ok_inj in H. pose proof (choice2_spec st n ltac:(lia)) as Hs.
  rewrite H in Hs. cbn in Hs. lia.
Qed.

Lemma sparse_even_step_trip rail hints cr L st L' st' :
  sparse_even_step rs_randint rs_choice2 rs_choice_list check_path_exists rail hints cr L st
    = Ok (L', st') ->
  let '(city_positions, train_stations, city_orientation) := hints in
  exists c1 c2 o2 start target dir,
    c1 <> c2 /\ 0 <= c1 < Z.of_nat (length city_positions) /\
    0 <= c2 < Z.of_nat (length city_positions) /\
    city1 L' = Some c1 /\ city2 L' = Some c2 /\
    city2_possible_orientations L' = Some [o2; (o2 + 2) mod 4] /\
    nth_error city_orientation (Z.to_nat c2) = Some o2 /\
    agents_position L' = agents_position L ++ [start] /\
    agents_target L' = agents_target L ++ [target] /\
    agents_direction L' = agents_direction L ++ [dir] /\
    trip hints c1 c2 start target dir.
Proof.
  destruct hints as [[cps ts] co]. unfold sparse_even_step. cbv zeta. intros H.
  apply bind_ok_inv in H; destruct H as [[[c1 c2] s1] [Hc H]]; cbv beta iota in H.
  destruct (choice_two_ok _ _ _ _ _ Hc) as (Hne & Hr1 & Hr2).
  apply bind_ok_inv in H; destruct H as [ts1 [Hts1 H]]; cbv beta in H.
  apply bind_ok_inv in H; destruct H as [ts2 [Hts2 H]]; cbv beta in H.
  apply bind_ok_inv in H; destruct H as [o1 [Ho1 H]]; cbv beta in H.
  apply bind_ok_inv in H; destruct H as [o2 [Ho2 H]]; cbv beta in H.
  apply bind_ok_inv in H; destruct H as [p2 [Hp2 H]]; cbv beta in H.
  apply bind_ok_inv in H; destruct H as [p1 [Hp1 H]]; cbv beta in H.
  apply bind_ok_inv in H; destruct H as [[[[[asi nati] ati] nasi] s2] [Hsi H]]; cbv beta iota in H.
  apply bind_ok_inv in H; destruct H as [i [Hi H]]; cbv beta in H.
  apply bind_ok_inv in H; destruct H as [start [Hstart H]]; cbv beta in H.
  apply bind_ok_inv in H; destruct H as [j [Hj H]]; cbv beta in H.
  apply bind_ok_inv in H; destruct H as [target [Htarget H]]; cbv beta in H.
  pose proof (decide_orientation_in rail start target [o1; (o1 + 2) mod 4] s2) as Hd.
  destruct (decide_orientation rs_choice_list check_path_exists rail start target
              [o1; (o1 + 2) mod 4] s2) as [dir s3] eqn:Ed.
  apply ok_inj in H. inversion H; subst L' st'; clear H.
  exists c1, c2, o2, (fst start), (fst target), dir. cbn [city1 city2 city2_possible_orientations
    agents_position agents_target agents_direction].
  repeat split; try lia; try reflexivity.
  - now apply py_index_nonneg in Ho2; [|lia].
  - eapply station_lookup_in; eauto; lia.
  - eapply station_lookup_in; eauto; lia.
  - cbn [fst] in Hd. destruct Hd as [Hd|Hd]; [now left|]. right.
    exists o1. split; [apply py_index_nonneg; [lia|exact Ho1]|].
    destruct Hd as [Hd|[Hd|[]]]; auto.
Qed.

Lemma sparse_odd_step_trip rail hints L st L' st' c1 c2 o2 :
  city1 L = Some c1 -> city2 L = Some c2 ->
  city2_possible_orientations L = Some [o2; (o2 + 2) mod 4] ->
  nth_error (snd hints) (Z.to_nat c2) = Some o2 -> 0 <= c1 -> 0 <= c2 ->
  sparse_odd_step rs_choice_list check_path_exists rail hints L st = Ok (L', st') ->
  exists start target dir,
    agents_position L' = agents_position L ++ [start] /\
    agents_target L' = agents_target L ++ [target] /\
    agents_direction L' = agents_direction L ++ [dir] /\
    trip hints c2 c1 start target dir.
Proof.
  destruct hints as [[cps ts] co]. cbn [snd]. intros Hc1 Hc2 Ho Ho2 Hn1 Hn2 H.
  unfold sparse_odd_step in H. cbv zeta in H.
  apply bind_ok_inv in H; destruct H as [i [Hi H]]; cbv beta in H.
  apply bind_ok_inv in H; destruct H as [j [Hj H]]; cbv beta in H.
  rewrite Hc1 in H. cbn [get_local bind] in H.
  rewrite Hc2 in H. cbn [get_local bind] in H.
  rewrite Ho in H. cbn [get_local bind] in H.
  apply bind_ok_inv in H; destruct H as [ts2 [Hts2 H]]; cbv beta in H.
  apply bind_ok_inv in H; destruct H as [start [Hstart H]]; cbv beta in H.
  apply bind_ok_inv in H; destruct H as [ts1 [Hts1 H]]; cbv beta in H.
  apply bind_ok_inv in H; destruct H as [target [Htarget H]]; cbv beta in H.
  pose proof (decide_orientation_in rail start target [o2; (o2 + 2) mod 4] st) as Hd.
  destruct (decide_orientation rs_choice_list check_path_exists rail start target
              [o2; (o2 + 2) mod 4] st) as [dir s3] eqn:Ed.
  apply ok_inj in H. inversion H; subst L' st'; clear H.
  exists (fst start), (fst target), dir. cbn [agents_position agents_target agents_direction].
  repeat split; try reflexivity.
  - eapply station_lookup_in; eauto.
  - eapply station_lookup_in; eauto.
  - cbn [fst] in Hd. destruct Hd as [Hd|Hd]; [now left|]. right.
    exists o2. split; [exact Ho2|]. destruct Hd as [Hd|[Hd|[]]]; auto.
Qed.

Lemma sparse_line_loop_inv rail hints cr (r m : nat) L st L' st' :
  sparse_loop_inv hints m L ->
  sparse_line_loop rs_randint rs_choice2 rs_choice_list check_path_exists rail hints cr
    (map Z.of_nat (seq m r)) L st = Ok (L', st') ->
  sparse_loop_inv hints (m + r) L'.
Proof.
  revert m L st. induction r as [|r IH]; intros m L st HI H.
  - cbn in H. inversion H; subst. now rewrite Nat.add_0_r.
  - cbn [seq map sparse_line_loop] in H.
    apply bind_ok_inv in H; destruct H as [[L1 s1] [Hs H]]; cbv beta iota in H.
    replace (m + S r)%nat with (S m + r)%nat by lia.
    apply (IH (S m) L1 s1); [|exact H]. clear H IH.
    destruct hints as [[cps ts] co].
    hnf in HI. destruct HI as (Hlp & Hlt & Hld & Hpairs & Hopen).
    hnf.
    destruct (Z.of_nat m mod 2 =? 0) eqn:Ep.
    + apply Z.eqb_eq in Ep.
      pose proof (sparse_even_step_trip rail (cps, ts, co) cr L st L1 s1 Hs) as
        (c1 & c2 & o2 & start & target & dir & Hne & Hr1 & Hr2 & Hc1 & Hc2 & Ho & Ho2 &
         Ep1 & Et1 & Ed1 & Htrip).
      rewrite Ep1, Et1, Ed1. rewrite !length_app, Hlp, Hlt, Hld. cbn [length].
      split; [lia|]. split; [lia|]. split; [lia|]. split.
      * intros k Hk.
        assert (Hk' : (2 * k + 1 < m)%nat).
        { destruct (Nat.eq_dec (2 * k + 1) m) as [Hkm|]; [|lia].
          assert (Hz : Z.of_nat m = Z.of_nat k * 2 + 1) by lia.
          rewrite Hz, Z.add_comm, Z_mod_plus_full in Ep. discriminate. }
        destruct (Hpairs k Hk') as (x1 & x2 & Hx & Hx1 & Hx2 & Ht1 & Ht2).
        exists x1, x2. rewrite !nth_app_prefix by lia.
        split; [exact Hx|]. split; [exact Hx1|]. split; [exact Hx2|]. split; [exact Ht1|].
        intros _. apply Ht2. exact Hk'.
      * intros _. exists c1, c2, o2.
        do 7 (split; [assumption|]).
        replace (S m - 1)%nat with m by lia.
        rewrite (nth_app_len _ _ _ _ Hlp), (nth_app_len _ _ _ _ Hlt), (nth_app_len _ _ _ _ Hld).
        exact Htrip.
    + assert (Hodd : Z.of_nat m mod 2 = 1).
      { apply Z.eqb_neq in Ep. pose proof (Z.mod_pos_bound (Z.of_nat m) 2). lia. }
      destruct (Hopen Hodd) as (c1 & c2 & o2 & Hc1 & Hc2 & Ho & Ho2 & Hne & Hr1 & Hr2 & Htrip0).
      destruct (sparse_odd_step_trip rail (cps, ts, co) L st L1 s1 c1 c2 o2 Hc1 Hc2 Ho Ho2
                  ltac:(lia) ltac:(lia) Hs) as (start & target & dir & Ep1 & Et1 & Ed1 & Htrip).
      assert (Hm : (1 <= m)%nat) by (destruct m; [cbn in Hodd; discriminate|lia]).
      rewrite Ep1, Et1, Ed1. rewrite !length_app, Hlp, Hlt, Hld. cbn [length].
      split; [lia|]. split; [lia|]. split; [lia|]. split.
      * intros k Hk.
        destruct (Nat.eq_dec (2 * k + 1) m) as [Hkm|Hkm].
        -- exists c1, c2. split; [exact Hne|]. split; [exact Hr1|]. split; [exact Hr2|].
           split.
           ++ replace (2 * k)%nat with (m - 1)%nat by lia.
              rewrite !nth_app_prefix by lia. exact Htrip0.
           ++ intros _. rewrite Hkm.
              rewrite (nth_app_len _ _ _ _ Hlp), (nth_app_len _ _ _ _ Hlt),
                (nth_app_len _ _ _ _ Hld).
              exact Htrip.
        -- destruct (Hpairs k ltac:(lia)) as (x1 & x2 & Hx & Hx1 & Hx2 & Ht1 & Ht2).
           exists x1, x2. rewrite !nth_app_prefix by lia.
           split; [exact Hx|]. split; [exact Hx1|]. split; [exact Hx2|]. split; [exact Ht1|].
           intros _. apply Ht2. lia.
      * intros Hodd'. exfalso. rewrite Nat2Z.inj_succ in Hodd'.
        rewrite <- Z.add_1_r in Hodd'. rewrite Zplus_mod in Hodd'. rewrite Hodd in Hodd'.
        cbn in Hodd'. discriminate.
Qed.

Lemma line_tail_fields {D} self num_agents cps pos tgt (dirs : list D) st line st' :
  line_tail rs_choice_p self num_agents cps pos tgt dirs st = Ok (line, st') ->
  agent_positions line = pos /\ agent_targets line = tgt /\ agent_directions line = dirs /\
  cps <> [].
Proof.
  unfold line_tail. intros H.
  apply bind_ok_inv in H; destruct H as [[speeds s1] [_ H]]; cbv beta iota in H.
  destruct cps as [|c cps]; cbn in H; [discriminate|].
  apply ok_inj in H. inversion H; subst. cbn. repeat split; congruence.
Qed.

Lemma sparse_loop_inv_init hints : sparse_loop_inv hints 0 sl_locals_init.
Proof.
  destruct hints as [[cps ts] co]. hnf. cbn.
  split; [reflexivity|]. split; [reflexivity|]. split; [reflexivity|]. split.
  - intros k Hk. lia.
  - intros H. discriminate.
Qed.

Lemma sparse_generate_loop self rail num_agents hints num_resets st line st' :
  SparseLineGen_generate rs_randint rs_choice2 rs_choice_list rs_choice_p check_path_exists
    self rail num_agents hints num_resets st = Ok (line, st') ->
  exists L s1,
    sparse_line_loop rs_randint rs_choice2 rs_choice_list check_path_exists rail hints
      (line_city_radius (Z.of_nat (length (fst (fst hints))))) (zrange 0 num_agents) sl_locals_init st
      = Ok (L, s1) /\
    line_tail rs_choice_p self num_agents (fst (fst hints)) (agents_position L) (agents_target L)
      (agents_direction L) s1 = Ok (line, st').
Proof.
  destruct hints as [[cps ts] co]. unfold SparseLineGen_generate. cbv beta iota zeta. intros H.
  apply bind_ok_inv in H; destruct H as [[L s1] [Hl H]]; cbv beta iota in H.
  exists L, s1. split; assumption.
Qed.

(** X14: when [SparseLineGen.generate] succeeds, the line has one start,
    target and direction per agent, and the agents come in pairs: agent
    [2k] starts at a station of a city and targets a station of a different
    city, agent [2k + 1] (if any) makes the way back, and each direction is
    the start city's orientation, its opposite, or 0. *)
Theorem sparse_line_pairs self rail num_agents hints num_resets st line st' :
  SparseLineGen_generate rs_randint rs_choice2 rs_choice_list rs_choice_p check_path_exists
    self rail num_agents hints num_resets st = Ok (line, st') ->
  length (agent_positions line) = Z.to_nat num_agents /\
  length (agent_targets line) = Z.to_nat num_agents /\
  length (agent_directions line) = Z.to_nat num_agents /\
  forall k, (2 * k < Z.to_nat num_agents)%nat ->
    paired_agents hints (Z.to_nat num_agents) k (agent_positions line) (agent_targets line)
      (agent_directions line).
Proof.
  intros H. apply sparse_generate_loop in H. destruct H as (L & s1 & Hl & Ht).
  apply line_tail_fields in Ht. destruct Ht as (-> & -> & -> & _).
  rewrite zrange_seq in Hl.
  pose proof (sparse_line_loop_inv rail hints _ (Z.to_nat num_agents) 0 sl_locals_init st L s1
                (sparse_loop_inv_init hints) Hl) as HI.
  cbn [Nat.add] in HI. set (n := Z.to_nat num_agents) in *.
  destruct hints as [[cps ts] co]. hnf in HI.
  destruct HI as (Hlp & Hlt & Hld & Hpairs & Hopen).
  split; [exact Hlp|]. split; [exact Hlt|]. split; [exact Hld|].
  intros k Hk.
  destruct (Nat.lt_ge_cases (2 * k + 1) n) as [Hk1|Hk1].
  - exact (Hpairs k Hk1).
  - assert (Hodd : Z.of_nat n mod 2 = 1).
    { assert (Hz : Z.of_nat n = Z.of_nat k * 2 + 1) by lia.
      rewrite Hz, Z.add_comm, Z_mod_plus_full. reflexivity. }
    destruct (Hopen Hodd) as (c1 & c2 & o2 & _ & _ & _ & _ & Hne & Hr1 & Hr2 & Htrip).
    hnf. exists c1, c2. split; [exact Hne|]. split; [exact Hr1|]. split; [exact Hr2|]. split.
    + replace (2 * k)%nat with (n - 1)%nat by lia. exact Htrip.
    + intros Hk2. lia.
Qed.

(** numpy's [randint(low, high)] draws in [[low, high)] *)
Hypothesis randint_range : forall st low high, low < high ->
  low <= fst (rs_randint st low high) < high.

Lemma draw_pair_ok st h u v : 1 <= h ->
  exists a b st', draw_pair rs_randint st h u v = Ok (a, b, st') /\
    0 <= a < 2 * h /\ 0 <= b < 2 * h.
Proof.
  intros Hh. unfold draw_pair, randint.
  destruct (Z.leb_spec h 0); [lia|].
  pose proof (randint_range st 0 h ltac:(lia)) as R1.
  destruct (rs_randint st 0 h) as [x s1] eqn:E1. cbn [bind fst] in *.
  pose proof (randint_range s1 0 h ltac:(lia)) as R2.
  destruct (rs_randint s1 0 h) as [y s2] eqn:E2. cbn [bind fst] in *.
  exists (if u then x + h else x), (if v then y + h else y), s2.
  split; [reflexivity|]. destruct u, v; lia.
Qed.

Local Ltac draw_all :=
  repeat match goal with
  | |- context [draw_pair rs_randint ?s ?h ?u ?v] =>
      let a := fresh "a" in let b := fresh "b" in let s' := fresh "s" in
      let E := fresh "E" in
      destruct (draw_pair_ok s h u v ltac:(lia)) as (a & b & s' & E & ? & ?);
      rewrite E; cbn [bind]
  end.

Lemma station_indices_ok cr o1 o2 p1 p2 h1 h2 asi nati ati nasi st :
  1 <= h1 -> 1 <= h2 -> 0 <= o2 < 4 ->
  exists a b c d st',
    station_indices rs_randint cr o1 o2 p1 p2 h1 h2 asi nati ati nasi st
      = Ok (Some a, Some b, Some c, Some d, st') /\
    0 <= a < 2 * h1 /\ 0 <= b < 2 * h1 /\ 0 <= c < 2 * h2 /\ 0 <= d < 2 * h2.
Proof.
  intros H1 H2 Ho2.
  assert (Hor : (orient_0_or_2 o2 = true /\ orient_1_or_3 o2 = false) \/
                (orient_0_or_2 o2 = false /\ orient_1_or_3 o2 = true)).
  { unfold orient_0_or_2, orient_1_or_3.
    assert (Ho : o2 = 0 \/ o2 = 1 \/ o2 = 2 \/ o2 = 3) by lia.
    destruct Ho as [-> | [-> | [-> | ->]]]; cbn; auto. }
  unfold station_indices.
  destruct (orient_0_or_2 o1);
    destruct Hor as [[-> ->]|[-> ->]];
    destruct (fst p2 - fst p1 >? 0); destruct (snd p2 - snd p1 >? 0);
    destruct (fst p2 - fst p1 >? cr + 1); destruct (fst p2 - fst p1 <? - cr - 1);
    destruct (snd p2 - snd p1 >? cr + 1); destruct (snd p2 - snd p1 <? - cr - 1);
    draw_all; do 5 eexists; (split; [reflexivity|]); lia.
Qed.

Lemma Forall_nth_error {A} (P : A -> Prop) (l : list A) (i : nat) (x : A) :
  Forall P l -> nth_error l i = Some x -> P x.
Proof. rewrite Forall_forall. intros H E. apply H. eapply nth_error_In; eauto. Qed.

Lemma half_bounds (n : Z) : 2 <= n -> 1 <= n / 2 /\ 2 * (n / 2) <= n.
Proof.
  intros Hn. split.
  - apply (Z.div_le_mono 2 n 2); lia.
  - apply Z.mul_div_le. lia.
Qed.

Lemma sparse_even_step_ok rail hints cr L st :
  let '(cps, ts, co) := hints in
  (2 <= length cps)%nat -> length ts = length cps -> length co = length cps ->
  Forall (fun s => (2 <= length s)%nat) ts -> Forall (fun o => 0 <= o < 4) co ->
  exists L' st',
    sparse_even_step rs_randint rs_choice2 rs_choice_list check_path_exists rail hints cr L st
      = Ok (L', st') /\
    length (agents_position L') = S (length (agents_position L)) /\
    length (agents_target L') = S (length (agents_target L)) /\
    length (agents_direction L') = S (length (agents_direction L)) /\
    exists c1 c2 ors2 i j,
      city1 L' = Some c1 /\ city2 L' = Some c2 /\ city2_possible_orientations L' = Some ors2 /\
      next_agent_start_idx L' = Some i /\ next_agent_target_idx L' = Some j /\
      0 <= c1 < Z.of_nat (length ts) /\ 0 <= c2 < Z.of_nat (length ts) /\
      0 <= i < Z.of_nat (length (nth (Z.to_nat c2) ts [])) /\
      0 <= j < Z.of_nat (length (nth (Z.to_nat c1) ts [])).
Proof.
  destruct hints as [[cps ts] co]. intros Hn Hts Hco Hs Ho.
  unfold sparse_even_step. cbv beta iota zeta.
  assert (Hc : choice_two rs_choice2 st (Z.of_nat (length cps)) =
               Ok (rs_choice2 st (Z.of_nat (length cps)))).
  { unfold choice_two. destruct (Z.leb_spec (Z.of_nat (length cps)) 0); [lia|].
    destruct (Z.ltb_spec (Z.of_nat (length cps)) 2); [lia|]. reflexivity. }
  pose proof (choice2_spec st (Z.of_nat (length cps)) ltac:(lia)) as Hsp.
  rewrite Hc. destruct (rs_choice2 st (Z.of_nat (length cps))) as [[c1 c2] s1] eqn:Ec.
  cbn [fst snd] in Hsp. cbn [bind].
  destruct (py_index_ok ts c1 ltac:(lia)) as [ts1 [E1 N1]]. rewrite E1. cbn [bind].
  destruct (py_index_ok ts c2 ltac:(lia)) as [ts2 [E2 N2]]. rewrite E2. cbn [bind].
  destruct (py_index_ok co c1 ltac:(lia)) as [o1 [E3 N3]]. rewrite E3. cbn [bind].
  destruct (py_index_ok co c2 ltac:(lia)) as [o2 [E4 N4]]. rewrite E4. cbn [bind].
  destruct (py_index_ok cps c2 ltac:(lia)) as [p2 [E5 _]]. rewrite E5. cbn [bind].
  destruct (py_index_ok cps c1 ltac:(lia)) as [p1 [E6 _]]. rewrite E6. cbn [bind].
  pose proof (Forall_nth_error _ _ _ _ Hs N1) as Hl1. cbv beta in Hl1.
  pose proof (Forall_nth_error _ _ _ _ Hs N2) as Hl2. cbv beta in Hl2.
  pose proof (Forall_nth_error _ _ _ _ Ho N4) as Ho2. cbv beta in Ho2.
  destruct (half_bounds (Z.of_nat (length ts1)) ltac:(lia)) as [Hh1 Hh1'].
  destruct (half_bounds (Z.of_nat (length ts2)) ltac:(lia)) as [Hh2 Hh2'].
  destruct (station_indices_ok cr o1 o2 p1 p2 (Z.of_nat (length ts1) / 2) (Z.of_nat (length ts2) / 2)
              (agent_start_idx L) (next_agent_target_idx L) (agent_target_idx L)
              (next_agent_start_idx L) s1 Hh1 Hh2 Ho2) as (a' & b' & c' & d' & s2' & Esi & Ha & Hb & Hc' & Hd).
  rewrite Esi. cbn [bind get_local].
  destruct (py_index_ok ts1 a' ltac:(lia)) as [start [E7 _]]. rewrite E7. cbn [bind].
  destruct (py_index_ok ts2 c' ltac:(lia)) as [target [E8 _]]. rewrite E8. cbn [bind].
  destruct (decide_orientation rs_choice_list check_path_exists rail start target
              [o1; (o1 + 2) mod 4] s2') as [dir s3].
  eexists; eexists. split; [reflexivity|].
  cbn [agents_position agents_target agents_direction city1 city2 city2_possible_orientations
       next_agent_start_idx next_agent_target_idx].
  rewrite !length_app. cbn [length]. split; [lia|]. split; [lia|]. split; [lia|].
  exists c1, c2, [o2; (o2 + 2) mod 4], d', b'.
  rewrite (nth_error_nth _ _ _ N1), (nth_error_nth _ _ _ N2).
  repeat split; try reflexivity; lia.
Qed.

Lemma sparse_odd_step_ok rail hints L st c1 c2 ors2 i j :
  city1 L = Some c1 -> city2 L = Some c2 -> city2_possible_orientations L = Some ors2 ->
  next_agent_start_idx L = Some i -> next_agent_target_idx L = Some j ->
  0 <= c1 < Z.of_nat (length (snd (fst hints))) -> 0 <= c2 < Z.of_nat (length (snd (fst hints))) ->
  0 <= i < Z.of_nat (length (nth (Z.to_nat c2) (snd (fst hints)) [])) ->
  0 <= j < Z.of_nat (length (nth (Z.to_nat c1) (snd (fst hints)) [])) ->
  exists L' st',
    sparse_odd_step rs_choice_list check_path_exists rail hints L st = Ok (L', st') /\
    length (agents_position L') = S (length (agents_position L)) /\
    length (agents_target L') = S (length (agents_target L)) /\
    length (agents_direction L') = S (length (agents_direction L)).
Proof.
  destruct hints as [[cps ts] co]. cbn [fst snd].
  intros Hc1 Hc2 Ho Hi Hj Hr1 Hr2 Hri Hrj.
  unfold sparse_odd_step. cbv beta iota zeta.
  rewrite Hi, Hj, Hc1, Hc2, Ho. cbn [get_local bind].
  rewrite (py_index_nth ts c2 [] Hr2). cbn [bind].
  destruct (py_index_ok _ i Hri) as [start [E1 _]]. rewrite E1. cbn [bind].
  rewrite (py_index_nth ts c1 [] Hr1). cbn [bind].
  destruct (py_index_ok _ j Hrj) as [target [E2 _]]. rewrite E2. cbn [bind].
  destruct (decide_orientation rs_choice_list check_path_exists rail start target ors2 st)
    as [dir s3].
  eexists; eexists. split; [reflexivity|]. cbn [agents_position agents_target agents_direction].
  rewrite !length_app. cbn [length]. lia.
Qed.

Lemma sparse_line_loop_ready rail hints cr (r m : nat) L st :
  let '(cps, ts, co) := hints in
  (2 <= length cps)%nat -> length ts = length cps -> length co = length cps ->
  Forall (fun s => (2 <= length s)%nat) ts -> Forall (fun o => 0 <= o < 4) co ->
  sparse_loop_ready hints m L ->
  exists L' st',
    sparse_line_loop rs_randint rs_choice2 rs_choice_list check_path_exists rail hints cr
      (map Z.of_nat (seq m r)) L st = Ok (L', st') /\
    sparse_loop_ready hints (m + r) L'.
Proof.
  destruct hints as [[cps ts] co]. intros Hn Hts Hco Hs Ho.
  revert m L st. induction r as [|r IH]; intros m L st HR.
  - exists L, st. split; [reflexivity|]. now rewrite Nat.add_0_r.
  - cbn [seq map sparse_line_loop].
    hnf in HR. destruct HR as (Hlp & Hlt & Hld & Hopen).
    assert (Hstep : exists L1 s1,
               (if Z.of_nat m mod 2 =? 0
                then sparse_even_step rs_randint rs_choice2 rs_choice_list check_path_exists rail
                       (cps, ts, co) cr L st
                else sparse_odd_step rs_choice_list check_path_exists rail (cps, ts, co) L st)
               = Ok (L1, s1) /\ sparse_loop_ready (cps, ts, co) (S m) L1).
    { destruct (Z.of_nat m mod 2 =? 0) eqn:Ep.
      - apply Z.eqb_eq in Ep.
        destruct (sparse_even_step_ok rail (cps, ts, co) cr L st Hn Hts Hco Hs Ho)
          as (L1 & s1 & E & Hl1 & Hl2 & Hl3 & Hopen1).
        exists L1, s1. split; [exact E|]. hnf.
        rewrite Hl1, Hl2, Hl3, Hlp, Hlt, Hld.
        split; [reflexivity|]. split; [reflexivity|]. split; [reflexivity|].
        intros _. exact Hopen1.
      - assert (Hodd : Z.of_nat m mod 2 = 1).
        { apply Z.eqb_neq in Ep. pose proof (Z.mod_pos_bound (Z.of_nat m) 2). lia. }
        destruct (Hopen Hodd) as (c1 & c2 & ors2 & i & j & H1 & H2 & H3 & H4 & H5 & R1 & R2 & R3 & R4).
        destruct (sparse_odd_step_ok rail (cps, ts, co) L st c1 c2 ors2 i j H1 H2 H3 H4 H5 R1 R2 R3 R4)
          as (L1 & s1 & E & Hl1 & Hl2 & Hl3).
        exists L1, s1. split; [exact E|]. hnf.
        rewrite Hl1, Hl2, Hl3, Hlp, Hlt, Hld.
        split; [reflexivity|]. split; [reflexivity|]. split; [reflexivity|].
        intros Hodd'. exfalso. rewrite Nat2Z.inj_succ in Hodd'.
        rewrite <- Z.add_1_r in Hodd'. rewrite Zplus_mod in Hodd'. rewrite Hodd in Hodd'.
        cbn in Hodd'. discriminate. }
    destruct Hstep as (L1 & s1 & E & HR1). rewrite E. cbn [bind].
    destruct (IH (S m) L1 s1 HR1) as (L' & st' & E' & HR').
    exists L', st'. split; [exact E'|]. replace (m + S r)%nat with (S m + r)%nat by lia. exact HR'.
Qed.

(** X15: on hints with at least two cities, one station list and one
    orientation in [0, 4) per city and at least two stations in every city,
    and without a speed map, [SparseLineGen.generate] succeeds with
    [num_agents] agents, all of speed 1.0. *)
Theorem sparse_line_generate_ok self rail num_agents cps ts co num_resets st :
  (2 <= length cps)%nat -> length ts = length cps -> length co = length cps ->
  Forall (fun s => (2 <= length s)%nat) ts -> Forall (fun o => 0 <= o < 4) co ->
  truthy_map (speed_ratio_map self) = false ->
  exists line st',
    SparseLineGen_generate rs_randint rs_choice2 rs_choice_list rs_choice_p check_path_exists
      self rail num_agents (cps, ts, co) num_resets st = Ok (line, st') /\
    length (agent_positions line) = Z.to_nat num_agents /\
    agent_speeds line = repeat 1%Q (Z.to_nat num_agents).
Proof.
  intros Hn Hts Hco Hs Ho Hm.
  unfold SparseLineGen_generate. cbv beta iota zeta.
  rewrite zrange_seq.
  assert (HR0 : sparse_loop_ready (cps, ts, co) 0 sl_locals_init).
  { hnf. cbn. split; [reflexivity|]. split; [reflexivity|]. split; [reflexivity|].
    intros H; discriminate. }
  destruct (sparse_line_loop_ready rail (cps, ts, co) (line_city_radius (Z.of_nat (length cps)))
              (Z.to_nat num_agents) 0 sl_locals_init st Hn Hts Hco Hs Ho HR0) as (L & s1 & E & HR).
  rewrite E. cbn [bind]. hnf in HR. destruct HR as (Hlp & _ & _ & _).
  unfold line_tail. rewrite Hm. cbn [bind].
  destruct cps as [|c cps']; [cbn in Hn; lia|]. cbn [length Nat.eqb].
  eexists; eexists. split; [reflexivity|]. cbn [agent_positions agent_speeds].
  rewrite Hlp. split; reflexivity.
Qed.

(** X16: with fewer than two cities, [SparseLineGen.generate] raises
    numpy's [ValueError] of [choice(n, 2, replace=False)] as soon as there
    is an agent; without agents and without a speed map it returns the
    empty line for one city and raises [ZeroDivisionError] for none. *)
Theorem sparse_line_too_few_cities self rail num_agents cps ts co num_resets st :
  (length cps < 2)%nat ->
  (1 <= num_agents ->
   SparseLineGen_generate rs_randint rs_choice2 rs_choice_list rs_choice_p check_path_exists
     self rail num_agents (cps, ts, co) num_resets st =
   Raise (ValueError
     (if (length cps =? 0)%nat
      then "a must be greater than 0 unless no samples are taken"
      else "Cannot take a larger sample than population when 'replace=False'")%string)) /\
  (num_agents <= 0 -> truthy_map (speed_ratio_map self) = false ->
   SparseLineGen_generate rs_randint rs_choice2 rs_choice_list rs_choice_p check_path_exists
     self rail num_agents (cps, ts, co) num_resets st =
   if (length cps =? 0)%nat then Raise ZeroDivisionError else Ok (mkLine [] [] [] [], st)).
Proof.
  intros Hn. unfold SparseLineGen_generate. cbv beta iota zeta. rewrite zrange_seq. split.
  - intros Ha. destruct (Z.to_nat num_agents) as [|k] eqn:Ek; [lia|].
    cbn [seq map sparse_line_loop]. rewrite Z.mod_0_l by lia. cbn [Z.eqb].
    unfold sparse_even_step. cbv beta iota zeta.
    destruct cps as [|c [|c' rest]]; cbn in Hn |- *; [reflexivity|reflexivity|lia].
  - intros Ha Hm. replace (Z.to_nat num_agents) with 0%nat by lia. cbn [seq map sparse_line_loop bind].
    unfold line_tail. rewrite Hm. cbn. destruct cps; reflexivity.
Qed.

Lemma map_py_index_in {A} (l : list A) (idxs : list Z) (xs : list A) :
  map_py_index l idxs = Ok xs -> Forall (fun x => In x l) xs.
Proof.
  revert xs. induction idxs as [|i idxs IH]; intros xs H; cbn in H.
  - apply ok_inj in H. subst. constructor.
  - apply bind_ok_inv in H; destruct H as [x [Hx H]]; cbv beta in H.
    apply bind_ok_inv in H; destruct H as [xs' [Hxs H]]; cbv beta in H.
    apply ok_inj in H. subst. constructor; [eapply py_index_in; eauto | now apply IH].
Qed.

Lemma line_tail_speeds {D} self num_agents cps pos tgt (dirs : list D) st line st' :
  line_tail rs_choice_p self num_agents cps pos tgt dirs st = Ok (line, st') ->
  (truthy_map (speed_ratio_map self) = false -> agent_speeds line = repeat 1%Q (length pos)) /\
  (forall m, speed_ratio_map self = Some m -> m <> [] ->
     Forall (fun sp => In sp (map fst m)) (agent_speeds line)).
Proof.
  unfold line_tail. intros H.
  apply bind_ok_inv in H; destruct H as [[speeds s1] [Hsp H]]; cbv beta iota in H.
  destruct cps as [|c cps]; cbn in H; [discriminate|].
  apply ok_inj in H. inversion H; subst line st'; clear H. cbn [agent_speeds].
  split.
  - intros Hf. rewrite Hf in Hsp. now inversion Hsp.
  - intros m Hm Hne. rewrite Hm in Hsp.
    destruct m as [|x m]; [contradiction|]. cbn [truthy_map] in Hsp.
    unfold speed_initialization_helper in Hsp.
    apply bind_ok_inv in Hsp; destruct Hsp as [[idxs s2] [_ Hsp]]; cbv beta iota in Hsp.
    apply bind_ok_inv in Hsp; destruct Hsp as [l [Hl Hsp]]; cbv beta in Hsp.
    apply ok_inj in Hsp. inversion Hsp; subst. now apply map_py_index_in in Hl.
Qed.

(** X17: the speeds of a line from [SparseLineGen.generate] are all 1.0
    (one per agent) without a speed map, and each one of the map's speeds
    with a non-empty map. *)
Theorem sparse_line_speeds self rail num_agents hints num_resets st line st' :
  SparseLineGen_generate rs_randint rs_choice2 rs_choice_list rs_choice_p check_path_exists
    self rail num_agents hints num_resets st = Ok (line, st') ->
  (truthy_map (speed_ratio_map self) = false ->
   agent_speeds line = repeat 1%Q (Z.to_nat num_agents)) /\
  (forall m, speed_ratio_map self = Some m -> m <> [] ->
     Forall (fun sp => In sp (map fst m)) (agent_speeds line)).
Proof.
  intros H. pose proof H as H'. apply sparse_generate_loop in H. destruct H as (L & s1 & Hl & Ht).
  apply line_tail_speeds in Ht. destruct Ht as [Ht1 Ht2]. split; [|exact Ht2].
  intros Hf. rewrite (Ht1 Hf). f_equal.
  rewrite zrange_seq in Hl.
  pose proof (sparse_line_loop_inv rail hints _ (Z.to_nat num_agents) 0 sl_locals_init st L s1
                (sparse_loop_inv_init hints) Hl) as HI.
  destruct hints as [[cps ts] co]. hnf in HI. destruct HI as (Hlp & _). exact Hlp.
Qed.

End Sparse.

Section FixedLines.

Context {RS : Type} {Rail : Type}.
Variable rs_choice_p : RS -> Z -> Z -> list Q -> result (list Z * RS).

Lemma nth_map_zrange {B} (f : Z -> B) (n : Z) (i : nat) (d : B) :
  (i < Z.to_nat n)%nat -> nth i (map f (zrange 0 n)) d = f (Z.of_nat i).
Proof.
  intros Hi. rewrite (nth_indep _ d (f 0)) by (rewrite length_map, length_zrange; lia).
  rewrite map_nth, nth_zrange by lia. f_equal.
Qed.

Lemma custom_decide_trip (agent_idx : Z) :
  let t := custom_agent_trip agent_idx in
  CustomLineGen_decide_orientation (fst t) (snd t) = Some 1 \/
  CustomLineGen_decide_orientation (fst t) (snd t) = Some 3.
Proof.
  unfold custom_agent_trip. cbv zeta.
  destruct (agent_idx mod 2 =? 0);
    repeat match goal with |- context [in_range ?r ?a ?b] => destruct (in_range r a b) end;
    cbn; auto.
Qed.

(** X18: when [CustomLineGen.generate] succeeds, the hints have a city
    and every agent gets a direction, 1 or 3: its [decide_orientation]
    never falls through to [None] on the fixed start and target cells. *)
Theorem custom_line_directions self (rail : Rail) num_agents hints num_resets st line st' :
  CustomLineGen_generate rs_choice_p self rail num_agents hints num_resets st = Ok (line, st') ->
  fst (fst hints) <> [] /\
  length (agent_directions line) = Z.to_nat num_agents /\
  Forall (fun d => d = Some 1 \/ d = Some 3) (agent_directions line).
Proof.
  destruct hints as [[cps ts] co]. unfold CustomLineGen_generate. cbv beta iota zeta.
  intros H. apply line_tail_fields in H. destruct H as (_ & _ & -> & Hne).
  split; [exact Hne|]. split.
  - rewrite !length_map, length_zrange. lia.
  - rewrite Forall_map, Forall_map. apply Forall_forall. intros x _. apply custom_decide_trip.
Qed.

Lemma test_trip_parity (i : nat) :
  test_agent_trip (Z.of_nat i) =
  if Nat.even i then (((4, 16), 0), ((4, 1), 0)) else (((5, 1), 0), ((5, 16), 0)).
Proof.
  unfold test_agent_trip. destruct (Nat.Even_or_Odd i) as [[k ->]|[k ->]].
  - replace (2 * k)%nat with (0 + 2 * k)%nat by lia. rewrite Nat.even_add_mul_2.
    replace (Z.of_nat (0 + 2 * k)) with (0 + Z.of_nat k * 2) by lia.
    rewrite Z_mod_plus_full. reflexivity.
  - replace (2 * k + 1)%nat with (1 + 2 * k)%nat by lia. rewrite Nat.even_add_mul_2.
    replace (Z.of_nat (1 + 2 * k)) with (1 + Z.of_nat k * 2) by lia.
    rewrite Z_mod_plus_full. reflexivity.
Qed.

(** X19: when [TestLineGen.generate] succeeds, the hints have a city,
    and agent [i] goes from (4, 16) to (4, 1) facing 3 for even [i] and
    from (5, 1) to (5, 16) facing 1 for odd [i]. *)
Theorem test_line_agents self (rail : Rail) num_agents hints num_resets st line st' :
  TestLineGen_generate rs_choice_p self rail num_agents hints num_resets st = Ok (line, st') ->
  fst (fst hints) <> [] /\
  length (agent_positions line) = Z.to_nat num_agents /\
  forall i, (i < Z.to_nat num_agents)%nat ->
    (nth i (agent_positions line) (0, 0), nth i (agent_targets line) (0, 0),
     nth i (agent_directions line) None) =
    (if Nat.even i then ((4, 16), (4, 1), Some 3) else ((5, 1), (5, 16), Some 1)).
Proof.
  destruct hints as [[cps ts] co]. unfold TestLineGen_generate. cbv beta iota zeta.
  intros H. apply line_tail_fields in H. destruct H as (-> & -> & -> & Hne).
  split; [exact Hne|]. split.
  - rewrite !length_map, length_zrange. lia.
  - intros i Hi. rewrite !map_map.
    rewrite !(nth_map_zrange _ num_agents i) by exact Hi.
    rewrite test_trip_parity. destruct (Nat.even i); reflexivity.
Qed.

End FixedLines.
End LineFacts.

(** ** Examples for the properties above *)

Module ExtraExamples.
Import Examples Malfunction MalfunctionGenerators MalfunctionGeneratorFacts NeighbourFacts CliqueFacts
  PlacementFacts.

Lemma no_malfunction_gen_breaks_witness :
  (fun s : Z => ((1 # 10, 1 # 100, 1 # 2), s + 1)) 0 = ((1 # 10, 1 # 100, 1 # 2), 1) /\
  position (mkEnvAgent (Some (3, 4)) (Some (3, 4))) = Some (3, 4) /\
  initial_position (mkEnvAgent (Some (3, 4)) (Some (3, 4))) = Some (3, 4) /\
  Qlt_bool (1 # 100) (5 # 100) = true /\
  (malfunction_rate (get_process_data NoMalfunctionGen) = 0%Q /\
   2 <= fst (ParamMalfunctionGen_generate (fun s : Z => ((1 # 10, 1 # 100, 1 # 2), s + 1))
               (fun q => q) (fun _ (_ : unit) => 0%nat) NoMalfunctionGen tt 0
               (mkEnvAgent (Some (3, 4)) (Some (3, 4)))) <= 50).
Proof.
  split; [reflexivity|]. split; [reflexivity|]. split; [reflexivity|].
  split; [reflexivity|].
  apply (no_malfunction_gen_breaks (fun s : Z => ((1 # 10, 1 # 100, 1 # 2), s + 1)) (fun q => q)
           (fun _ (_ : unit) => 0%nat) tt 0 (mkEnvAgent (Some (3, 4)) (Some (3, 4))) (3, 4)
           (1 # 10) (1 # 100) (1 # 2) 1); reflexivity.
Defined.

Lemma zero_rate_never_breaks_witness :
  (forall st : Z, (0 <= fst ((fun s : Z => (0%Q, (s + 1)%Z)) st))%Q) /\
  (malfunction_rate (mkMalfunctionParameters 0 1 3) <= 0)%Q /\
  ((exists st', from_params_generator (fun s : Z => (0%Q, (s + 1)%Z)) lcg_randint (fun q => q)
                  (mkMalfunctionParameters 0 1 3) 7 false = Ok (0, st')) /\
   (exists st', from_file_generator (fun s : Z => (0%Q, (s + 1)%Z)) lcg_randint (fun q => q)
                  (Some (mkMalfunctionParameters 0 1 3)) 0 7 false = Ok (0, st')) /\
   (exists st', from_file_generator (fun s : Z => (0%Q, (s + 1)%Z)) lcg_randint (fun q => q)
                  None 0 7 false = Ok (0, st'))).
Proof.
  assert (Hr : forall st : Z, (0 <= fst ((fun s : Z => (0%Q, (s + 1)%Z)) st))%Q)
    by (intros st; apply Qle_refl).
  split; [exact Hr|]. split; [apply Qle_refl|].
  apply (zero_rate_never_breaks (fun s : Z => (0%Q, (s + 1)%Z)) lcg_randint (fun q => q) Hr
           (mkMalfunctionParameters 0 1 3) 0 7 false).
  apply Qle_refl.
Defined.

Lemma from_file_duration_shift_witness :
  (0 < 1)%Z /\
  Qlt_bool (fst ((fun s : Z => (0%Q, (s + 1)%Z)) 7))
    (malfunction_prob (fun q => q) (malfunction_rate (mkMalfunctionParameters 1 2 5))) = true /\
  (from_file_generator (fun s : Z => (0%Q, (s + 1)%Z)) lcg_randint (fun q => q)
     (Some (mkMalfunctionParameters 1 2 5)) 0 7 false
   = ('(n, st') <- from_params_generator (fun s : Z => (0%Q, (s + 1)%Z)) lcg_randint (fun q => q)
                     (mkMalfunctionParameters 1 2 5) 7 false ;; Ok (n + 1, st')) /\
   (forall n st', from_params_generator (fun s : Z => (0%Q, (s + 1)%Z)) lcg_randint (fun q => q)
                    (mkMalfunctionParameters 1 2 5) 7 false = Ok (n, st') ->
      min_duration (mkMalfunctionParameters 1 2 5) <= n <= max_duration (mkMalfunctionParameters 1 2 5))).
Proof.
  split; [lia|]. split; [reflexivity|].
  apply (from_file_duration_shift (fun s : Z => (0%Q, (s + 1)%Z)) lcg_randint (fun q => q)
           RailExamples.lcg_randint_range (mkMalfunctionParameters 1 2 5) 0 7); [lia | reflexivity].
Defined.

Lemma get_closest_neighbour_for_direction_spec_witness :
  length [None; Some 3%nat; None; None] = 4%nat /\ 0 <= 0 < 4 /\
  exists r, get_closest_neighbour_for_direction [None; Some 3%nat; None; None] 0 = Ok r /\
    (nth (Z.to_nat 0) [None; Some 3%nat; None; None] None <> None ->
       r = nth (Z.to_nat 0) [None; Some 3%nat; None; None] None) /\
    (r = None <-> Forall (fun o => o = None) [None; Some 3%nat; None; None]) /\
    (forall m, r = Some m -> In (Some m) [None; Some 3%nat; None; None]).
Proof.
  split; [reflexivity|]. split; [lia|].
  apply (get_closest_neighbour_for_direction_spec [None; Some 3%nat; None; None] 0);
    [reflexivity | lia].
Defined.

Lemma closest_neighbour_in_grid4_directions_spec_witness :
  NoDup [(10, 10); (2, 10); (10, 20); (20, 11); (10, 1); (3, 3)] /\
  (0 < length [(10, 10); (2, 10); (10, 20); (20, 11); (10, 1); (3, 3)])%nat /\
  closest_neighbour_in_grid4_directions 0 [(10, 10); (2, 10); (10, 20); (20, 11); (10, 1); (3, 3)]
    = Ok [Some 1%nat; Some 2%nat; Some 3%nat; Some 4%nat] /\
  exists closest,
    closest_neighbour_in_grid4_directions (Z.of_nat 0) [(10, 10); (2, 10); (10, 20); (20, 11); (10, 1); (3, 3)]
      = Ok closest /\ length closest = 4%nat.
Proof.
  assert (Hnd : NoDup [(10, 10); (2, 10); (10, 20); (20, 11); (10, 1); (3, 3)]).
  { repeat constructor; simpl; intros H; repeat destruct H as [H|H]; try discriminate; contradiction. }
  split; [exact Hnd|]. split; [simpl; lia|]. split; [vm_compute; reflexivity|].
  destruct (closest_neighbour_in_grid4_directions_spec 0 _ Hnd ltac:(simpl; lia))
    as [c [Hc [Hl _]]].
  exists c. split; assumption.
Defined.

Lemma generate_two_feasible_cities_crash_witness :
  valid_seed (mkSparseRailGen 5 false 2 2 (Some 1)) = true /\
  grid_mode (mkSparseRailGen 5 false 2 2 (Some 1)) = false /\
  max_feasible_cities (mkSparseRailGen 5 false 2 2 (Some 1)) 22 12 = 2 /\
  ex_generate (mkSparseRailGen 5 false 2 2 (Some 1)) 22 12 1 = Some (Raise IndexError).
Proof.
  split; [reflexivity|]. split; [reflexivity|]. split; [reflexivity|]. unfold ex_generate.
  apply (generate_two_feasible_cities_crash lcg_randint lcg_RandomState ex_align_cell_to_city
           ex_GridTransitionMap ex_connect_rail ex_connect_straight_line ex_fix_inner_nodes
           ex_cell_neighbours_valid ex_fix_transitions RailExamples.lcg_randint_range);
    first [reflexivity | simpl; lia].
Defined.

Lemma random_city_positions_inside_witness :
  (forall st low high, low < high -> low <= fst (lcg_randint st low high) < high) /\
  0 <= 60 /\ 0 <= 60 /\
  exists city_positions ws st',
    generate_random_city_positions lcg_randint 4 4 60 60 0 = Ok (city_positions, ws, st') /\
    (Z.of_nat (length city_positions) <= Z.max 0 4) /\
    Forall (fun pc => 4 + 1 <= fst pc <= 60 - 4 - 2 /\ 4 + 1 <= snd pc <= 60 - 4 - 2) city_positions.
Proof.
  split; [exact RailExamples.lcg_randint_range|]. split; [lia|]. split; [lia|].
  apply (random_city_positions_inside lcg_randint RailExamples.lcg_randint_range 4 4 60 60 0); lia.
Defined.

Lemma evenly_distr_city_positions_inside_witness :
  0 <= 4 /\ 0 <= 60 /\ 0 <= 60 /\ 2 <= 4 <= ((60 - 2) / (2 * (4 + 1))) * ((60 - 2) / (2 * (4 + 1))) /\
  exists city_positions,
    generate_evenly_distr_city_positions 4 4 60 60 = Ok city_positions /\
    (2 <= length city_positions)%nat /\ Z.of_nat (length city_positions) <= 4 /\
    Forall (fun pc => 4 + 2 <= fst pc <= 60 - (4 + 2) /\ 4 + 2 <= snd pc <= 60 - (4 + 2)) city_positions.
Proof.
  split; [lia|]. split; [lia|]. split; [lia|]. split; [vm_compute; split; discriminate|].
  apply evenly_distr_city_positions_inside; [lia | lia | lia | vm_compute; split; discriminate].
Defined.

Lemma place_cities_bounds_witness :
  (forall st low high, low < high -> low <= fst (lcg_randint st low high) < high) /\
  0 <= 4 /\ 0 <= 60 /\ 0 <= 60 /\ 2 <= 4 <= ((60 - 2) / (2 * (4 + 1))) * ((60 - 2) / (2 * (4 + 1))) /\
  match place_cities lcg_randint ex_config 4 4 60 60 10 0 with
  | Some (Ok (city_positions, _, _)) =>
      (2 <= length city_positions)%nat /\ Z.of_nat (length city_positions) <= 4 /\
      Forall (fun pc => 4 + 1 <= fst pc <= 60 - 4 - 2 /\ 4 + 1 <= snd pc <= 60 - 4 - 2) city_positions
  | Some (Raise e) => e = IndexError
  | None => True
  end.
Proof.
  split; [exact RailExamples.lcg_randint_range|].
  split; [lia|]. split; [lia|]. split; [lia|]. split; [vm_compute; split; discriminate|].
  apply (place_cities_bounds lcg_randint RailExamples.lcg_randint_range ex_config 4 4 60 60 10 0);
    [lia | lia | lia | vm_compute; split; discriminate].
Defined.

End ExtraExamples.

Module NumpyErrorExamples.
Import Examples.



End NumpyErrorExamples.

(** ** Examples for the line generators *)

Module LineExamples.
Import Examples LineGenerators LineFacts.

Lemma ex_choice2_spec : forall (st n : Z), 2 <= n ->
  0 <= fst (fst (ex_choice2 st n)) < n /\ 0 <= snd (fst (ex_choice2 st n)) < n /\
  fst (fst (ex_choice2 st n)) <> snd (fst (ex_choice2 st n)).
Proof. intros st n Hn. cbn. lia. Qed.

Lemma ex_choice_list_in : forall (st : Z) (l : list Z), l <> [] -> In (fst (ex_choice_list st l)) l.
Proof. intros st [|x l] H; [contradiction|]. now left. Qed.

Lemma sparse_line_pairs_witness :
  ex_sparse_line 3 =
    Ok (mkLine [(8, 30); (12, 10); (9, 30)] [3; 3; 3] [(8, 10); (12, 30); (8, 10)] [1%Q; 1%Q; 1%Q],
        371213652) /\
  forall k, (2 * k < 3)%nat ->
    paired_agents ex_line_hints 3 k [(8, 30); (12, 10); (9, 30)] [(8, 10); (12, 30); (8, 10)] [3; 3; 3].
Proof.
  assert (E : ex_sparse_line 3 =
    Ok (mkLine [(8, 30); (12, 10); (9, 30)] [3; 3; 3] [(8, 10); (12, 30); (8, 10)] [1%Q; 1%Q; 1%Q],
        371213652)) by (vm_compute; reflexivity).
  split; [exact E|].
  exact (proj2 (proj2 (proj2 (sparse_line_pairs lcg_randint ex_choice2 ex_choice_list ex_choice_p
    ex_check_path ex_choice2_spec ex_choice_list_in ex_line_gen tt 3 ex_line_hints 0 7 _ _ E)))).
Defined.

Lemma sparse_line_generate_ok_witness :
  (2 <= length (fst (fst ex_line_hints)))%nat /\
  length (snd (fst ex_line_hints)) = length (fst (fst ex_line_hints)) /\
  length (snd ex_line_hints) = length (fst (fst ex_line_hints)) /\
  Forall (fun s => (2 <= length s)%nat) (snd (fst ex_line_hints)) /\
  Forall (fun o => 0 <= o < 4) (snd ex_line_hints) /\
  truthy_map (speed_ratio_map ex_line_gen) = false /\
  exists line st', ex_sparse_line 5 = Ok (line, st') /\
    length (agent_positions line) = 5%nat /\ agent_speeds line = repeat 1%Q 5.
Proof.
  assert (Hts : Forall (fun s : list (cell * Z) => (2 <= length s)%nat) (snd (fst ex_line_hints)))
    by (cbn; repeat (apply Forall_cons; [cbn; lia|]); apply Forall_nil).
  assert (Hco : Forall (fun o => 0 <= o < 4) (snd ex_line_hints))
    by (cbn; repeat (apply Forall_cons; [lia|]); apply Forall_nil).
  split; [cbn; lia|]. split; [reflexivity|]. split; [reflexivity|].
  split; [exact Hts|]. split; [exact Hco|]. split; [reflexivity|].
  exact (sparse_line_generate_ok lcg_randint ex_choice2 ex_choice_list ex_choice_p ex_check_path
           ex_choice2_spec RailExamples.lcg_randint_range ex_line_gen tt 5
           (fst (fst ex_line_hints)) (snd (fst ex_line_hints)) (snd ex_line_hints) 0 7
           ltac:(cbn; lia) eq_refl eq_refl Hts Hco eq_refl).
Defined.

Lemma sparse_line_too_few_cities_witness :
  (length [(10, 10)] < 2)%nat /\
  SparseLineGen_generate lcg_randint ex_choice2 ex_choice_list ex_choice_p ex_check_path ex_line_gen
    tt 2 ([(10, 10)], [[((8, 10), 0); ((12, 10), 1)]], [1]) 0 7 =
  Raise (ValueError "Cannot take a larger sample than population when 'replace=False'"%string).
Proof.
  assert (Hlt : (length [(10, 10)] < 2)%nat) by (cbn; lia).
  split; [exact Hlt|].
  exact (proj1 (sparse_line_too_few_cities lcg_randint ex_choice2 ex_choice_list ex_choice_p
    ex_check_path ex_line_gen tt 2 [(10, 10)] [[((8, 10), 0); ((12, 10), 1)]] [1] 0 7 Hlt)
    ltac:(lia)).
Defined.

Lemma sparse_line_speeds_witness :
  ex_sparse_line 3 =
    Ok (mkLine [(8, 30); (12, 10); (9, 30)] [3; 3; 3] [(8, 10); (12, 30); (8, 10)] [1%Q; 1%Q; 1%Q],
        371213652) /\
  (truthy_map (speed_ratio_map ex_line_gen) = false -> [1%Q; 1%Q; 1%Q] = repeat 1%Q 3).
Proof.
  assert (E : ex_sparse_line 3 =
    Ok (mkLine [(8, 30); (12, 10); (9, 30)] [3; 3; 3] [(8, 10); (12, 30); (8, 10)] [1%Q; 1%Q; 1%Q],
        371213652)) by (vm_compute; reflexivity).
  split; [exact E|].
  exact (proj1 (sparse_line_speeds lcg_randint ex_choice2 ex_choice_list ex_choice_p
    ex_check_path ex_choice2_spec ex_choice_list_in ex_line_gen tt 3 ex_line_hints 0 7 _ _ E)).
Defined.

Lemma custom_line_directions_witness :
  CustomLineGen_generate ex_choice_p ex_line_gen tt 3 ex_line_hints 0 7 =
    Ok (mkLine [(12, 61); (7, 109); (12, 61)] [Some 1; Some 3; Some 1] [(7, 109); (12, 61); (7, 109)]
          [1%Q; 1%Q; 1%Q], 7) /\
  Forall (fun d => d = Some 1 \/ d = Some 3) [Some 1; Some 3; Some 1].
Proof.
  assert (E : CustomLineGen_generate ex_choice_p ex_line_gen tt 3 ex_line_hints 0 7 =
    Ok (mkLine [(12, 61); (7, 109); (12, 61)] [Some 1; Some 3; Some 1] [(7, 109); (12, 61); (7, 109)]
          [1%Q; 1%Q; 1%Q], 7)) by (vm_compute; reflexivity).
  split; [exact E|].
  exact (proj2 (proj2 (custom_line_directions ex_choice_p ex_line_gen tt 3 ex_line_hints 0 7 _ _ E))).
Defined.

Lemma test_line_agents_witness :
  TestLineGen_generate ex_choice_p ex_line_gen tt 3 ex_line_hints 0 7 =
    Ok (mkLine [(4, 16); (5, 1); (4, 16)] [Some 3; Some 1; Some 3] [(4, 1); (5, 16); (4, 1)]
          [1%Q; 1%Q; 1%Q], 7) /\
  (nth 1 [(4, 16); (5, 1); (4, 16)] (0, 0), nth 1 [(4, 1); (5, 16); (4, 1)] (0, 0),
   nth 1 [Some 3; Some 1; Some 3] None) = ((5, 1), (5, 16), Some 1).
Proof.
  assert (E : TestLineGen_generate ex_choice_p ex_line_gen tt 3 ex_line_hints 0 7 =
    Ok (mkLine [(4, 16); (5, 1); (4, 16)] [Some 3; Some 1; Some 3] [(4, 1); (5, 16); (4, 1)]
          [1%Q; 1%Q; 1%Q], 7)) by (vm_compute; reflexivity).
  split; [exact E|].
  exact (proj2 (proj2 (test_line_agents ex_choice_p ex_line_gen tt 3 ex_line_hints 0 7 _ _ E)) 1%nat
           ltac:(cbn; lia)).
Defined.

End LineExamples.
